(** * vm-dhcp-controller: network resolver, pool state loader, VM reconciler
      and admission validator

    A shallow embedding of
    - [pkg/util/network.go] ([GetServiceCIDRFromNode], [LoadCIDR],
      [LoadPool], [LoadAllocated], [IsIPAddrInList], [IsIPInBetweenOf],
      [GetIPPoolFromNetworkName]),
    - the VM controller ([Handler.OnChange], [hasIPPool],
      [applyMACAddressAnnotation]) in its revision with the pool filter,
      and [pkg/controller/vm/controller.go], the revision without it, and
    - [pkg/webhook/vmnetcfg/validator.go] ([Validator.Create]),
    followed by the properties of these functions.

    Go strings are byte strings ([string]); Go maps are [gmap]s, and the
    order in which a loop visits one is a listing that the loop is given
    ([MapOrder]); a Go [(value, error)] result is a [result]; the calls a
    handler makes on the cluster are threaded through a small state monad
    over [Cluster].
    Logging ([logrus]) has no effect on any result and is left out. *)

From Stdlib Require Import ZArith Ascii String List Bool Lia.
From stdpp Require Import base option list gmap strings fin_maps.

Local Open Scope string_scope.
Local Open Scope list_scope.

(* ===================================================================== *)
(** ** Go values *)
(* ===================================================================== *)

(** A Go [error]: an API status error (k8s.io/apimachinery
    [errors.StatusError], of which only the reason and the message matter
    here), a [net.ParseError], or a [fmt.Errorf] value: [Errorf] carries the
    formatted message, [Wrapf] (a format with [%w]) also the error it
    wraps. *)
Inductive StatusReason :=
| StatusReasonNotFound
| StatusReasonAlreadyExists
| StatusReasonConflict
| StatusReasonInternalError.

Inductive error :=
| StatusError (reason : StatusReason) (message : string)
| ParseError (type text : string)
| Errorf (message : string)
| Wrapf (message : string) (cause : error).

(** [err.Error()] *)
Definition Error (e : error) : string :=
  match e with
  | StatusError _ m => m
  | ParseError type text => "invalid " +:+ type +:+ ": " +:+ text
  | Errorf m => m
  | Wrapf m _ => m
  end.

(** [apierrors.IsNotFound]: the reason of the first status error on the
    [Unwrap] chain is [NotFound]. *)
Fixpoint IsNotFound (e : error) : bool :=
  match e with
  | StatusError StatusReasonNotFound _ => true
  | StatusError _ _ => false
  | ParseError _ _ => false
  | Errorf _ => false
  | Wrapf _ e' => IsNotFound e'
  end.

(** A Go [(T, error)] pair in which exactly one side is meaningful. *)
Inductive result (A : Type) :=
| Ok (a : A)
| Err (e : error).
Arguments Ok {A} a.
Arguments Err {A} e.

Definition is_Ok {A} (r : result A) : bool :=
  match r with Ok _ => true | Err _ => false end.

(** The double quote, for [%q] in messages. *)
Definition dquote : string := String "034"%char EmptyString.

(** [apierrors.NewNotFound(resource, name)] *)
Definition NewNotFound (resource name : string) : error :=
  StatusError StatusReasonNotFound
    (resource +:+ " " +:+ dquote +:+ name +:+ dquote +:+ " not found").

(* ===================================================================== *)
(** ** Cluster objects *)
(* ===================================================================== *)

(** The NetworkAttachmentDefinition (interface definition).  [Labels] is a
    Go map that may be [nil] ([None]). *)
Module NetworkAttachmentDefinition.
Record t := Build {
  Namespace : string;
  Name : string;
  Labels : option (gmap string string);
}.
End NetworkAttachmentDefinition.

(** The address pool; the resolver hands it back as it is stored. *)
Module IPPool.
Record t := Build {
  Namespace : string;
  Name : string;
  CIDR : string;
}.
End IPPool.

(** kubevirt's [Interface], [MultusNetwork], [Network] and
    [VirtualMachine], with the fields the controller reads.  [Interfaces]
    is [Spec.Template.Spec.Domain.Devices.Interfaces] and [Networks] is
    [Spec.Template.Spec.Networks]; [Multus] is a pointer, [None] when the
    network is of another type. *)
Module Interface.
Record t := Build {
  Name : string;
  MacAddress : string;
}.
End Interface.

Module MultusNetwork.
Record t := Build {
  NetworkName : string;
}.
End MultusNetwork.

Module Network.
Record t := Build {
  Name : string;
  Multus : option MultusNetwork.t;
}.
End Network.

Module VirtualMachine.
Record t := Build {
  Namespace : string;
  Name : string;
  DeletionTimestamp : option Z;
  Annotations : gmap string string;
  Interfaces : list Interface.t;
  Networks : list Network.t;
}.
End VirtualMachine.

(** Modelled from the spec: the types of package [networkv1]
    ([NetworkConfig], [VirtualMachineNetworkConfig]) are declared outside
    the files at hand.  A network config is a pair of network name and MAC
    address; the per-VM resource holds the list of them as its spec and its
    status conditions, each with status, reason and message, here keyed by
    condition type. *)
Module NetworkConfig.
Record t := Build {
  NetworkName : string;
  MACAddress : string;
}.
End NetworkConfig.

Module Condition.
Record t := Build {
  Status : string;
  Reason : string;
  Message : string;
}.
End Condition.

Module VirtualMachineNetworkConfig.
Record t := Build {
  Kind : string;
  Namespace : string;
  Name : string;
  NetworkConfigs : list NetworkConfig.t;
  Conditions : gmap string Condition.t;
}.
End VirtualMachineNetworkConfig.

#[global] Instance Interface_eq_dec : EqDecision Interface.t.
Proof. solve_decision. Defined.
#[global] Instance NetworkConfig_eq_dec : EqDecision NetworkConfig.t.
Proof. solve_decision. Defined.
#[global] Instance Condition_eq_dec : EqDecision Condition.t.
Proof. solve_decision. Defined.

(** Objects are stored under their namespace and name. *)
Abbreviation objkey := (string * string)%type.

(* ===================================================================== *)
(** ** The cluster as the handlers see it *)
(* ===================================================================== *)

(** The calls of a handler that reach beyond its caches: the four writes
    and the re-enqueueing of a VM. *)
Inductive Call :=
| CallVMUpdate (vm : VirtualMachine.t)
| CallCreate (o : VirtualMachineNetworkConfig.t)
| CallUpdate (o : VirtualMachineNetworkConfig.t)
| CallUpdateStatus (o : VirtualMachineNetworkConfig.t)
| CallEnqueue (ns name : string).

(** The client and cache operations [OnChange] checks the error of. *)
Inductive Op := OpVMUpdate | OpGet | OpCreate | OpUpdate | OpUpdateStatus.

(** The resource store with its caches (one map per kind: a cache shows
    what the store holds), the failures the store is going to answer with
    ([faults op = Some e]: the next [op] fails with [e] and changes
    nothing), and the trace of calls made so far, oldest first. *)
Record Cluster := mkCluster {
  vms : gmap objkey VirtualMachine.t;
  vmnetcfgs : gmap objkey VirtualMachineNetworkConfig.t;
  nads : gmap objkey NetworkAttachmentDefinition.t;
  ippools : gmap objkey IPPool.t;
  faults : Op → option error;
  calls : list Call;
}.

(** A computation on the cluster. *)
Definition Pass (A : Type) : Type := Cluster → A * Cluster.

Definition ret {A} (a : A) : Pass A := λ c, (a, c).
Definition bind {A B} (m : Pass A) (k : A → Pass B) : Pass B :=
  λ c, let (a, c') := m c in k a c'.
Notation "'do' x <- m ; k" := (bind m (λ x, k))
  (at level 10, x name, m at level 100, k at level 200).

Definition record (call : Call) : Pass unit :=
  λ c, (tt, mkCluster (vms c) (vmnetcfgs c) (nads c) (ippools c) (faults c)
               (calls c ++ [call])).

Definition set_vms (f : gmap objkey VirtualMachine.t → gmap objkey VirtualMachine.t)
  (c : Cluster) : Cluster :=
  mkCluster (f (vms c)) (vmnetcfgs c) (nads c) (ippools c) (faults c) (calls c).

Definition set_vmnetcfgs
  (f : gmap objkey VirtualMachineNetworkConfig.t → gmap objkey VirtualMachineNetworkConfig.t)
  (c : Cluster) : Cluster :=
  mkCluster (vms c) (f (vmnetcfgs c)) (nads c) (ippools c) (faults c) (calls c).

(* ===================================================================== *)
(** ** Library functions and constants the sources use but do not define *)
(* ===================================================================== *)

(** [strings.TrimSpace], [encoding/json.Unmarshal] (into a
    [map[string]string]; [None] is a decoding error) and the IPv6 branch of
    [netip.ParseAddr] (the 128-bit address and its zone) belong to Go's
    standard library; the two label keys are constants of package [util]
    declared outside the files at hand.  They are parameters of the
    development. *)
Class Externals := {
  TrimSpace : string → string;
  json_Unmarshal : string → option (gmap string string);
  parseIPv6 : string → option (N * string);
  IPPoolNamespaceLabelKey : string;
  IPPoolNameLabelKey : string;
}.

(** The order in which a [range] statement visits a Go map is left open,
    and may change from one loop to the next.  A listing says in which
    order the entries of a map come; every loop over a map takes one. *)
Class MapOrder := {
  rangeOrder : ∀ {V : Type}, gmap string V → list (string * V);
  rangeOrder_perm : ∀ (V : Type) (m : gmap string V), rangeOrder m ≡ₚ map_to_list m;
}.

(* ===================================================================== *)
(** ** Strings: [strings.SplitN] for wrangler's [kv.RSplit] *)
(* ===================================================================== *)

(** Does byte [c] occur in [s]? *)
Fixpoint contains (c : ascii) (s : string) : bool :=
  match s with
  | EmptyString => false
  | String c' s' => Ascii.eqb c' c || contains c s'
  end.

(** [strings.SplitN(s, sep, 2)] for a one-byte separator: [s] alone when
    [sep] does not occur in it, otherwise the text before the first [sep]
    and all the text after it. *)
Fixpoint SplitN2 (s : string) (sep : ascii) : list string :=
  match s with
  | EmptyString => [EmptyString]
  | String c s' =>
      if Ascii.eqb c sep then [EmptyString; s']
      else match SplitN2 s' sep with
           | [] => [String c EmptyString]
           | p :: ps => String c p :: ps
           end
  end.

(** [safeIndex(parts, idx)] of package [kv]: the part at [idx], or the
    empty string when there is none. *)
Definition safeIndex (parts : list string) (idx : nat) : string :=
  nth idx parts EmptyString.


(* --------------------------------------------------------------------- *)
(** *** The store's operations *)
(* --------------------------------------------------------------------- *)

(** The store is not part of the sources: reads answer from the maps, a
    write is traced, fails with the planned fault if there is one, and
    otherwise changes the stored object.  [Update] writes everything but
    the status, [UpdateStatus] nothing but the status (the resource has a
    status subresource).  The object a client hands back next to an error
    is never looked at; a failed call is an [Err]. *)

Definition nadCache_Get (nadCache : gmap objkey NetworkAttachmentDefinition.t)
  (ns name : string) : result NetworkAttachmentDefinition.t :=
  match nadCache !! (ns, name) with
  | Some nad => Ok nad
  | None => Err (NewNotFound "network-attachment-definitions.k8s.cni.cncf.io" name)
  end.

Definition ippoolCache_Get (ippoolCache : gmap objkey IPPool.t)
  (ns name : string) : result IPPool.t :=
  match ippoolCache !! (ns, name) with
  | Some p => Ok p
  | None => Err (NewNotFound "ippools.network.harvesterhci.io" name)
  end.

Definition vmnetcfgCache_Get (ns name : string)
  : Pass (result VirtualMachineNetworkConfig.t) :=
  λ c, match faults c OpGet with
       | Some e => (Err e, c)
       | None =>
           match vmnetcfgs c !! (ns, name) with
           | Some o => (Ok o, c)
           | None =>
               (Err (NewNotFound
                       "virtualmachinenetworkconfigs.network.harvesterhci.io" name), c)
           end
       end.

Definition vmClient_Update (vm : VirtualMachine.t) : Pass (result VirtualMachine.t) :=
  do _ <- record (CallVMUpdate vm);
  λ c, match faults c OpVMUpdate with
       | Some e => (Err e, c)
       | None =>
           (Ok vm,
            set_vms (insert (VirtualMachine.Namespace vm, VirtualMachine.Name vm) vm) c)
       end.

Definition vmnetcfgClient_Create (o : VirtualMachineNetworkConfig.t)
  : Pass (result VirtualMachineNetworkConfig.t) :=
  do _ <- record (CallCreate o);
  λ c, let k := (VirtualMachineNetworkConfig.Namespace o,
                 VirtualMachineNetworkConfig.Name o) in
       match faults c OpCreate with
       | Some e => (Err e, c)
       | None =>
           match vmnetcfgs c !! k with
           | Some _ =>
               (Err (StatusError StatusReasonAlreadyExists
                       (VirtualMachineNetworkConfig.Name o +:+ " already exists")), c)
           | None => (Ok o, set_vmnetcfgs (insert k o) c)
           end
       end.

Definition vmnetcfgClient_Update (o : VirtualMachineNetworkConfig.t)
  : Pass (result VirtualMachineNetworkConfig.t) :=
  do _ <- record (CallUpdate o);
  λ c, let k := (VirtualMachineNetworkConfig.Namespace o,
                 VirtualMachineNetworkConfig.Name o) in
       match faults c OpUpdate with
       | Some e => (Err e, c)
       | None =>
           match vmnetcfgs c !! k with
           | None =>
               (Err (NewNotFound
                       "virtualmachinenetworkconfigs.network.harvesterhci.io"
                       (VirtualMachineNetworkConfig.Name o)), c)
           | Some stored =>
               let o' := VirtualMachineNetworkConfig.Build
                           (VirtualMachineNetworkConfig.Kind o)
                           (VirtualMachineNetworkConfig.Namespace o)
                           (VirtualMachineNetworkConfig.Name o)
                           (VirtualMachineNetworkConfig.NetworkConfigs o)
                           (VirtualMachineNetworkConfig.Conditions stored) in
               (Ok o', set_vmnetcfgs (insert k o') c)
           end
       end.

Definition vmnetcfgClient_UpdateStatus (o : VirtualMachineNetworkConfig.t)
  : Pass (result VirtualMachineNetworkConfig.t) :=
  do _ <- record (CallUpdateStatus o);
  λ c, let k := (VirtualMachineNetworkConfig.Namespace o,
                 VirtualMachineNetworkConfig.Name o) in
       match faults c OpUpdateStatus with
       | Some e => (Err e, c)
       | None =>
           match vmnetcfgs c !! k with
           | None =>
               (Err (NewNotFound
                       "virtualmachinenetworkconfigs.network.harvesterhci.io"
                       (VirtualMachineNetworkConfig.Name o)), c)
           | Some stored =>
               let o' := VirtualMachineNetworkConfig.Build
                           (VirtualMachineNetworkConfig.Kind stored)
                           (VirtualMachineNetworkConfig.Namespace stored)
                           (VirtualMachineNetworkConfig.Name stored)
                           (VirtualMachineNetworkConfig.NetworkConfigs stored)
                           (VirtualMachineNetworkConfig.Conditions o) in
               (Ok o', set_vmnetcfgs (insert k o') c)
           end
       end.

Definition vmController_Enqueue (ns name : string) : Pass unit :=
  record (CallEnqueue ns name).

(* --------------------------------------------------------------------- *)
(** *** Conditions (wrangler's [condition.Cond]) *)
(* --------------------------------------------------------------------- *)

(** Modelled from the spec: [networkv1.InSynced] is declared outside the
    files at hand; it is the in-sync condition of the per-VM resource. *)
Definition InSynced : string := "InSynced".

Definition ConditionTrue : string := "True".
Definition ConditionFalse : string := "False".
Definition ConditionUnknown : string := "Unknown".

(** The condition of type [cond], or a fresh one when the object has none. *)
Definition findOrCreateCond (cond : string) (o : VirtualMachineNetworkConfig.t)
  : Condition.t :=
  default (Condition.Build "" "" "") (VirtualMachineNetworkConfig.Conditions o !! cond).

Definition setCond (cond : string) (o : VirtualMachineNetworkConfig.t)
  (cd : Condition.t) : VirtualMachineNetworkConfig.t :=
  VirtualMachineNetworkConfig.Build
    (VirtualMachineNetworkConfig.Kind o)
    (VirtualMachineNetworkConfig.Namespace o)
    (VirtualMachineNetworkConfig.Name o)
    (VirtualMachineNetworkConfig.NetworkConfigs o)
    (<[cond := cd]> (VirtualMachineNetworkConfig.Conditions o)).

(** [cond.IsFalse(obj)] *)
Definition Cond_IsFalse (cond : string) (o : VirtualMachineNetworkConfig.t) : bool :=
  match VirtualMachineNetworkConfig.Conditions o !! cond with
  | Some cd => String.eqb (Condition.Status cd) ConditionFalse
  | None => false
  end.

(** [cond.SetStatus(obj, status)], [cond.Reason(obj, reason)],
    [cond.Message(obj, message)] *)
Definition Cond_SetStatus (cond : string) (o : VirtualMachineNetworkConfig.t)
  (status : string) : VirtualMachineNetworkConfig.t :=
  let cd := findOrCreateCond cond o in
  setCond cond o (Condition.Build status (Condition.Reason cd) (Condition.Message cd)).

Definition Cond_Reason (cond : string) (o : VirtualMachineNetworkConfig.t)
  (reason : string) : VirtualMachineNetworkConfig.t :=
  let cd := findOrCreateCond cond o in
  setCond cond o (Condition.Build (Condition.Status cd) reason (Condition.Message cd)).

Definition Cond_Message (cond : string) (o : VirtualMachineNetworkConfig.t)
  (message : string) : VirtualMachineNetworkConfig.t :=
  let cd := findOrCreateCond cond o in
  setCond cond o (Condition.Build (Condition.Status cd) (Condition.Reason cd) message).


(* ===================================================================== *)
(** ** Addresses: [net] and [net/netip] *)
(* ===================================================================== *)

(** An address or a mask is its list of bytes, each a [Z] in [0, 256). *)
Definition IPv4len : nat := 4.
Definition IPv6len : nat := 16.

Record IPNet := mkIPNet {
  IP : list Z;
  Mask : list Z;
}.

Definition isDigit (c : ascii) : bool :=
  (48 <=? nat_of_ascii c)%nat && (nat_of_ascii c <=? 57)%nat.

Definition digitVal (c : ascii) : Z := Z.of_nat (nat_of_ascii c) - 48.

(** [netip.parseIPv4]: the loop over the bytes of the address.  [first]
    says that the byte at hand is the first one, [prevDot] that the byte
    before it was a dot; [fields] are the octets read so far, [val] and
    [digLen] the value and the number of digits of the current octet. *)
Fixpoint parseIPv4_loop (s : string) (first prevDot : bool) (fields : list Z)
  (val : Z) (digLen : nat) : option (list Z) :=
  match s with
  | EmptyString =>
      if (length fields <? 3)%nat then None else Some (fields ++ [val])%list
  | String c s' =>
      if isDigit c then
        if Nat.eqb digLen 1 && (val =? 0)%Z then None
        else
          let val := (val * 10 + digitVal c)%Z in
          if (255 <? val)%Z then None
          else parseIPv4_loop s' false false fields val (S digLen)
      else if Ascii.eqb c "."%char then
        if first || String.eqb s' "" || prevDot then None
        else if Nat.eqb (length fields) 3 then None
        else parseIPv4_loop s' false true (fields ++ [val])%list 0%Z 0%nat
      else None
  end.

Definition parseIPv4 (s : string) : option (list Z) :=
  parseIPv4_loop s true false [] 0%Z 0%nat.

(** [net.dtoi]: the decimal number at the start of [s] and how many bytes
    it takes; fails without a digit or from [0xFFFFFF] on. *)
Definition big : Z := 16777215.

Fixpoint dtoi_loop (s : string) (n : Z) (i : nat) : Z * nat * bool :=
  match s with
  | EmptyString => if Nat.eqb i 0 then (0%Z, 0%nat, false) else (n, i, true)
  | String c s' =>
      if isDigit c then
        let n := (n * 10 + digitVal c)%Z in
        if (big <=? n)%Z then (big, i, false) else dtoi_loop s' n (S i)
      else if Nat.eqb i 0 then (0%Z, 0%nat, false) else (n, i, true)
  end.

Definition dtoi (s : string) : Z * nat * bool := dtoi_loop s 0%Z 0%nat.

(** [^b] on a byte. *)
Definition byte_not (b : Z) : Z := Z.land (Z.lnot b) 255.

(** [net.CIDRMask(ones, bits)], for [bits = 8 * l]. *)
Fixpoint CIDRMask_loop (l : nat) (n : Z) : list Z :=
  match l with
  | O => []
  | S l' =>
      if (8 <=? n)%Z then 255%Z :: CIDRMask_loop l' (n - 8)%Z
      else byte_not (Z.shiftr 255 n) :: CIDRMask_loop l' 0%Z
  end.

Definition CIDRMask (ones : Z) (bits : nat) : option (list Z) :=
  if negb (Nat.eqb bits (8 * IPv4len)) && negb (Nat.eqb bits (8 * IPv6len)) then None
  else if (ones <? 0)%Z || (Z.of_nat bits <? ones)%Z then None
  else Some (CIDRMask_loop (bits / 8) ones).

Definition v4InV6Prefix : list Z := [0; 0; 0; 0; 0; 0; 0; 0; 0; 0; 255; 255]%Z.

Definition allFF (b : list Z) : bool := forallb (Z.eqb 255) b.

(** [IP.Mask(mask)]; [None] is the [nil] result. *)
Definition IP_Mask (ip mask : list Z) : option (list Z) :=
  let mask :=
    if Nat.eqb (length mask) IPv6len && Nat.eqb (length ip) IPv4len
       && allFF (take 12 mask)
    then drop 12 mask else mask in
  let ip :=
    if Nat.eqb (length mask) IPv4len && Nat.eqb (length ip) IPv6len
       && bool_decide (take 12 ip = v4InV6Prefix)
    then drop 12 ip else ip in
  if negb (Nat.eqb (length ip) (length mask)) then None
  else Some (zip_with Z.land ip mask).

(** The big-endian bytes of a number: [l] of them. *)
Fixpoint be_bytes (l : nat) (n : Z) : list Z :=
  match l with
  | O => []
  | S l' => (be_bytes l' (n / 256)%Z ++ [(n mod 256)%Z])%list
  end.

(** A [netip.Addr]: an IPv4 address of four bytes, or an IPv6 address of
    sixteen with its zone. *)
Inductive Addr :=
| Addr4 (b : list Z)
| Addr6 (b : list Z) (zone : string).

Definition Addr_BitLen (a : Addr) : nat :=
  match a with Addr4 _ => 32 | Addr6 _ _ => 128 end.

Definition Addr_Zone (a : Addr) : string :=
  match a with Addr4 _ => "" | Addr6 _ z => z end.

Definition Addr_As16 (a : Addr) : list Z :=
  match a with
  | Addr4 b => (v4InV6Prefix ++ b)%list
  | Addr6 b _ => b
  end.

(** [netip.AddrFromSlice] *)
Definition AddrFromSlice (b : list Z) : option Addr :=
  if Nat.eqb (length b) 4 then Some (Addr4 b)
  else if Nat.eqb (length b) 16 then Some (Addr6 b "")
  else None.

(** [IP.String()] for a slice that is neither four nor sixteen bytes long,
    the only case in which [LoadCIDR] prints one. *)
Definition hexDigit (n : Z) : ascii :=
  nth (Z.to_nat n) (list_ascii_of_string "0123456789abcdef") "0"%char.

Fixpoint hexString (b : list Z) : string :=
  match b with
  | [] => EmptyString
  | x :: b' => String (hexDigit (x / 16)) (String (hexDigit (x mod 16)) (hexString b'))
  end.

Definition IP_String (ip : list Z) : string :=
  if Nat.eqb (length ip) 0 then "<nil>" else "?" +:+ hexString ip.

(** The bytes of an address. *)
Definition Addr_bytes (a : Addr) : list Z :=
  match a with Addr4 b => b | Addr6 b _ => b end.

Section Code.
Context `{Externals} `{MapOrder}.

(** [kv.RSplit(s, sep)] (github.com/rancher/wrangler/v3/pkg/kv, which is
    not among the files at hand): [strings.SplitN(s, sep, 2)]; with a
    single part return the empty string and that part, otherwise the part
    before the first [sep] and the rest; both halves go through
    [strings.TrimSpace]. *)
Definition RSplit (s : string) (sep : ascii) : string * string :=
  let parts := SplitN2 s sep in
  if Nat.eqb (length parts) 1 then
    (EmptyString, TrimSpace (hd EmptyString parts))
  else
    (TrimSpace (hd EmptyString parts), TrimSpace (safeIndex parts 1)).


(* --------------------------------------------------------------------- *)
(** *** pkg/util/network.go: the network resolver *)
(* --------------------------------------------------------------------- *)

(** The first lines of [GetIPPoolFromNetworkName]: the namespace and name
    under which the interface definition is looked up. *)
Definition nadLookupKey (networkName fallbackNamespace : string) : string * string :=
  let '(nadNamespace, nadName) := RSplit networkName "/"%char in
  let nadNamespace :=
    if String.eqb nadNamespace "" then fallbackNamespace else nadNamespace in
  (nadNamespace, nadName).

Definition GetIPPoolFromNetworkName
  (nadCache : gmap objkey NetworkAttachmentDefinition.t)
  (ippoolCache : gmap objkey IPPool.t)
  (networkName fallbackNamespace : string) : result IPPool.t :=
  let '(nadNamespace, nadName) := nadLookupKey networkName fallbackNamespace in
  match nadCache_Get nadCache nadNamespace nadName with
  | Err err =>
      Err (Wrapf ("network attachment definition " +:+ nadNamespace +:+ "/"
                  +:+ nadName +:+ " not found: " +:+ Error err) err)
  | Ok nad =>
      match NetworkAttachmentDefinition.Labels nad with
      | None =>
          Err (Errorf ("network attachment definition " +:+ nadNamespace +:+ "/"
                       +:+ nadName +:+ " has no labels"))
      | Some labels =>
          match labels !! IPPoolNamespaceLabelKey with
          | None =>
              Err (Errorf ("network attachment definition " +:+ nadNamespace
                           +:+ "/" +:+ nadName +:+ " has no label "
                           +:+ IPPoolNamespaceLabelKey))
          | Some ipPoolNamespace =>
              match labels !! IPPoolNameLabelKey with
              | None =>
                  Err (Errorf ("network attachment definition " +:+ nadNamespace
                               +:+ "/" +:+ nadName +:+ " has no label "
                               +:+ IPPoolNameLabelKey))
              | Some ipPoolName =>
                  match ippoolCache_Get ippoolCache ipPoolNamespace ipPoolName with
                  | Err err =>
                      Err (Wrapf ("ippool " +:+ ipPoolNamespace +:+ "/"
                                  +:+ ipPoolName +:+ " not found: " +:+ Error err) err)
                  | Ok ipPool => Ok ipPool
                  end
              end
          end
      end
  end.

(* --------------------------------------------------------------------- *)
(** *** pkg/webhook/vmnetcfg/validator.go: the admission validator *)
(* --------------------------------------------------------------------- *)

(** Modelled from the spec: the format [webhook.CreateErr] is declared
    outside the files at hand; the rejection identifies the resource kind,
    namespace, name and the underlying cause, which it wraps. *)
Definition CreateErr (kind ns name : string) (err : error) : error :=
  Wrapf ("could not create " +:+ kind +:+ " " +:+ ns +:+ "/" +:+ name
         +:+ " because " +:+ Error err) err.

Record Validator := mkValidator {
  nadCache : gmap objkey NetworkAttachmentDefinition.t;
  ippoolCache : gmap objkey IPPool.t;
}.

(** The loop of [Validator.Create] over the spec's network configs, for the
    resource [vmNetCfg]: [None] is Go's [nil] error. *)
Fixpoint Create_loop (v : Validator) (vmNetCfg : VirtualMachineNetworkConfig.t)
  (ncs : list NetworkConfig.t) : option error :=
  match ncs with
  | [] => None
  | nc :: rest =>
      match GetIPPoolFromNetworkName (nadCache v) (ippoolCache v)
              (NetworkConfig.NetworkName nc)
              (VirtualMachineNetworkConfig.Namespace vmNetCfg) with
      | Err err =>
          Some (CreateErr (VirtualMachineNetworkConfig.Kind vmNetCfg)
                  (VirtualMachineNetworkConfig.Namespace vmNetCfg)
                  (VirtualMachineNetworkConfig.Name vmNetCfg) err)
      | Ok _ => Create_loop v vmNetCfg rest
      end
  end.

Definition Validator_Create (v : Validator) (newObj : VirtualMachineNetworkConfig.t)
  : option error :=
  Create_loop v newObj (VirtualMachineNetworkConfig.NetworkConfigs newObj).

(** The network reference of [nc] resolves, with [ns] as fallback, in the
    validator's caches. *)
Definition resolvesFor (v : Validator) (ns : string) (nc : NetworkConfig.t) : Prop :=
  is_Ok (GetIPPoolFromNetworkName (nadCache v) (ippoolCache v)
           (NetworkConfig.NetworkName nc) ns) = true.

#[global] Instance resolvesFor_dec v ns nc : Decision (resolvesFor v ns nc).
Proof. unfold resolvesFor. apply _. Defined.

(* --------------------------------------------------------------------- *)
(** *** pkg/controller/vm/controller.go: the VM reconciler *)
(* --------------------------------------------------------------------- *)

Definition macAddressAnnotation : string := "harvesterhci.io/mac-address".

(** One turn of the loop of [applyMACAddressAnnotation]: the interface
    after the turn and whether it was given a MAC address. *)
Definition applyMAC (macAddresses : gmap string string) (nic : Interface.t)
  : Interface.t * bool :=
  if negb (String.eqb (Interface.MacAddress nic) "") then (nic, false)
  else
    match macAddresses !! Interface.Name nic with
    | Some macAddr =>
        if negb (String.eqb macAddr "")
        then (Interface.Build (Interface.Name nic) macAddr, true)
        else (nic, false)
    | None => (nic, false)
    end.

Fixpoint applyMACs (macAddresses : gmap string string) (nics : list Interface.t)
  : list Interface.t * bool :=
  match nics with
  | [] => ([], false)
  | nic :: rest =>
      let '(nic', u) := applyMAC macAddresses nic in
      let '(rest', updated) := applyMACs macAddresses rest in
      (nic' :: rest', u || updated)
  end.

Definition with_Interfaces (vm : VirtualMachine.t) (nics : list Interface.t)
  : VirtualMachine.t :=
  VirtualMachine.Build (VirtualMachine.Namespace vm) (VirtualMachine.Name vm)
    (VirtualMachine.DeletionTimestamp vm) (VirtualMachine.Annotations vm)
    nics (VirtualMachine.Networks vm).

(** Returns the VM (a copy with the MAC addresses applied once the
    annotation has been decoded), whether an interface was updated, and
    the error, which is always [nil]. *)
Definition applyMACAddressAnnotation (vm : VirtualMachine.t)
  : VirtualMachine.t * bool * option error :=
  match VirtualMachine.Annotations vm !! macAddressAnnotation with
  | None => (vm, false, None)
  | Some macAnnotation =>
      if String.eqb macAnnotation "" then (vm, false, None)
      else
        match json_Unmarshal macAnnotation with
        | None => (vm, false, None)
        | Some macAddresses =>
            if Nat.eqb (size macAddresses) 0 then (vm, false, None)
            else
              let '(nics, updated) :=
                applyMACs macAddresses (VirtualMachine.Interfaces vm) in
              (with_Interfaces vm nics, updated, None)
        end
  end.

Definition hasIPPool (c : Cluster) (vm : VirtualMachine.t) (networkName : string)
  : bool :=
  match GetIPPoolFromNetworkName (nads c) (ippools c) networkName
          (VirtualMachine.Namespace vm) with
  | Err err => if IsNotFound err then false else false
  | Ok _ => true
  end.

(** The three loops that build [ncm]: one entry per interface with a MAC
    address; the network name of every Multus network that has an entry;
    entries without a network name deleted. *)
Definition seedNetworkConfigs (nics : list Interface.t) : gmap string NetworkConfig.t :=
  foldl (λ ncm nic,
           if String.eqb (Interface.MacAddress nic) "" then ncm
           else <[Interface.Name nic :=
                    NetworkConfig.Build "" (Interface.MacAddress nic)]> ncm)
        ∅ nics.

Definition attachNetworkNames (networks : list Network.t)
  (ncm : gmap string NetworkConfig.t) : gmap string NetworkConfig.t :=
  foldl (λ ncm network,
           match Network.Multus network with
           | None => ncm
           | Some multus =>
               match ncm !! Network.Name network with
               | None => ncm
               | Some nc =>
                   <[Network.Name network :=
                       NetworkConfig.Build (MultusNetwork.NetworkName multus)
                         (NetworkConfig.MACAddress nc)]> ncm
               end
           end)
        ncm networks.

Definition removeIncomplete (ncm : gmap string NetworkConfig.t)
  : gmap string NetworkConfig.t :=
  filter (λ kv, NetworkConfig.NetworkName kv.2 ≠ "") ncm.

(** The loop that deletes the entries whose network has no pool. *)
Definition filterIPPools (c : Cluster) (vm : VirtualMachine.t)
  (ncm : gmap string NetworkConfig.t) : gmap string NetworkConfig.t :=
  filter (λ kv, hasIPPool c vm (NetworkConfig.NetworkName kv.2) = true) ncm.

(** The map [ncm] as it stands when [OnChange] tests [len(ncm) == 0] for
    the last time: the desired mapping. *)
Definition desiredMapping (c : Cluster) (vm : VirtualMachine.t)
  : gmap string NetworkConfig.t :=
  filterIPPools c vm
    (removeIncomplete
       (attachNetworkNames (VirtualMachine.Networks vm)
          (seedNetworkConfigs (VirtualMachine.Interfaces vm)))).

(** Modelled from the spec: [prepareVmNetCfg] is defined outside the files
    at hand.  The resource has the namespace and name of the VM, the
    entries of the desired mapping as its spec and no condition.  The
    entries are appended in a loop over the map, so they come in the order
    of the listing the pass happens to take. *)
Definition prepareVmNetCfg (vm : VirtualMachine.t) (ncm : gmap string NetworkConfig.t)
  : VirtualMachineNetworkConfig.t :=
  VirtualMachineNetworkConfig.Build ""
    (VirtualMachine.Namespace vm) (VirtualMachine.Name vm)
    ((rangeOrder ncm).*2) ∅.

Definition with_NetworkConfigs (o : VirtualMachineNetworkConfig.t)
  (ncs : list NetworkConfig.t) : VirtualMachineNetworkConfig.t :=
  VirtualMachineNetworkConfig.Build
    (VirtualMachineNetworkConfig.Kind o)
    (VirtualMachineNetworkConfig.Namespace o)
    (VirtualMachineNetworkConfig.Name o)
    ncs
    (VirtualMachineNetworkConfig.Conditions o).

(** [OnChange] from [vmNetCfg := prepareVmNetCfg(vm, ncm)] to its end. *)
Definition syncVmNetCfg (key : string) (vm : VirtualMachine.t)
  (ncm : gmap string NetworkConfig.t)
  : Pass (option VirtualMachine.t * option error) :=
  let vmNetCfg := prepareVmNetCfg vm ncm in
  do r <- vmnetcfgCache_Get (VirtualMachine.Namespace vm) (VirtualMachine.Name vm);
  match r with
  | Err err =>
      if IsNotFound err then
        do r <- vmnetcfgClient_Create vmNetCfg;
        match r with
        | Err err => ret (Some vm, Some err)
        | Ok _ => ret (Some vm, None)
        end
      else ret (Some vm, Some err)
  | Ok oldVmNetCfg =>
      let vmNetCfgCpy :=
        with_NetworkConfigs oldVmNetCfg
          (VirtualMachineNetworkConfig.NetworkConfigs vmNetCfg) in
      if negb (bool_decide
                 (VirtualMachineNetworkConfig.NetworkConfigs vmNetCfgCpy
                  = VirtualMachineNetworkConfig.NetworkConfigs oldVmNetCfg))
      then
        if Cond_IsFalse InSynced oldVmNetCfg then
          do r <- vmnetcfgClient_Update vmNetCfgCpy;
          match r with
          | Err err => ret (Some vm, Some err)
          | Ok _ => ret (Some vm, None)
          end
        else
          let vmNetCfgCpy := Cond_SetStatus InSynced vmNetCfgCpy ConditionFalse in
          let vmNetCfgCpy := Cond_Reason InSynced vmNetCfgCpy "NetworkConfigChanged" in
          let vmNetCfgCpy :=
            Cond_Message InSynced vmNetCfgCpy
              "Network configuration of the upstrem virtual machine has been changed" in
          do r <- vmnetcfgClient_UpdateStatus vmNetCfgCpy;
          match r with
          | Err err => ret (Some vm, Some err)
          | Ok _ =>
              do _ <- vmController_Enqueue (VirtualMachine.Namespace vm)
                        (VirtualMachine.Name vm);
              ret (Some vm, None)
          end
      else ret (Some vm, None)
  end.

(** [OnChange] from [ncm := make(...)] on, for the VM [vm] that the first
    part leaves in hand. *)
Definition reconcileNetworkConfig (key : string) (vm : VirtualMachine.t)
  : Pass (option VirtualMachine.t * option error) :=
  if Nat.eqb (length (VirtualMachine.Interfaces vm)) 0 then ret (Some vm, None)
  else
    λ c,
      let ncm := desiredMapping c vm in
      if Nat.eqb (size ncm) 0 then (Some vm, None, c)
      else syncVmNetCfg key vm ncm c.

Definition OnChange (key : string) (vm : option VirtualMachine.t)
  : Pass (option VirtualMachine.t * option error) :=
  match vm with
  | None => ret (None, None)
  | Some vm =>
      if bool_decide (is_Some (VirtualMachine.DeletionTimestamp vm))
      then ret (None, None)
      else
        let '(vmCopy, updated, err) := applyMACAddressAnnotation vm in
        match err with
        | Some err => ret (Some vm, Some err)
        | None =>
            do r <- (if updated then vmClient_Update vmCopy else ret (Ok vm));
            match r with
            | Err err => ret (None, Some err)
            | Ok vm => reconcileNetworkConfig key vm
            end
        end
  end.


(* --------------------------------------------------------------------- *)
(** *** pkg/util/network.go: [LoadCIDR] *)
(* --------------------------------------------------------------------- *)

(** [netip.ParseAddr]: the first of [.], [:] and [%] decides how the text
    is read. *)
Fixpoint ParseAddr_scan (s rest : string) : option Addr :=
  match rest with
  | EmptyString => None
  | String c rest' =>
      if Ascii.eqb c "."%char then Addr4 <$> parseIPv4 s
      else if Ascii.eqb c ":"%char then
        (λ p : N * string, Addr6 (be_bytes 16 (Z.of_N p.1 mod 2 ^ 128)) p.2)
          <$> parseIPv6 s
      else if Ascii.eqb c "%"%char then None
      else ParseAddr_scan s rest'
  end.

Definition ParseAddr (s : string) : option Addr := ParseAddr_scan s s.

(** The text before and after the first [sep], if there is one. *)
Fixpoint cut (s : string) (sep : ascii) : option (string * string) :=
  match s with
  | EmptyString => None
  | String c s' =>
      if Ascii.eqb c sep then Some (EmptyString, s')
      else (λ p : string * string, (String c p.1, p.2)) <$> cut s' sep
  end.

(** [net.ParseCIDR]: the address and the network. *)
Definition ParseCIDR (s : string) : result (list Z * IPNet) :=
  let bad := Err (ParseError "CIDR address" s) in
  match cut s "/"%char with
  | None => bad
  | Some (addr, mask) =>
      match ParseAddr addr with
      | None => bad
      | Some ipAddr =>
          if negb (String.eqb (Addr_Zone ipAddr) "") then bad
          else
            let '(n, i, ok) := dtoi mask in
            if negb ok || negb (Nat.eqb i (String.length mask))
               || (n <? 0)%Z || (Z.of_nat (Addr_BitLen ipAddr) <? n)%Z
            then bad
            else
              match CIDRMask n (Addr_BitLen ipAddr) with
              | None => bad
              | Some m =>
                  let addr16 := Addr_As16 ipAddr in
                  match IP_Mask addr16 m with
                  | None => bad
                  | Some ip => Ok (addr16, mkIPNet ip m)
                  end
              end
      end
  end.

Definition LoadCIDR (cidr : string) : result (IPNet * Addr * Addr) :=
  match ParseCIDR cidr with
  | Err err => Err err
  | Ok (_, ipNet) =>
      match AddrFromSlice (IP ipNet) with
      | None => Err (Errorf ("cannot convert ip address " +:+ IP_String (IP ipNet)))
      | Some networkIPAddr =>
          let broadcastIP :=
            zip_with (λ b m, Z.lor b (byte_not m)) (IP ipNet) (Mask ipNet) in
          match AddrFromSlice broadcastIP with
          | None => Err (Errorf ("cannot convert ip address " +:+ IP_String broadcastIP))
          | Some broadcastIPAddr => Ok (ipNet, networkIPAddr, broadcastIPAddr)
          end
      end
  end.


(** The handler as the controller runtime calls it for the VM stored under
    [ns/name] ([nil] when there is none). *)
Definition sync (ns name : string) : Pass (option VirtualMachine.t * option error) :=
  λ c, OnChange (ns +:+ "/" +:+ name) (vms c !! (ns, name)) c.

(** [pkg/controller/vm/controller.go] as it stands under that path: the
    same handler without the test for a VM without interfaces and without
    the pool filter. *)
Definition desiredMapping_basic (vm : VirtualMachine.t) : gmap string NetworkConfig.t :=
  removeIncomplete
    (attachNetworkNames (VirtualMachine.Networks vm)
       (seedNetworkConfigs (VirtualMachine.Interfaces vm))).

Definition reconcileNetworkConfig_basic (key : string) (vm : VirtualMachine.t)
  : Pass (option VirtualMachine.t * option error) :=
  let ncm := desiredMapping_basic vm in
  if Nat.eqb (size ncm) 0 then ret (Some vm, None)
  else syncVmNetCfg key vm ncm.

Definition OnChange_basic (key : string) (vm : option VirtualMachine.t)
  : Pass (option VirtualMachine.t * option error) :=
  match vm with
  | None => ret (None, None)
  | Some vm =>
      if bool_decide (is_Some (VirtualMachine.DeletionTimestamp vm))
      then ret (None, None)
      else
        let '(vmCopy, updated, err) := applyMACAddressAnnotation vm in
        match err with
        | Some err => ret (Some vm, Some err)
        | None =>
            do r <- (if updated then vmClient_Update vmCopy else ret (Ok vm));
            match r with
            | Err err => ret (None, Some err)
            | Ok vm => reconcileNetworkConfig_basic key vm
            end
        end
  end.

(* --------------------------------------------------------------------- *)
(** *** Vocabulary of the statements *)
(* --------------------------------------------------------------------- *)

(** What [applyMACAddressAnnotation] hands to [OnChange]: whether a MAC
    address was applied, and the VM the pass goes on with. *)
Definition macUpdated (vm : VirtualMachine.t) : bool :=
  (applyMACAddressAnnotation vm).1.2.

Definition vmInHand (vm : VirtualMachine.t) : VirtualMachine.t :=
  (applyMACAddressAnnotation vm).1.1.

(** The VM update of a pass, if it makes one. *)
Definition macCalls (vm : VirtualMachine.t) : list Call :=
  if macUpdated vm then [CallVMUpdate (vmInHand vm)] else [].

(** The VM without its MAC-override annotation. *)
Definition without_annotation (vm : VirtualMachine.t) : VirtualMachine.t :=
  VirtualMachine.Build (VirtualMachine.Namespace vm) (VirtualMachine.Name vm)
    (VirtualMachine.DeletionTimestamp vm)
    (delete macAddressAnnotation (VirtualMachine.Annotations vm))
    (VirtualMachine.Interfaces vm) (VirtualMachine.Networks vm).

(** The spec [prepareVmNetCfg] gives the resource for the desired mapping:
    its entries as the pass lists them. *)
Definition desiredSpec (c : Cluster) (vm : VirtualMachine.t) : list NetworkConfig.t :=
  (rangeOrder (desiredMapping c vm)).*2.

(** The three condition calls of the out-of-sync branch. *)
Definition markOutOfSync (o : VirtualMachineNetworkConfig.t)
  : VirtualMachineNetworkConfig.t :=
  Cond_Message InSynced
    (Cond_Reason InSynced (Cond_SetStatus InSynced o ConditionFalse)
       "NetworkConfigChanged")
    "Network configuration of the upstrem virtual machine has been changed".

Definition outOfSyncCondition : Condition.t :=
  Condition.Build ConditionFalse "NetworkConfigChanged"
    "Network configuration of the upstrem virtual machine has been changed".

(** The store plans no failure. *)
Definition NoFaults (c : Cluster) : Prop := ∀ op, faults c op = None.

(** Every VM and every per-VM resource is stored under its own namespace
    and name. *)
Definition WellKeyed (c : Cluster) : Prop :=
  (∀ k vm, vms c !! k = Some vm →
           k = (VirtualMachine.Namespace vm, VirtualMachine.Name vm))
  ∧ (∀ k o, vmnetcfgs c !! k = Some o →
            k = (VirtualMachineNetworkConfig.Namespace o,
                 VirtualMachineNetworkConfig.Name o)).

(** A write on the per-VM resource. *)
Definition isNetCfgWrite (call : Call) : bool :=
  match call with
  | CallCreate _ | CallUpdate _ | CallUpdateStatus _ => true
  | _ => false
  end.

Definition isVMUpdate (call : Call) : bool :=
  match call with CallVMUpdate _ => true | _ => false end.

(** The pass has nothing to do for the VM stored under [ns/name]: there is
    no such VM, or it is being deleted, or no MAC address is to be applied
    and the desired mapping is empty or is what the resource holds. *)
Definition Settled (c : Cluster) (ns name : string) : Prop :=
  match vms c !! (ns, name) with
  | None => True
  | Some vm =>
      is_Some (VirtualMachine.DeletionTimestamp vm)
      ∨ (macUpdated vm = false
         ∧ (desiredMapping c vm = ∅
            ∨ ∃ o, vmnetcfgs c !! (ns, name) = Some o
                   ∧ VirtualMachineNetworkConfig.NetworkConfigs o = desiredSpec c vm))
  end.

(** The cluster as the VM update of the pass, if there is one and it
    succeeds, leaves it. *)
Definition afterMAC (vm : VirtualMachine.t) (c : Cluster) : Cluster :=
  if macUpdated vm then
    mkCluster
      (<[(VirtualMachine.Namespace (vmInHand vm), VirtualMachine.Name (vmInHand vm))
         := vmInHand vm]> (vms c))
      (vmnetcfgs c) (nads c) (ippools c) (faults c)
      (calls c ++ [CallVMUpdate (vmInHand vm)])
  else c.

(** The map [ncm] before the pool filter. *)
Definition unfilteredMapping (vm : VirtualMachine.t) : gmap string NetworkConfig.t :=
  removeIncomplete
    (attachNetworkNames (VirtualMachine.Networks vm)
       (seedNetworkConfigs (VirtualMachine.Interfaces vm))).

(** The network name resolves to a pool in the caches of the cluster, with
    the namespace [ns] as fallback. *)
Definition resolvesIn (c : Cluster) (ns networkName : string) : Prop :=
  is_Ok (GetIPPoolFromNetworkName (nads c) (ippools c) networkName ns) = true.

(** The store holds the per-VM resource of [ns/name], out of sync and with
    a spec other than the one the VM stored there asks for, and no MAC
    address is to be applied. *)
Definition Marked (c : Cluster) (ns name : string) : Prop :=
  ∃ vm o,
    vms c !! (ns, name) = Some vm
    ∧ VirtualMachine.DeletionTimestamp vm = None
    ∧ macUpdated vm = false
    ∧ desiredMapping c vm ≠ ∅
    ∧ vmnetcfgs c !! (ns, name) = Some o
    ∧ VirtualMachineNetworkConfig.NetworkConfigs o ≠ desiredSpec c vm
    ∧ Cond_IsFalse InSynced o = true.

End Code.

(** Two listings give the entries of the desired mapping of the VM [vm],
    once the MAC addresses of its annotation are applied, in the same
    order. *)
Definition sameListing `{Externals} (o o' : MapOrder) (c : Cluster)
  (vm : VirtualMachine.t) : Prop :=
  @rangeOrder o _ (desiredMapping c (vmInHand vm))
  = @rangeOrder o' _ (desiredMapping c (vmInHand vm)).

(* ===================================================================== *)
(** ** An instance of the library functions, and clusters to run on *)
(* ===================================================================== *)

(** White space of [strings.TrimSpace] below [utf8.RuneSelf]. *)
Definition isAsciiSpace (c : ascii) : bool :=
  match nat_of_ascii c with
  | 9 | 10 | 11 | 12 | 13 | 32 => true
  | _ => false
  end.

Fixpoint trimLeft (s : string) : string :=
  match s with
  | EmptyString => EmptyString
  | String c s' => if isAsciiSpace c then trimLeft s' else s
  end.

Fixpoint trimRight (s : string) : string :=
  match s with
  | EmptyString => EmptyString
  | String c s' =>
      let t := trimRight s' in
      if isAsciiSpace c && String.eqb t "" then EmptyString else String c t
  end.

Definition trimAsciiSpace (s : string) : string := trimRight (trimLeft s).

(** A decoder for JSON objects whose keys and values are strings without
    escapes: a scanner with one state per position in the grammar. *)
Inductive jstate :=
| JStart | JOpen | JKeyStart
| JKey (acc : string)
| JColon (key : string)
| JValueStart (key : string)
| JValue (key acc : string)
| JNext | JEnd.

Definition isJsonSpace (c : ascii) : bool :=
  match nat_of_ascii c with
  | 9 | 10 | 13 | 32 => true
  | _ => false
  end.

Definition dq : ascii := "034"%char.

Fixpoint decodeFlat (s : string) (st : jstate) (m : gmap string string)
  : option (gmap string string) :=
  match s with
  | EmptyString => match st with JEnd => Some m | _ => None end
  | String c s' =>
      match st with
      | JStart =>
          if isJsonSpace c then decodeFlat s' JStart m
          else if Ascii.eqb c "{"%char then decodeFlat s' JOpen m else None
      | JOpen =>
          if isJsonSpace c then decodeFlat s' JOpen m
          else if Ascii.eqb c dq then decodeFlat s' (JKey "") m
          else if Ascii.eqb c "}"%char then decodeFlat s' JEnd m else None
      | JKeyStart =>
          if isJsonSpace c then decodeFlat s' JKeyStart m
          else if Ascii.eqb c dq then decodeFlat s' (JKey "") m else None
      | JKey acc =>
          if Ascii.eqb c dq then decodeFlat s' (JColon acc) m
          else if Ascii.eqb c "\"%char then None
          else decodeFlat s' (JKey (acc +:+ String c "")) m
      | JColon k =>
          if isJsonSpace c then decodeFlat s' (JColon k) m
          else if Ascii.eqb c ":"%char then decodeFlat s' (JValueStart k) m else None
      | JValueStart k =>
          if isJsonSpace c then decodeFlat s' (JValueStart k) m
          else if Ascii.eqb c dq then decodeFlat s' (JValue k "") m else None
      | JValue k acc =>
          if Ascii.eqb c dq then decodeFlat s' JNext (<[k := acc]> m)
          else if Ascii.eqb c "\"%char then None
          else decodeFlat s' (JValue k (acc +:+ String c "")) m
      | JNext =>
          if isJsonSpace c then decodeFlat s' JNext m
          else if Ascii.eqb c ","%char then decodeFlat s' JKeyStart m
          else if Ascii.eqb c "}"%char then decodeFlat s' JEnd m else None
      | JEnd => if isJsonSpace c then decodeFlat s' JEnd m else None
      end
  end.

(** The instance the examples run with: ASCII white space is trimmed, the
    annotation is decoded by [decodeFlat], no IPv6 text is read, and the
    label keys are those of the pool pointer. *)
Definition goExamples : Externals := {|
  TrimSpace := trimAsciiSpace;
  json_Unmarshal s := decodeFlat s JStart ∅;
  parseIPv6 _ := None;
  IPPoolNamespaceLabelKey := "network.harvesterhci.io/ippool-namespace";
  IPPoolNameLabelKey := "network.harvesterhci.io/ippool-name";
|}.

(** Two listings: the entries in the order of [map_to_list], and in the
    opposite order. *)
Definition keyOrder : MapOrder := {|
  rangeOrder := λ V m, map_to_list m;
  rangeOrder_perm := λ V m, reflexivity (map_to_list m);
|}.

Definition reverseOrder : MapOrder := {|
  rangeOrder := λ V m, reverse (map_to_list m);
  rangeOrder_perm := λ V m, reverse_Permutation (map_to_list m);
|}.

(** [quoted s] is [s] between double quotes. *)
Definition quoted (s : string) : string := dquote +:+ s +:+ dquote.

(** A cluster with the pool [default/pool1], the interface definition
    [default/net1] that points to it, and [default/net2] without labels. *)
Definition noFaults : Op → option error := λ _, None.

Definition pool1 : IPPool.t := IPPool.Build "default" "pool1" "10.0.0.0/24".

Definition nad1 : NetworkAttachmentDefinition.t :=
  NetworkAttachmentDefinition.Build "default" "net1"
    (Some (<["network.harvesterhci.io/ippool-namespace" := "default"]>
             (<["network.harvesterhci.io/ippool-name" := "pool1"]> ∅))).

Definition nad2 : NetworkAttachmentDefinition.t :=
  NetworkAttachmentDefinition.Build "default" "net2" None.

Definition cluster0 : Cluster :=
  mkCluster ∅ ∅
    (<[("default", "net1") := nad1]> (<[("default", "net2") := nad2]> ∅))
    (<[("default", "pool1") := pool1]> ∅)
    noFaults [].

(** VMs: [vmA] with one interface on [net1]; [vmB] with a second one on
    [net2]; [vmC] whose interface lacks its MAC address, which the
    annotation supplies; [vmD], [vmA] without any network. *)
Definition vmA : VirtualMachine.t :=
  VirtualMachine.Build "default" "vm1" None ∅
    [Interface.Build "nic1" "aa:bb:cc:dd:ee:01"]
    [Network.Build "nic1" (Some (MultusNetwork.Build "default/net1"))].

Definition vmB : VirtualMachine.t :=
  VirtualMachine.Build "default" "vm1" None ∅
    [Interface.Build "nic1" "aa:bb:cc:dd:ee:01";
     Interface.Build "nic2" "aa:bb:cc:dd:ee:02"]
    [Network.Build "nic1" (Some (MultusNetwork.Build "default/net1"));
     Network.Build "nic2" (Some (MultusNetwork.Build "net2"))].

Definition vmC : VirtualMachine.t :=
  VirtualMachine.Build "default" "vm1" None
    (<[macAddressAnnotation :=
         "{" +:+ quoted "nic1" +:+ ":" +:+ quoted "aa:bb:cc:dd:ee:01" +:+ "}"]> ∅)
    [Interface.Build "nic1" ""]
    [Network.Build "nic1" (Some (MultusNetwork.Build "default/net1"))].

Definition vmD : VirtualMachine.t :=
  VirtualMachine.Build "default" "vm1" None ∅
    [Interface.Build "nic1" "aa:bb:cc:dd:ee:01"] [].

(** The per-VM resource of [vm1] with a spec that is not the one [vmA]
    asks for, and the in-sync condition [status]. *)
Definition staleNetCfg (status : string) : VirtualMachineNetworkConfig.t :=
  VirtualMachineNetworkConfig.Build "VirtualMachineNetworkConfig" "default" "vm1"
    [NetworkConfig.Build "default/net0" "aa:bb:cc:dd:ee:01"]
    (<[InSynced := Condition.Build status "" ""]> ∅).

Definition clusterWith (vm : VirtualMachine.t) (o : VirtualMachineNetworkConfig.t)
  : Cluster :=
  mkCluster (<[("default", "vm1") := vm]> ∅) (<[("default", "vm1") := o]> ∅)
    (nads cluster0) (ippools cluster0) noFaults [].

(** [vm1] with its resource believed in sync, and out of sync. *)
Definition clusterSynced : Cluster := clusterWith vmA (staleNetCfg ConditionTrue).
Definition clusterOutOfSync : Cluster := clusterWith vmA (staleNetCfg ConditionFalse).

(** [vmD], which asks for nothing, with the stale resource in either state. *)
Definition clusterEmptiedSynced : Cluster := clusterWith vmD (staleNetCfg ConditionTrue).
Definition clusterEmptiedOutOfSync : Cluster :=
  clusterWith vmD (staleNetCfg ConditionFalse).

(** A VM whose annotation is not JSON. *)
Definition vmE : VirtualMachine.t :=
  VirtualMachine.Build "default" "vm1" None
    (<[macAddressAnnotation := "nic1=aa:bb:cc:dd:ee:01"]> ∅)
    [Interface.Build "nic1" ""]
    [Network.Build "nic1" (Some (MultusNetwork.Build "default/net1"))].

(** A VM with two interfaces whose networks both have a pool: [net1] by
    its full name and by its bare name. *)
Definition vmF : VirtualMachine.t :=
  VirtualMachine.Build "default" "vm1" None ∅
    [Interface.Build "nic1" "aa:bb:cc:dd:ee:01";
     Interface.Build "nic2" "aa:bb:cc:dd:ee:02"]
    [Network.Build "nic1" (Some (MultusNetwork.Build "default/net1"));
     Network.Build "nic2" (Some (MultusNetwork.Build "net1"))].

(** The validator on the caches of [cluster0], and two create requests. *)
Definition validator0 : Validator := mkValidator (nads cluster0) (ippools cluster0).

Definition requestOk : VirtualMachineNetworkConfig.t :=
  VirtualMachineNetworkConfig.Build "VirtualMachineNetworkConfig" "default" "vm1"
    [NetworkConfig.Build "net1" "aa:bb:cc:dd:ee:01"] ∅.

Definition requestNoLabels : VirtualMachineNetworkConfig.t :=
  VirtualMachineNetworkConfig.Build "VirtualMachineNetworkConfig" "default" "vm1"
    [NetworkConfig.Build "net1" "aa:bb:cc:dd:ee:01";
     NetworkConfig.Build "default/net2" "aa:bb:cc:dd:ee:02"] ∅.

(* ===================================================================== *)
(** ** The rest of pkg/util/network.go *)
(* ===================================================================== *)

(** [corev1.Node], with the fields [GetServiceCIDRFromNode] reads;
    [Annotations] is a Go map that may be [nil]. *)
Module Node.
Record t := Build {
  Name : string;
  Annotations : option (gmap string string);
}.
End Node.

(** Modelled from the spec: [ipPool.Spec.IPv4Config] is declared outside
    the files at hand.  It holds the CIDR, the bounds of the usable range
    ([Pool.Start], [Pool.End]), the server address and the router address,
    all as text; an empty text is a field that is not set. *)
Module IPv4Config.
Record t := Build {
  CIDR : string;
  Pool_Start : string;
  Pool_End : string;
  ServerIP : string;
  Router : string;
}.
End IPv4Config.

(** [PoolInfo]; [None] is the [nil] network and the zero [netip.Addr]. *)
Module PoolInfo.
Record t := Build {
  IPNet : option IPNet;
  NetworkIPAddr : option Addr;
  BroadcastIPAddr : option Addr;
  StartIPAddr : option Addr;
  EndIPAddr : option Addr;
  ServerIPAddr : option Addr;
  RouterIPAddr : option Addr;
}.
End PoolInfo.

#[global] Instance Addr_eq_dec : EqDecision Addr.
Proof. solve_decision. Defined.

(** The constants of package [util] that these functions use
    ([NodeArgsAnnotationKey], [ServiceCIDRFlag], [ExcludedMark],
    [ReservedMark]) are declared outside the files at hand;
    [json.Unmarshal] into a [[]string] and the error [netip.ParseAddr]
    gives for a text it rejects belong to Go's standard library.  They are
    parameters. *)
Class UtilExternals := {
  NodeArgsAnnotationKey : string;
  ServiceCIDRFlag : string;
  ExcludedMark : string;
  ReservedMark : string;
  json_Unmarshal_list : string → result (list string);
  ParseAddr_error : string → error;
}.

(** The number a list of bytes stands for, most significant byte first. *)
Definition bytes_value (b : list Z) : Z := foldl (λ acc x, acc * 256 + x)%Z 0%Z b.

Definition Addr_Is6 (a : Addr) : bool :=
  match a with Addr4 _ => false | Addr6 _ _ => true end.

(** [Addr.Compare]: the bit length first, then the 128 bits of the address
    (the high and the low half in turn, which is the order of the numbers),
    then, for IPv6, the zone. *)
Definition Addr_Compare (ip ip2 : Addr) : Z :=
  let f1 := Addr_BitLen ip in
  let f2 := Addr_BitLen ip2 in
  if (f1 <? f2)%nat then (-1)%Z
  else if (f2 <? f1)%nat then 1%Z
  else
    let v1 := bytes_value (Addr_As16 ip) in
    let v2 := bytes_value (Addr_As16 ip2) in
    if (v1 <? v2)%Z then (-1)%Z
    else if (v2 <? v1)%Z then 1%Z
    else if Addr_Is6 ip then
      match String.compare (Addr_Zone ip) (Addr_Zone ip2) with
      | Lt => (-1)%Z
      | Gt => 1%Z
      | Eq => 0%Z
      end
    else 0%Z.

Fixpoint IsIPAddrInList (ipAddr : Addr) (ipAddrList : list Addr) : bool :=
  match ipAddrList with
  | [] => false
  | x :: rest => if bool_decide (ipAddr = x) then true else IsIPAddrInList ipAddr rest
  end.

Section Util.
Context `{Externals} `{UtilExternals} `{MapOrder}.

(** The loop of [GetServiceCIDRFromNode]: one more than the index of the
    first argument that is the flag, [0] when there is none; [i] is the
    index of the head of [argList]. *)
Fixpoint serviceCIDRIndex_loop (argList : list string) (i : nat) : nat :=
  match argList with
  | [] => 0
  | val :: rest =>
      if String.eqb val ServiceCIDRFlag then i + 1
      else serviceCIDRIndex_loop rest (S i)
  end.

Definition GetServiceCIDRFromNode (node : Node.t) : result string :=
  match Node.Annotations node with
  | None => Err (Errorf ("service CIDR not found for node " +:+ Node.Name node))
  | Some annotations =>
      match annotations !! NodeArgsAnnotationKey with
      | None =>
          Err (Errorf ("annotation " +:+ NodeArgsAnnotationKey
                       +:+ " not found for node " +:+ Node.Name node))
      | Some nodeArgs =>
          match json_Unmarshal_list nodeArgs with
          | Err err => Err err
          | Ok argList =>
              let serviceCIDRIndex := serviceCIDRIndex_loop argList 0 in
              if Nat.eqb serviceCIDRIndex 0
                 || (length argList <=? serviceCIDRIndex)%nat
              then Err (Errorf ("serviceCIDR not found for node " +:+ Node.Name node))
              else Ok (nth serviceCIDRIndex argList EmptyString)
          end
      end
  end.

(** One of the four blocks of [LoadPool]: a field that is set is parsed,
    and the zero address is left where it is not. *)
Definition parseIfSet (s : string) : option Addr * option error :=
  if String.eqb s "" then (None, None)
  else
    match ParseAddr s with
    | Some a => (Some a, None)
    | None => (None, Some (ParseAddr_error s))
    end.

(** The fields of the configuration that [LoadPool] parses after the CIDR,
    in the order in which it does. *)
Definition addressFields (cfg : IPv4Config.t) : list string :=
  [IPv4Config.Pool_Start cfg; IPv4Config.Pool_End cfg;
   IPv4Config.ServerIP cfg; IPv4Config.Router cfg].

(** [LoadPool]: the pool information as far as it was filled in, and the
    error.  [LoadCIDR] fails only with the parse error of [net.ParseCIDR],
    next to which it returns no network and zero addresses. *)
Definition LoadPool (cfg : IPv4Config.t) : PoolInfo.t * option error :=
  match LoadCIDR (IPv4Config.CIDR cfg) with
  | Err err => (PoolInfo.Build None None None None None None None, Some err)
  | Ok (ipNet, networkIPAddr, broadcastIPAddr) =>
      let '(startIPAddr, err) := parseIfSet (IPv4Config.Pool_Start cfg) in
      match err with
      | Some err =>
          (PoolInfo.Build (Some ipNet) (Some networkIPAddr) (Some broadcastIPAddr)
             startIPAddr None None None, Some err)
      | None =>
          let '(endIPAddr, err) := parseIfSet (IPv4Config.Pool_End cfg) in
          match err with
          | Some err =>
              (PoolInfo.Build (Some ipNet) (Some networkIPAddr) (Some broadcastIPAddr)
                 startIPAddr endIPAddr None None, Some err)
          | None =>
              let '(serverIPAddr, err) := parseIfSet (IPv4Config.ServerIP cfg) in
              match err with
              | Some err =>
                  (PoolInfo.Build (Some ipNet) (Some networkIPAddr)
                     (Some broadcastIPAddr) startIPAddr endIPAddr serverIPAddr None,
                   Some err)
              | None =>
                  let '(routerIPAddr, err) := parseIfSet (IPv4Config.Router cfg) in
                  (PoolInfo.Build (Some ipNet) (Some networkIPAddr)
                     (Some broadcastIPAddr) startIPAddr endIPAddr serverIPAddr
                     routerIPAddr, err)
              end
          end
      end
  end.

(** [LoadAllocated] over the entries of the map in the order in which the
    [range] statement visits them, which Go leaves open. *)
Definition LoadAllocated_step (acc : list Addr * list Addr * list Addr)
  (entry : string * string) : list Addr * list Addr * list Addr :=
  let '(allocatedList, excludedList, reservedList) := acc in
  match ParseAddr entry.1 with
  | None => acc
  | Some ipAddr =>
      if String.eqb entry.2 ExcludedMark
      then (allocatedList, excludedList ++ [ipAddr], reservedList)
      else if String.eqb entry.2 ReservedMark
      then (allocatedList, excludedList, reservedList ++ [ipAddr])
      else (allocatedList ++ [ipAddr], excludedList, reservedList)
  end.

Definition LoadAllocated_range (entries : list (string * string))
  : list Addr * list Addr * list Addr :=
  foldl LoadAllocated_step ([], [], []) entries.

(** [LoadAllocated] with the map visited in the order of the listing. *)
Definition LoadAllocated (allocated : gmap string string)
  : list Addr * list Addr * list Addr :=
  LoadAllocated_range (rangeOrder allocated).

Definition IsIPInBetweenOf (ip ip1 ip2 : string) : bool :=
  match ParseAddr ip with
  | None => false
  | Some ipAddr =>
      match ParseAddr ip1 with
      | None => false
      | Some ip1Addr =>
          match ParseAddr ip2 with
          | None => false
          | Some ip2Addr =>
              (0 <=? Addr_Compare ipAddr ip1Addr)%Z
              && (Addr_Compare ipAddr ip2Addr <=? 0)%Z
          end
      end
  end.

End Util.

(** A decoder for JSON arrays of strings without escapes, in the manner of
    [decodeFlat]. *)
Inductive lstate :=
| LStart | LOpen | LItemStart
| LItem (acc : string)
| LNext | LEnd.

Fixpoint decodeList (s : string) (st : lstate) (l : list string)
  : option (list string) :=
  match s with
  | EmptyString => match st with LEnd => Some l | _ => None end
  | String c s' =>
      match st with
      | LStart =>
          if isJsonSpace c then decodeList s' LStart l
          else if Ascii.eqb c "["%char then decodeList s' LOpen l else None
      | LOpen =>
          if isJsonSpace c then decodeList s' LOpen l
          else if Ascii.eqb c dq then decodeList s' (LItem "") l
          else if Ascii.eqb c "]"%char then decodeList s' LEnd l else None
      | LItemStart =>
          if isJsonSpace c then decodeList s' LItemStart l
          else if Ascii.eqb c dq then decodeList s' (LItem "") l else None
      | LItem acc =>
          if Ascii.eqb c dq then decodeList s' LNext (l ++ [acc])
          else if Ascii.eqb c "\"%char then None
          else decodeList s' (LItem (acc +:+ String c "")) l
      | LNext =>
          if isJsonSpace c then decodeList s' LNext l
          else if Ascii.eqb c ","%char then decodeList s' LItemStart l
          else if Ascii.eqb c "]"%char then decodeList s' LEnd l else None
      | LEnd => if isJsonSpace c then decodeList s' LEnd l else None
      end
  end.

(** The instance the examples run with: the constants as package [util]
    has them for RKE2 nodes and for the marks of the allocation map, and
    the list of node arguments decoded by [decodeList]. *)
Definition goUtilExamples : UtilExternals := {|
  NodeArgsAnnotationKey := "rke2.io/node-args";
  ServiceCIDRFlag := "--service-cidr";
  ExcludedMark := "EXCLUDED";
  ReservedMark := "RESERVED";
  json_Unmarshal_list s :=
    match decodeList s LStart [] with
    | Some l => Ok l
    | None => Err (Errorf "invalid character")
    end;
  ParseAddr_error s := Errorf ("ParseAddr(" +:+ quoted s +:+ "): unable to parse IP");
|}.

(** A node with its arguments in the annotation, a pool configuration, an
    allocation map with one key that is no address, and [vmA] on a store
    whose cache fails. *)
Definition node1 : Node.t :=
  Node.Build "node1"
    (Some (<["rke2.io/node-args" :=
               "[" +:+ quoted "--cluster-cidr" +:+ "," +:+ quoted "10.52.0.0/16"
               +:+ "," +:+ quoted "--service-cidr" +:+ "," +:+ quoted "10.53.0.0/16"
               +:+ "]"]> ∅)).

Definition poolConfig1 : IPv4Config.t :=
  IPv4Config.Build "10.0.0.0/24" "10.0.0.10" "10.0.0.20" "10.0.0.2" "".

Definition allocated1 : gmap string string :=
  <["10.0.0.1" := "EXCLUDED"]>
    (<["10.0.0.2" := "RESERVED"]>
       (<["10.0.0.3" := "aa:bb:cc:dd:ee:01"]> (<["bogus" := "EXCLUDED"]> ∅))).

Definition clusterGetFails : Cluster :=
  mkCluster (<[("default", "vm1") := vmA]> ∅) ∅ (nads cluster0) (ippools cluster0)
    (λ op, match op with OpGet => Some (Errorf "timeout") | _ => None end) [].

(* ===================================================================== *)
(** ** Properties *)
(* ===================================================================== *)

(** *** Splitting at the first separator *)

Lemma SplitN2_no_sep s sep : contains sep s = false → SplitN2 s sep = [s].
Proof.
  induction s as [|c s IH]; simpl; [done|].
  intros [Hc Hs]%orb_false_iff. rewrite Hc, (IH Hs). done.
Qed.

Lemma SplitN2_first_sep p q sep :
  contains sep p = false → SplitN2 (p +:+ String sep q) sep = [p; q].
Proof.
  induction p as [|c p IH]; simpl.
  - by rewrite Ascii.eqb_refl.
  - intros [Hc Hp]%orb_false_iff. rewrite Hc, (IH Hp). done.
Qed.

Section Properties.
Context `{Externals} `{MapOrder}.

Lemma RSplit_no_sep s sep :
  contains sep s = false → RSplit s sep = ("", TrimSpace s).
Proof. intros Hs. unfold RSplit. by rewrite (SplitN2_no_sep _ _ Hs). Qed.

Lemma RSplit_first_sep p q sep :
  contains sep p = false →
  RSplit (p +:+ String sep q) sep = (TrimSpace p, TrimSpace q).
Proof. intros Hp. unfold RSplit. by rewrite (SplitN2_first_sep _ _ _ Hp). Qed.

(* --------------------------------------------------------------------- *)
(** *** The network resolver *)
(* --------------------------------------------------------------------- *)

(** C6, as amended.  For a network name [p/q] in which [p] has no slash,
    that is, split at its first slash, the interface definition is looked
    up under the name [q], which may have slashes of its own, and under the
    namespace [p], both with [kv.RSplit]'s white-space trimming, unless the
    trimmed [p] is empty: then, as for a name without a slash, the fallback
    namespace is used as it is.  An empty fallback with a bare name gives
    the empty namespace.  The lookup of the interface definition reads the
    cache under that key and no other. *)
Theorem nadLookupKey_namespace (name fallback : string) :
  (∀ p q, name = p +:+ "/" +:+ q → contains "/" p = false →
     nadLookupKey name fallback =
       (if String.eqb (TrimSpace p) "" then fallback else TrimSpace p,
        TrimSpace q))
  ∧ (contains "/" name = false →
     nadLookupKey name fallback = (fallback, TrimSpace name))
  ∧ (contains "/" name = false → fallback = "" →
     (nadLookupKey name fallback).1 = "")
  ∧ (∀ nadCache nadCache' ippoolCache,
       nadCache !! nadLookupKey name fallback = nadCache' !! nadLookupKey name fallback →
       GetIPPoolFromNetworkName nadCache ippoolCache name fallback
       = GetIPPoolFromNetworkName nadCache' ippoolCache name fallback).
Proof.
  repeat split.
  - intros p q -> Hp. unfold nadLookupKey.
    change (p +:+ "/" +:+ q) with (p +:+ String "/" q).
    by rewrite (RSplit_first_sep _ _ _ Hp).
  - intros Hn. unfold nadLookupKey. by rewrite (RSplit_no_sep _ _ Hn).
  - intros Hn ->. unfold nadLookupKey. by rewrite (RSplit_no_sep _ _ Hn).
  - intros nc nc' ic Heq. unfold GetIPPoolFromNetworkName.
    destruct (nadLookupKey name fallback) as [ns n].
    unfold nadCache_Get. by rewrite Heq.
Qed.

(** Which names have a first slash: every name with a slash splits in one
    way into [p/q] with [p] free of slashes. *)
Lemma first_slash_exists (name : string) :
  contains "/" name = true →
  ∃ p q, name = p +:+ "/" +:+ q ∧ contains "/" p = false.
Proof.
  induction name as [|c s IH]; simpl; [done|].
  destruct (Ascii.eqb c "/") eqn:Hc.
  - intros _. apply Ascii.eqb_eq in Hc as ->. by exists "", s.
  - simpl. intros Hs. destruct (IH Hs) as (p & q & -> & Hp).
    exists (String c p), q. split; [done|]. simpl. by rewrite Hc.
Qed.

(** C7, as amended.  The resolver fails with a NotFound error when the
    interface definition is absent under its lookup key; when its label map
    is nil it fails with an error that says the definition has no labels
    and names no key; when the map lacks the pool-namespace key, or else
    the pool-name key, it fails with an error that ends in that key; none
    of these three is a NotFound error.  It fails with a NotFound error
    when the labelled pool is absent, and otherwise returns the pool as the
    cache holds it. *)
Theorem GetIPPoolFromNetworkName_outcomes
  (nadCache : gmap objkey NetworkAttachmentDefinition.t)
  (ippoolCache : gmap objkey IPPool.t) (name fallback : string) :
  let key := nadLookupKey name fallback in
  let r := GetIPPoolFromNetworkName nadCache ippoolCache name fallback in
  match nadCache !! key with
  | None => ∃ e, r = Err e ∧ IsNotFound e = true
  | Some nad =>
      match NetworkAttachmentDefinition.Labels nad with
      | None =>
          ∃ e, r = Err e ∧ IsNotFound e = false
               ∧ Error e = "network attachment definition " +:+ key.1 +:+ "/"
                           +:+ key.2 +:+ " has no labels"
      | Some labels =>
          match labels !! IPPoolNamespaceLabelKey with
          | None =>
              ∃ e, r = Err e ∧ IsNotFound e = false
                   ∧ Error e = "network attachment definition " +:+ key.1 +:+ "/"
                               +:+ key.2 +:+ " has no label "
                               +:+ IPPoolNamespaceLabelKey
          | Some ipPoolNamespace =>
              match labels !! IPPoolNameLabelKey with
              | None =>
                  ∃ e, r = Err e ∧ IsNotFound e = false
                       ∧ Error e = "network attachment definition " +:+ key.1
                                   +:+ "/" +:+ key.2 +:+ " has no label "
                                   +:+ IPPoolNameLabelKey
              | Some ipPoolName =>
                  match ippoolCache !! (ipPoolNamespace, ipPoolName) with
                  | None => ∃ e, r = Err e ∧ IsNotFound e = true
                  | Some ipPool => r = Ok ipPool
                  end
              end
          end
      end
  end.
Proof.
  cbv zeta. unfold GetIPPoolFromNetworkName, nadCache_Get, ippoolCache_Get.
  destruct (nadLookupKey name fallback) as [ns n]. simpl.
  destruct (nadCache !! (ns, n)) as [nad|]; [|by eexists].
  destruct (NetworkAttachmentDefinition.Labels nad) as [labels|];
    [|eexists; repeat split; reflexivity].
  destruct (labels !! IPPoolNamespaceLabelKey) as [pns|];
    [|eexists; repeat split; reflexivity].
  destruct (labels !! IPPoolNameLabelKey) as [pn|];
    [|eexists; repeat split; reflexivity].
  destruct (ippoolCache !! (pns, pn)); [done|by eexists].
Qed.

(** The resolver succeeds exactly when the chain of lookups does. *)
Lemma GetIPPoolFromNetworkName_Ok nadCache ippoolCache name fallback ipPool :
  GetIPPoolFromNetworkName nadCache ippoolCache name fallback = Ok ipPool ↔
  ∃ nad labels pns pn,
    nadCache !! nadLookupKey name fallback = Some nad
    ∧ NetworkAttachmentDefinition.Labels nad = Some labels
    ∧ labels !! IPPoolNamespaceLabelKey = Some pns
    ∧ labels !! IPPoolNameLabelKey = Some pn
    ∧ ippoolCache !! (pns, pn) = Some ipPool.
Proof.
  unfold GetIPPoolFromNetworkName, nadCache_Get, ippoolCache_Get.
  destruct (nadLookupKey name fallback) as [ns n].
  split.
  - destruct (nadCache !! (ns, n)) as [nad|]; [|done].
    destruct (NetworkAttachmentDefinition.Labels nad) as [labels|] eqn:Hl; [|done].
    destruct (labels !! IPPoolNamespaceLabelKey) as [pns|] eqn:H1; [|done].
    destruct (labels !! IPPoolNameLabelKey) as [pn|] eqn:H2; [|done].
    destruct (ippoolCache !! (pns, pn)) eqn:H3; [|done].
    intros [= <-]. by exists nad, labels, pns, pn.
  - intros (nad & labels & pns & pn & -> & -> & -> & -> & ->). done.
Qed.

(* --------------------------------------------------------------------- *)
(** *** The admission validator *)
(* --------------------------------------------------------------------- *)

Lemma Create_loop_accepts v o ncs :
  Forall (resolvesFor v (VirtualMachineNetworkConfig.Namespace o)) ncs →
  Create_loop v o ncs = None.
Proof.
  induction 1 as [|nc ncs Hnc _ IH]; simpl; [done|].
  unfold resolvesFor in Hnc.
  by destruct (GetIPPoolFromNetworkName _ _ _ _).
Qed.

Lemma Create_loop_rejects v o ok nc rest cause :
  Forall (resolvesFor v (VirtualMachineNetworkConfig.Namespace o)) ok →
  GetIPPoolFromNetworkName (nadCache v) (ippoolCache v)
    (NetworkConfig.NetworkName nc) (VirtualMachineNetworkConfig.Namespace o)
  = Err cause →
  Create_loop v o (ok ++ nc :: rest)
  = Some (CreateErr (VirtualMachineNetworkConfig.Kind o)
            (VirtualMachineNetworkConfig.Namespace o)
            (VirtualMachineNetworkConfig.Name o) cause).
Proof.
  intros Hok Hnc. induction Hok as [|x ok Hx _ IH]; simpl.
  - by rewrite Hnc.
  - unfold resolvesFor in Hx. by destruct (GetIPPoolFromNetworkName _ _ (_ x) _).
Qed.

Lemma first_unresolved v ns ncs :
  ¬ Forall (resolvesFor v ns) ncs →
  ∃ ok nc rest, ncs = (ok ++ nc :: rest)%list
                ∧ Forall (resolvesFor v ns) ok ∧ ¬ resolvesFor v ns nc.
Proof.
  induction ncs as [|x ncs IH]; intros Hn.
  - destruct Hn. constructor.
  - destruct (decide (resolvesFor v ns x)) as [Hx|Hx].
    + destruct IH as (ok & nc & rest & -> & Hok & Hnc).
      { intros Hall. apply Hn. by constructor. }
      exists (x :: ok), nc, rest. repeat split; [by constructor|done].
    + exists [], x, ncs. repeat split; [constructor|done].
Qed.

(** C9.  [Validator.Create] resolves the network references of the incoming
    spec in order, with the resource's own namespace as fallback.  When all
    resolve (none at all included) the create is accepted.  When one does
    not, the create is rejected with the error built from the resource's
    kind, namespace and name and the resolver's error for the first
    reference that fails, which the rejection wraps. *)
Theorem Validator_Create_spec (v : Validator) (newObj : VirtualMachineNetworkConfig.t) :
  let ns := VirtualMachineNetworkConfig.Namespace newObj in
  let ncs := VirtualMachineNetworkConfig.NetworkConfigs newObj in
  (Forall (resolvesFor v ns) ncs ↔ Validator_Create v newObj = None)
  ∧ (ncs = [] → Validator_Create v newObj = None)
  ∧ (¬ Forall (resolvesFor v ns) ncs →
     ∃ ok nc rest cause,
       ncs = (ok ++ nc :: rest)%list
       ∧ Forall (resolvesFor v ns) ok
       ∧ GetIPPoolFromNetworkName (nadCache v) (ippoolCache v)
           (NetworkConfig.NetworkName nc) ns = Err cause
       ∧ Validator_Create v newObj
         = Some (CreateErr (VirtualMachineNetworkConfig.Kind newObj) ns
                   (VirtualMachineNetworkConfig.Name newObj) cause)
       ∧ Error (CreateErr (VirtualMachineNetworkConfig.Kind newObj) ns
                  (VirtualMachineNetworkConfig.Name newObj) cause)
         = "could not create " +:+ VirtualMachineNetworkConfig.Kind newObj +:+ " "
           +:+ ns +:+ "/" +:+ VirtualMachineNetworkConfig.Name newObj
           +:+ " because " +:+ Error cause).
Proof.
  cbv zeta. unfold Validator_Create.
  assert (Hrej : ¬ Forall (resolvesFor v (VirtualMachineNetworkConfig.Namespace newObj))
                   (VirtualMachineNetworkConfig.NetworkConfigs newObj) →
    ∃ ok nc rest cause,
      VirtualMachineNetworkConfig.NetworkConfigs newObj = (ok ++ nc :: rest)%list
      ∧ Forall (resolvesFor v (VirtualMachineNetworkConfig.Namespace newObj)) ok
      ∧ GetIPPoolFromNetworkName (nadCache v) (ippoolCache v)
          (NetworkConfig.NetworkName nc)
          (VirtualMachineNetworkConfig.Namespace newObj) = Err cause
      ∧ Create_loop v newObj (VirtualMachineNetworkConfig.NetworkConfigs newObj)
        = Some (CreateErr (VirtualMachineNetworkConfig.Kind newObj)
                  (VirtualMachineNetworkConfig.Namespace newObj)
                  (VirtualMachineNetworkConfig.Name newObj) cause)).
  { intros Hn. destruct (first_unresolved _ _ _ Hn) as (ok & nc & rest & Heq & Hok & Hnc).
    unfold resolvesFor in Hnc.
    destruct (GetIPPoolFromNetworkName (nadCache v) (ippoolCache v)
                (NetworkConfig.NetworkName nc)
                (VirtualMachineNetworkConfig.Namespace newObj)) as [?|cause] eqn:Hr;
      [done|].
    exists ok, nc, rest, cause. repeat split; [done..|].
    rewrite Heq. by apply Create_loop_rejects. }
  repeat split.
  - apply Create_loop_accepts.
  - intros Hnone.
    destruct (decide (Forall (resolvesFor v (VirtualMachineNetworkConfig.Namespace newObj))
                        (VirtualMachineNetworkConfig.NetworkConfigs newObj)))
      as [|Hn]; [done|].
    destruct (Hrej Hn) as (? & ? & ? & ? & _ & _ & _ & Hsome). congruence.
  - by intros ->.
  - intros Hn. destruct (Hrej Hn) as (ok & nc & rest & cause & ? & ? & ? & ?).
    exists ok, nc, rest, cause. done.
Qed.

(* --------------------------------------------------------------------- *)
(** *** The MAC-override annotation *)
(* --------------------------------------------------------------------- *)

Lemma with_Interfaces_id vm : with_Interfaces vm (VirtualMachine.Interfaces vm) = vm.
Proof. by destruct vm. Qed.

Lemma applyMAC_unchanged macs nic :
  (applyMAC macs nic).2 = false → (applyMAC macs nic).1 = nic.
Proof.
  unfold applyMAC. destruct (negb _); [done|].
  destruct (macs !! _) as [mac|]; [|done]. by destruct (negb _).
Qed.

Lemma applyMAC_idem macs nic : (applyMAC macs (applyMAC macs nic).1).2 = false.
Proof.
  unfold applyMAC at 2.
  destruct (negb (String.eqb (Interface.MacAddress nic) "")) eqn:Hm.
  - unfold applyMAC. simpl. by rewrite Hm.
  - destruct (macs !! Interface.Name nic) as [mac|] eqn:Hl.
    + destruct (negb (String.eqb mac "")) eqn:Hmac; unfold applyMAC; simpl.
      * by rewrite Hmac.
      * by rewrite Hm, Hl, Hmac.
    + unfold applyMAC. simpl. by rewrite Hm, Hl.
Qed.

Lemma applyMACs_unchanged macs nics :
  (applyMACs macs nics).2 = false → (applyMACs macs nics).1 = nics.
Proof.
  induction nics as [|nic nics IH]; simpl; [done|].
  pose proof (applyMAC_unchanged macs nic) as Hn.
  destruct (applyMAC macs nic) as [nic' u], (applyMACs macs nics) as [rest u'].
  simpl in *. intros [-> ->]%orb_false_iff. by rewrite Hn, IH.
Qed.

Lemma applyMACs_idem macs nics : (applyMACs macs (applyMACs macs nics).1).2 = false.
Proof.
  induction nics as [|nic nics IH]; simpl; [done|].
  pose proof (applyMAC_idem macs nic) as Hn.
  destruct (applyMAC macs nic) as [nic' u], (applyMACs macs nics) as [rest u'].
  simpl in *.
  destruct (applyMAC macs nic') as [nic'' u2], (applyMACs macs rest) as [rest' u3].
  simpl in *. by rewrite Hn, IH.
Qed.

Lemma applyMACs_updates macs nics nic mac :
  nic ∈ nics → Interface.MacAddress nic = "" →
  macs !! Interface.Name nic = Some mac → mac ≠ "" →
  (applyMACs macs nics).2 = true.
Proof.
  intros Hin Hm Hl Hmac. induction Hin as [nic nics|nic x nics _ IH]; simpl.
  - unfold applyMAC. rewrite Hm, Hl. simpl.
    apply String.eqb_neq in Hmac. rewrite Hmac. simpl.
    by destruct (applyMACs macs nics).
  - destruct (applyMAC macs x) as [x' u], (applyMACs macs nics) as [rest u'].
    simpl in *. rewrite IH by done. apply orb_true_r.
Qed.

Lemma applyMACAddressAnnotation_nil_error vm : (applyMACAddressAnnotation vm).2 = None.
Proof.
  unfold applyMACAddressAnnotation.
  destruct (_ !! _) as [ann|]; [|done].
  destruct (String.eqb ann ""); [done|].
  destruct (json_Unmarshal ann) as [macs|]; [|done].
  destruct (Nat.eqb _ 0); [done|]. by destruct (applyMACs _ _).
Qed.

Lemma vmInHand_not_updated vm : macUpdated vm = false → vmInHand vm = vm.
Proof.
  unfold macUpdated, vmInHand, applyMACAddressAnnotation.
  destruct (_ !! _) as [ann|]; [|done].
  destruct (String.eqb ann ""); [done|].
  destruct (json_Unmarshal ann) as [macs|]; [|done].
  destruct (Nat.eqb _ 0); [done|].
  pose proof (applyMACs_unchanged macs (VirtualMachine.Interfaces vm)) as Hu.
  destruct (applyMACs _ _) as [nics u]. simpl in *.
  intros ->. rewrite Hu by done. apply with_Interfaces_id.
Qed.

Lemma vmInHand_meta vm :
  VirtualMachine.Namespace (vmInHand vm) = VirtualMachine.Namespace vm
  ∧ VirtualMachine.Name (vmInHand vm) = VirtualMachine.Name vm
  ∧ VirtualMachine.DeletionTimestamp (vmInHand vm) = VirtualMachine.DeletionTimestamp vm
  ∧ VirtualMachine.Annotations (vmInHand vm) = VirtualMachine.Annotations vm
  ∧ VirtualMachine.Networks (vmInHand vm) = VirtualMachine.Networks vm.
Proof.
  unfold vmInHand, applyMACAddressAnnotation.
  destruct (_ !! _) as [ann|]; [|done].
  destruct (String.eqb ann ""); [done|].
  destruct (json_Unmarshal ann) as [macs|]; [|done].
  destruct (Nat.eqb _ 0); [done|]. by destruct (applyMACs _ _).
Qed.

Lemma macUpdated_vmInHand vm : macUpdated (vmInHand vm) = false.
Proof.
  unfold macUpdated at 1. unfold applyMACAddressAnnotation at 1.
  destruct (vmInHand_meta vm) as (_ & _ & _ & -> & _).
  unfold vmInHand, applyMACAddressAnnotation.
  destruct (_ !! _) as [ann|]; [|done].
  destruct (String.eqb ann ""); [done|].
  destruct (json_Unmarshal ann) as [macs|]; [|done].
  destruct (Nat.eqb _ 0); [done|].
  pose proof (applyMACs_idem macs (VirtualMachine.Interfaces vm)) as Hi.
  destruct (applyMACs macs (VirtualMachine.Interfaces vm)) as [nics u]. simpl in *.
  destruct (applyMACs macs nics). done.
Qed.

(* --------------------------------------------------------------------- *)
(** *** The four ways through the end of [OnChange] *)
(* --------------------------------------------------------------------- *)

Lemma markOutOfSync_Conditions o :
  VirtualMachineNetworkConfig.Conditions (markOutOfSync o)
  = <[InSynced := outOfSyncCondition]> (VirtualMachineNetworkConfig.Conditions o).
Proof.
  unfold markOutOfSync, Cond_Message, Cond_Reason, Cond_SetStatus, setCond,
    findOrCreateCond. simpl.
  rewrite !lookup_insert_eq. simpl. by rewrite !insert_insert_eq.
Qed.

Lemma markOutOfSync_meta o :
  VirtualMachineNetworkConfig.Kind (markOutOfSync o) = VirtualMachineNetworkConfig.Kind o
  ∧ VirtualMachineNetworkConfig.Namespace (markOutOfSync o)
    = VirtualMachineNetworkConfig.Namespace o
  ∧ VirtualMachineNetworkConfig.Name (markOutOfSync o) = VirtualMachineNetworkConfig.Name o
  ∧ VirtualMachineNetworkConfig.NetworkConfigs (markOutOfSync o)
    = VirtualMachineNetworkConfig.NetworkConfigs o.
Proof. done. Qed.

Lemma syncVmNetCfg_create key vm ncm c :
  NoFaults c →
  vmnetcfgs c !! (VirtualMachine.Namespace vm, VirtualMachine.Name vm) = None →
  syncVmNetCfg key vm ncm c
  = (Some vm, None,
     mkCluster (vms c)
       (<[(VirtualMachine.Namespace vm, VirtualMachine.Name vm)
          := prepareVmNetCfg vm ncm]> (vmnetcfgs c))
       (nads c) (ippools c) (faults c)
       (calls c ++ [CallCreate (prepareVmNetCfg vm ncm)])).
Proof.
  intros Hnf Hno.
  unfold syncVmNetCfg, bind, vmnetcfgCache_Get, vmnetcfgClient_Create, bind, record, ret.
  rewrite (Hnf OpGet), Hno. cbn -[prepareVmNetCfg].
  rewrite (Hnf OpCreate). cbn. by rewrite Hno.
Qed.

Lemma syncVmNetCfg_same key vm ncm c old :
  faults c OpGet = None →
  vmnetcfgs c !! (VirtualMachine.Namespace vm, VirtualMachine.Name vm) = Some old →
  VirtualMachineNetworkConfig.NetworkConfigs old = (rangeOrder ncm).*2 →
  syncVmNetCfg key vm ncm c = (Some vm, None, c).
Proof.
  intros Hnf Hold Hspec.
  unfold syncVmNetCfg, bind, vmnetcfgCache_Get, ret.
  rewrite Hnf, Hold. cbn. rewrite Hspec.
  by rewrite bool_decide_eq_true_2.
Qed.

Lemma syncVmNetCfg_update key vm ncm c old :
  NoFaults c →
  vmnetcfgs c !! (VirtualMachine.Namespace vm, VirtualMachine.Name vm) = Some old →
  (VirtualMachineNetworkConfig.Namespace old, VirtualMachineNetworkConfig.Name old)
  = (VirtualMachine.Namespace vm, VirtualMachine.Name vm) →
  VirtualMachineNetworkConfig.NetworkConfigs old ≠ (rangeOrder ncm).*2 →
  Cond_IsFalse InSynced old = true →
  syncVmNetCfg key vm ncm c
  = (Some vm, None,
     mkCluster (vms c)
       (<[(VirtualMachine.Namespace vm, VirtualMachine.Name vm)
          := with_NetworkConfigs old ((rangeOrder ncm).*2)]> (vmnetcfgs c))
       (nads c) (ippools c) (faults c)
       (calls c ++ [CallUpdate (with_NetworkConfigs old ((rangeOrder ncm).*2))])).
Proof.
  intros Hnf Hold Hkey Hspec Hfalse.
  unfold syncVmNetCfg, bind, vmnetcfgCache_Get, vmnetcfgClient_Update, bind, record, ret.
  rewrite (Hnf OpGet), Hold. cbn.
  rewrite bool_decide_eq_false_2 by congruence. cbn.
  rewrite Hfalse, (Hnf OpUpdate), Hkey, Hold. reflexivity.
Qed.

Lemma syncVmNetCfg_mark key vm ncm c old :
  NoFaults c →
  vmnetcfgs c !! (VirtualMachine.Namespace vm, VirtualMachine.Name vm) = Some old →
  (VirtualMachineNetworkConfig.Namespace old, VirtualMachineNetworkConfig.Name old)
  = (VirtualMachine.Namespace vm, VirtualMachine.Name vm) →
  VirtualMachineNetworkConfig.NetworkConfigs old ≠ (rangeOrder ncm).*2 →
  Cond_IsFalse InSynced old = false →
  syncVmNetCfg key vm ncm c
  = (Some vm, None,
     mkCluster (vms c)
       (<[(VirtualMachine.Namespace vm, VirtualMachine.Name vm)
          := VirtualMachineNetworkConfig.Build
               (VirtualMachineNetworkConfig.Kind old)
               (VirtualMachineNetworkConfig.Namespace old)
               (VirtualMachineNetworkConfig.Name old)
               (VirtualMachineNetworkConfig.NetworkConfigs old)
               (<[InSynced := outOfSyncCondition]>
                  (VirtualMachineNetworkConfig.Conditions old))]> (vmnetcfgs c))
       (nads c) (ippools c) (faults c)
       (calls c
        ++ [CallUpdateStatus
              (markOutOfSync (with_NetworkConfigs old ((rangeOrder ncm).*2)));
            CallEnqueue (VirtualMachine.Namespace vm) (VirtualMachine.Name vm)])).
Proof.
  intros Hnf Hold Hkey Hspec Hfalse.
  unfold syncVmNetCfg, bind, vmnetcfgCache_Get, vmnetcfgClient_UpdateStatus,
    vmController_Enqueue, bind, record, ret.
  rewrite (Hnf OpGet), Hold. cbn -[markOutOfSync Cond_Message].
  rewrite bool_decide_eq_false_2 by congruence. cbn -[markOutOfSync Cond_Message].
  rewrite Hfalse.
  change (Cond_Message InSynced _ _)
    with (markOutOfSync (with_NetworkConfigs old ((rangeOrder ncm).*2))).
  rewrite (Hnf OpUpdateStatus).
  destruct (markOutOfSync_meta (with_NetworkConfigs old ((rangeOrder ncm).*2)))
    as (_ & -> & -> & _).
  rewrite markOutOfSync_Conditions. cbn -[markOutOfSync].
  rewrite Hkey, Hold. cbn -[markOutOfSync].
  by rewrite <- app_assoc.
Qed.

(* --------------------------------------------------------------------- *)
(** *** The desired mapping and the start of [OnChange] *)
(* --------------------------------------------------------------------- *)

Lemma desiredMapping_ext c c' vm :
  nads c = nads c' → ippools c = ippools c' →
  desiredMapping c vm = desiredMapping c' vm.
Proof.
  intros Hn Hi. unfold desiredMapping, filterIPPools, hasIPPool.
  by rewrite Hn, Hi.
Qed.

Lemma attachNetworkNames_empty networks : attachNetworkNames networks ∅ = ∅.
Proof.
  unfold attachNetworkNames.
  induction networks as [|n networks IH]; simpl; [done|].
  destruct (Network.Multus n); [|done]. by rewrite lookup_empty.
Qed.

Lemma no_interfaces_no_mapping c vm :
  VirtualMachine.Interfaces vm = [] → desiredMapping c vm = ∅.
Proof.
  intros Hi. unfold desiredMapping, filterIPPools, removeIncomplete.
  rewrite Hi. simpl. rewrite attachNetworkNames_empty.
  by rewrite !map_filter_empty.
Qed.

Lemma reconcileNetworkConfig_empty key vm c :
  desiredMapping c vm = ∅ → reconcileNetworkConfig key vm c = (Some vm, None, c).
Proof.
  intros He. unfold reconcileNetworkConfig, ret.
  destruct (Nat.eqb (length _) 0); [done|]. by rewrite He.
Qed.

Lemma reconcileNetworkConfig_nonempty key vm c :
  desiredMapping c vm ≠ ∅ →
  reconcileNetworkConfig key vm c = syncVmNetCfg key vm (desiredMapping c vm) c.
Proof.
  intros Hne. unfold reconcileNetworkConfig.
  destruct (Nat.eqb (length _) 0) eqn:Hl.
  - apply Nat.eqb_eq, nil_length_inv in Hl.
    by destruct Hne; apply no_interfaces_no_mapping.
  - destruct (Nat.eqb (size _) 0) eqn:Hs; [|done].
    apply Nat.eqb_eq, map_size_empty_iff in Hs. done.
Qed.

Lemma afterMAC_frame vm c :
  vmnetcfgs (afterMAC vm c) = vmnetcfgs c
  ∧ nads (afterMAC vm c) = nads c
  ∧ ippools (afterMAC vm c) = ippools c
  ∧ faults (afterMAC vm c) = faults c
  ∧ calls (afterMAC vm c) = calls c ++ macCalls vm.
Proof.
  unfold afterMAC, macCalls. destruct (macUpdated vm); simpl; [done|].
  by rewrite app_nil_r.
Qed.

Lemma desiredMapping_afterMAC vm c v :
  desiredMapping (afterMAC vm c) v = desiredMapping c v.
Proof.
  destruct (afterMAC_frame vm c) as (_ & Hn & Hi & _). by apply desiredMapping_ext.
Qed.

Lemma NoFaults_afterMAC vm c : NoFaults c → NoFaults (afterMAC vm c).
Proof.
  intros Hnf op. destruct (afterMAC_frame vm c) as (_ & _ & _ & -> & _). apply Hnf.
Qed.

(** A pass for a live VM: the VM update if a MAC address is to be applied,
    and, unless it fails, the rest of [OnChange] on the VM in hand. *)
Lemma OnChange_reconcile key vm c :
  VirtualMachine.DeletionTimestamp vm = None →
  faults c OpVMUpdate = None →
  OnChange key (Some vm) c = reconcileNetworkConfig key (vmInHand vm) (afterMAC vm c).
Proof.
  intros Hd Hf. unfold OnChange. rewrite Hd.
  rewrite bool_decide_eq_false_2 by (by intros [? ?]).
  pose proof (applyMACAddressAnnotation_nil_error vm) as He.
  pose proof (vmInHand_not_updated vm) as Hsame.
  unfold afterMAC, vmInHand, macUpdated in *.
  destruct (applyMACAddressAnnotation vm) as [[vmCopy updated] err].
  simpl in *. subst err.
  destruct updated.
  - unfold bind, vmClient_Update, bind, record. simpl. by rewrite Hf.
  - unfold bind, ret. by rewrite Hsame.
Qed.

Lemma OnChange_update_fails key vm c e :
  VirtualMachine.DeletionTimestamp vm = None →
  macUpdated vm = true →
  faults c OpVMUpdate = Some e →
  OnChange key (Some vm) c
  = (None, Some e,
     mkCluster (vms c) (vmnetcfgs c) (nads c) (ippools c) (faults c)
       (calls c ++ [CallVMUpdate (vmInHand vm)])).
Proof.
  intros Hd Hu Hf. unfold OnChange. rewrite Hd.
  rewrite bool_decide_eq_false_2 by (by intros [? ?]).
  pose proof (applyMACAddressAnnotation_nil_error vm) as He.
  unfold vmInHand, macUpdated in *.
  destruct (applyMACAddressAnnotation vm) as [[vmCopy updated] err].
  simpl in *. subst err updated.
  unfold bind, vmClient_Update, bind, record, ret. simpl. by rewrite Hf.
Qed.

(* --------------------------------------------------------------------- *)
(** *** The two phases *)
(* --------------------------------------------------------------------- *)

(** C1, as amended.  Take a pass for a live VM on a store that plans no
    failure, in which the per-VM resource exists, the desired mapping
    derived for the VM in hand is not empty, the stored spec differs from
    it and the in-sync condition is not False.  After the VM update that a
    MAC override may call for, the pass makes one write, a status update
    that carries the condition False with reason NetworkConfigChanged,
    and then enqueues the VM; it returns no error.  In the store the
    resource keeps its spec and has the condition set; nothing else of the
    per-VM resources changes. *)
Theorem OnChange_marks_out_of_sync
  (key : string) (vm : VirtualMachine.t) (c : Cluster)
  (old : VirtualMachineNetworkConfig.t) :
  VirtualMachine.DeletionTimestamp vm = None →
  NoFaults c →
  vmnetcfgs c !! (VirtualMachine.Namespace vm, VirtualMachine.Name vm) = Some old →
  (VirtualMachineNetworkConfig.Namespace old, VirtualMachineNetworkConfig.Name old)
  = (VirtualMachine.Namespace vm, VirtualMachine.Name vm) →
  desiredMapping c (vmInHand vm) ≠ ∅ →
  VirtualMachineNetworkConfig.NetworkConfigs old ≠ desiredSpec c (vmInHand vm) →
  Cond_IsFalse InSynced old = false →
  let r := OnChange key (Some vm) c in
  let marked := markOutOfSync (with_NetworkConfigs old (desiredSpec c (vmInHand vm))) in
  r.1 = (Some (vmInHand vm), None)
  ∧ calls r.2
    = calls c ++ macCalls vm
      ++ [CallUpdateStatus marked;
          CallEnqueue (VirtualMachine.Namespace vm) (VirtualMachine.Name vm)]
  ∧ VirtualMachineNetworkConfig.Conditions marked !! InSynced = Some outOfSyncCondition
  ∧ vmnetcfgs r.2
    = <[(VirtualMachine.Namespace vm, VirtualMachine.Name vm)
        := VirtualMachineNetworkConfig.Build
             (VirtualMachineNetworkConfig.Kind old)
             (VirtualMachineNetworkConfig.Namespace old)
             (VirtualMachineNetworkConfig.Name old)
             (VirtualMachineNetworkConfig.NetworkConfigs old)
             (<[InSynced := outOfSyncCondition]>
                (VirtualMachineNetworkConfig.Conditions old))]> (vmnetcfgs c).
Proof.
  intros Hd Hnf Hold Hkey Hne Hdiff Hcond. cbv zeta.
  destruct (vmInHand_meta vm) as (Hns & Hname & _).
  destruct (afterMAC_frame vm c) as (Hcfg & _ & _ & _ & Hcalls).
  rewrite (OnChange_reconcile _ _ _ Hd (Hnf OpVMUpdate)).
  rewrite reconcileNetworkConfig_nonempty by (by rewrite desiredMapping_afterMAC).
  rewrite desiredMapping_afterMAC.
  rewrite (syncVmNetCfg_mark _ _ _ _ old);
    [|by apply NoFaults_afterMAC|by rewrite Hcfg, Hns, Hname
     |by rewrite Hns, Hname|done..].
  cbn [fst snd calls vmnetcfgs].
  rewrite Hcalls, Hcfg, Hns, Hname, <- app_assoc.
  repeat split.
  rewrite markOutOfSync_Conditions. apply lookup_insert_eq.
Qed.

(** C2, as amended.  Take a pass for a live VM on a store that plans no
    failure, in which the per-VM resource exists, the desired mapping
    derived for the VM in hand is not empty, the stored spec differs from
    it and the in-sync condition is False.  After the VM update that a MAC
    override may call for, the pass makes one write, an update that carries
    the desired mapping as spec, and no status update; it returns no
    error.  In the store the resource has the desired mapping as its spec
    and its conditions as before. *)
Theorem OnChange_overwrites_when_out_of_sync
  (key : string) (vm : VirtualMachine.t) (c : Cluster)
  (old : VirtualMachineNetworkConfig.t) :
  VirtualMachine.DeletionTimestamp vm = None →
  NoFaults c →
  vmnetcfgs c !! (VirtualMachine.Namespace vm, VirtualMachine.Name vm) = Some old →
  (VirtualMachineNetworkConfig.Namespace old, VirtualMachineNetworkConfig.Name old)
  = (VirtualMachine.Namespace vm, VirtualMachine.Name vm) →
  desiredMapping c (vmInHand vm) ≠ ∅ →
  VirtualMachineNetworkConfig.NetworkConfigs old ≠ desiredSpec c (vmInHand vm) →
  Cond_IsFalse InSynced old = true →
  let r := OnChange key (Some vm) c in
  let new := with_NetworkConfigs old (desiredSpec c (vmInHand vm)) in
  r.1 = (Some (vmInHand vm), None)
  ∧ calls r.2 = calls c ++ macCalls vm ++ [CallUpdate new]
  ∧ VirtualMachineNetworkConfig.NetworkConfigs new = desiredSpec c (vmInHand vm)
  ∧ VirtualMachineNetworkConfig.Conditions new
    = VirtualMachineNetworkConfig.Conditions old
  ∧ vmnetcfgs r.2
    = <[(VirtualMachine.Namespace vm, VirtualMachine.Name vm) := new]> (vmnetcfgs c).
Proof.
  intros Hd Hnf Hold Hkey Hne Hdiff Hcond. cbv zeta.
  destruct (vmInHand_meta vm) as (Hns & Hname & _).
  destruct (afterMAC_frame vm c) as (Hcfg & _ & _ & _ & Hcalls).
  rewrite (OnChange_reconcile _ _ _ Hd (Hnf OpVMUpdate)).
  rewrite reconcileNetworkConfig_nonempty by (by rewrite desiredMapping_afterMAC).
  rewrite desiredMapping_afterMAC.
  rewrite (syncVmNetCfg_update _ _ _ _ old);
    [|by apply NoFaults_afterMAC|by rewrite Hcfg, Hns, Hname
     |by rewrite Hns, Hname|done..].
  cbn [fst snd calls vmnetcfgs].
  rewrite Hcalls, Hcfg, Hns, Hname, <- app_assoc.
  done.
Qed.

(* --------------------------------------------------------------------- *)
(** *** What the end of [OnChange] can and cannot do *)
(* --------------------------------------------------------------------- *)

Ltac unfold_pass :=
  unfold syncVmNetCfg, bind, ret, vmnetcfgCache_Get, vmnetcfgClient_Create,
    vmnetcfgClient_Update, vmnetcfgClient_UpdateStatus, vmController_Enqueue,
    bind, record, ret, set_vmnetcfgs.

Ltac split_pass :=
  repeat (simpl; match goal with
          | |- context [match ?x with _ => _ end] =>
              lazymatch x with
              | context [match _ with _ => _ end] => fail
              | _ => destruct x eqn:?
              end
          end).

(** Whatever happens, the end of [OnChange] adds at most a write on the
    per-VM resource and an enqueue to the trace, and leaves the VMs, the
    interface definitions, the pools and the planned failures alone. *)
Lemma syncVmNetCfg_frame key vm ncm c :
  let r := syncVmNetCfg key vm ncm c in
  (∃ l, calls r.2 = calls c ++ l ∧ Forall (λ call, isVMUpdate call = false) l)
  ∧ vms r.2 = vms c ∧ nads r.2 = nads c ∧ ippools r.2 = ippools c
  ∧ faults r.2 = faults c.
Proof.
  cbv zeta. unfold_pass. split_pass; simpl; (split; [|done]);
    first [ by exists []; rewrite app_nil_r
          | eexists; split; [reflexivity|by repeat constructor]
          | eexists; split; [by rewrite <- app_assoc|by repeat constructor] ].
Qed.

Lemma reconcileNetworkConfig_frame key vm c :
  let r := reconcileNetworkConfig key vm c in
  (∃ l, calls r.2 = calls c ++ l ∧ Forall (λ call, isVMUpdate call = false) l)
  ∧ vms r.2 = vms c ∧ nads r.2 = nads c ∧ ippools r.2 = ippools c
  ∧ faults r.2 = faults c.
Proof.
  cbv zeta. unfold reconcileNetworkConfig, ret.
  destruct (Nat.eqb (length _) 0);
    [by split; [exists []; rewrite app_nil_r|]|].
  destruct (Nat.eqb (size _) 0);
    [by split; [exists []; rewrite app_nil_r|]|].
  apply syncVmNetCfg_frame.
Qed.

(** The end of [OnChange] reads the namespace, the name, the interfaces and
    the networks of the VM, and nothing else of it. *)
Lemma syncVmNetCfg_reads key vm vm' ncm c :
  VirtualMachine.Namespace vm = VirtualMachine.Namespace vm' →
  VirtualMachine.Name vm = VirtualMachine.Name vm' →
  (syncVmNetCfg key vm ncm c).2 = (syncVmNetCfg key vm' ncm c).2
  ∧ (syncVmNetCfg key vm ncm c).1.2 = (syncVmNetCfg key vm' ncm c).1.2.
Proof.
  intros Hns Hname. unfold_pass. unfold prepareVmNetCfg.
  rewrite Hns, Hname. split_pass; done.
Qed.

Lemma desiredMapping_reads c vm vm' :
  VirtualMachine.Namespace vm = VirtualMachine.Namespace vm' →
  VirtualMachine.Interfaces vm = VirtualMachine.Interfaces vm' →
  VirtualMachine.Networks vm = VirtualMachine.Networks vm' →
  desiredMapping c vm = desiredMapping c vm'.
Proof.
  intros Hns Hi Hn. unfold desiredMapping, filterIPPools, hasIPPool.
  by rewrite Hns, Hi, Hn.
Qed.

Lemma reconcileNetworkConfig_reads key vm vm' c :
  VirtualMachine.Namespace vm = VirtualMachine.Namespace vm' →
  VirtualMachine.Name vm = VirtualMachine.Name vm' →
  VirtualMachine.Interfaces vm = VirtualMachine.Interfaces vm' →
  VirtualMachine.Networks vm = VirtualMachine.Networks vm' →
  (reconcileNetworkConfig key vm c).2 = (reconcileNetworkConfig key vm' c).2
  ∧ (reconcileNetworkConfig key vm c).1.2 = (reconcileNetworkConfig key vm' c).1.2.
Proof.
  intros Hns Hname Hi Hn. unfold reconcileNetworkConfig, ret. rewrite Hi.
  destruct (Nat.eqb (length _) 0); [done|].
  rewrite (desiredMapping_reads c vm vm') by done.
  destruct (Nat.eqb (size _) 0); [done|].
  by apply syncVmNetCfg_reads.
Qed.

Lemma reconcileNetworkConfig_basic_reads key vm vm' c :
  VirtualMachine.Namespace vm = VirtualMachine.Namespace vm' →
  VirtualMachine.Name vm = VirtualMachine.Name vm' →
  VirtualMachine.Interfaces vm = VirtualMachine.Interfaces vm' →
  VirtualMachine.Networks vm = VirtualMachine.Networks vm' →
  (reconcileNetworkConfig_basic key vm c).2 = (reconcileNetworkConfig_basic key vm' c).2
  ∧ (reconcileNetworkConfig_basic key vm c).1.2
    = (reconcileNetworkConfig_basic key vm' c).1.2.
Proof.
  intros Hns Hname Hi Hn. unfold reconcileNetworkConfig_basic, desiredMapping_basic, ret.
  rewrite Hi, Hn.
  destruct (Nat.eqb (size _) 0); [done|].
  by apply syncVmNetCfg_reads.
Qed.

Lemma reconcileNetworkConfig_basic_frame key vm c :
  let r := reconcileNetworkConfig_basic key vm c in
  (∃ l, calls r.2 = calls c ++ l ∧ Forall (λ call, isVMUpdate call = false) l)
  ∧ vms r.2 = vms c ∧ nads r.2 = nads c ∧ ippools r.2 = ippools c
  ∧ faults r.2 = faults c.
Proof.
  cbv zeta. unfold reconcileNetworkConfig_basic, ret.
  destruct (Nat.eqb (size _) 0);
    [by split; [exists []; rewrite app_nil_r|]|].
  apply syncVmNetCfg_frame.
Qed.

Lemma OnChange_not_updated key vm c :
  VirtualMachine.DeletionTimestamp vm = None →
  macUpdated vm = false →
  OnChange key (Some vm) c = reconcileNetworkConfig key vm c
  ∧ OnChange_basic key (Some vm) c = reconcileNetworkConfig_basic key vm c.
Proof.
  intros Hd Hu. unfold OnChange, OnChange_basic. rewrite Hd.
  rewrite bool_decide_eq_false_2 by (by intros [? ?]).
  pose proof (applyMACAddressAnnotation_nil_error vm) as He.
  unfold macUpdated in Hu.
  destruct (applyMACAddressAnnotation vm) as [[vmCopy updated] err].
  simpl in *. by subst.
Qed.

Lemma OnChange_deleted key vm c :
  is_Some (VirtualMachine.DeletionTimestamp vm) →
  OnChange key (Some vm) c = (None, None, c)
  ∧ OnChange_basic key (Some vm) c = (None, None, c).
Proof.
  intros Hd. unfold OnChange, OnChange_basic. by rewrite bool_decide_eq_true_2.
Qed.

Lemma macUpdated_without_annotation vm : macUpdated (without_annotation vm) = false.
Proof.
  unfold macUpdated, applyMACAddressAnnotation, without_annotation. simpl.
  by rewrite lookup_delete_eq.
Qed.

(** C10.  When the MAC-override annotation is present and its decoding
    fails, [applyMACAddressAnnotation] hands back the VM as it is, reports
    no update and no error; for a live VM the pass is the rest of
    [OnChange] on the unmodified VM; the pass makes no VM update and leaves
    the stored VMs alone; and it ends with the same cluster, trace and
    error as the pass for the VM without the annotation.  The same holds
    for the handler of [controller.go] without the pool filter. *)
Theorem malformed_annotation_is_ignored
  (key : string) (vm : VirtualMachine.t) (c : Cluster) (ann : string) :
  VirtualMachine.Annotations vm !! macAddressAnnotation = Some ann →
  json_Unmarshal ann = None →
  applyMACAddressAnnotation vm = (vm, false, None)
  ∧ (VirtualMachine.DeletionTimestamp vm = None →
     OnChange key (Some vm) c = reconcileNetworkConfig key vm c
     ∧ OnChange_basic key (Some vm) c = reconcileNetworkConfig_basic key vm c)
  ∧ (∀ r, r = OnChange key (Some vm) c ∨ r = OnChange_basic key (Some vm) c →
       vms r.2 = vms c
       ∧ ∃ l, calls r.2 = calls c ++ l ∧ Forall (λ call, isVMUpdate call = false) l)
  ∧ (OnChange key (Some vm) c).2 = (OnChange key (Some (without_annotation vm)) c).2
  ∧ (OnChange key (Some vm) c).1.2 = (OnChange key (Some (without_annotation vm)) c).1.2
  ∧ (OnChange_basic key (Some vm) c).2
    = (OnChange_basic key (Some (without_annotation vm)) c).2
  ∧ (OnChange_basic key (Some vm) c).1.2
    = (OnChange_basic key (Some (without_annotation vm)) c).1.2.
Proof.
  intros Hann Hjson.
  assert (Happly : applyMACAddressAnnotation vm = (vm, false, None)).
  { unfold applyMACAddressAnnotation. rewrite Hann.
    destruct (String.eqb ann ""); [done|]. by rewrite Hjson. }
  assert (Hu : macUpdated vm = false) by (unfold macUpdated; by rewrite Happly).
  pose proof (macUpdated_without_annotation vm) as Hu0.
  split; [done|].
  destruct (VirtualMachine.DeletionTimestamp vm) as [t|] eqn:Hd.
  - destruct (OnChange_deleted key vm c) as [-> ->]; [by rewrite Hd|].
    destruct (OnChange_deleted key (without_annotation vm) c) as [-> ->];
      [simpl; by rewrite Hd|].
    split; [done|]. split; [|done].
    intros r [-> | ->]; (split; [done|]); exists []; by rewrite app_nil_r.
  - destruct (OnChange_not_updated key vm c Hd Hu) as [-> ->].
    destruct (OnChange_not_updated key (without_annotation vm) c Hd Hu0) as [-> ->].
    split; [done|]. split.
    + intros r [-> | ->].
      * destruct (reconcileNetworkConfig_frame key vm c) as (? & ? & _). done.
      * destruct (reconcileNetworkConfig_basic_frame key vm c) as (? & ? & _). done.
    + destruct (reconcileNetworkConfig_reads key vm (without_annotation vm) c)
        as [? ?]; [done..|].
      destruct (reconcileNetworkConfig_basic_reads key vm (without_annotation vm) c)
        as [? ?]; [done..|].
      done.
Qed.

(** C4, as amended.  When the MAC-override annotation decodes to a map that
    holds a non-empty MAC address for an interface of a live VM that lacks
    one, the pass makes exactly one VM update, with that address applied,
    before any other call.  If the update fails the pass stops with its
    error.  If it succeeds the pass goes on, with the updated VM, to the
    rest of [OnChange]: the desired mapping is derived and the per-VM
    resource written in the same pass.  A pass for the updated VM makes no
    VM update. *)
Theorem OnChange_applies_mac_override
  (key : string) (vm : VirtualMachine.t) (c : Cluster)
  (ann : string) (macs : gmap string string) (nic : Interface.t) (mac : string) :
  VirtualMachine.DeletionTimestamp vm = None →
  VirtualMachine.Annotations vm !! macAddressAnnotation = Some ann →
  ann ≠ "" →
  json_Unmarshal ann = Some macs →
  nic ∈ VirtualMachine.Interfaces vm →
  Interface.MacAddress nic = "" →
  macs !! Interface.Name nic = Some mac →
  mac ≠ "" →
  let r := OnChange key (Some vm) c in
  VirtualMachine.Interfaces (vmInHand vm)
  = (applyMACs macs (VirtualMachine.Interfaces vm)).1
  ∧ (∃ l, calls r.2 = calls c ++ CallVMUpdate (vmInHand vm) :: l
          ∧ Forall (λ call, isVMUpdate call = false) l)
  ∧ (∀ e, faults c OpVMUpdate = Some e →
          r.1 = (None, Some e) ∧ calls r.2 = calls c ++ [CallVMUpdate (vmInHand vm)])
  ∧ (faults c OpVMUpdate = None →
     r = reconcileNetworkConfig key (vmInHand vm) (afterMAC vm c)
     ∧ vms (afterMAC vm c)
       = <[(VirtualMachine.Namespace vm, VirtualMachine.Name vm) := vmInHand vm]> (vms c)
     ∧ calls (afterMAC vm c) = calls c ++ [CallVMUpdate (vmInHand vm)])
  ∧ macUpdated (vmInHand vm) = false.
Proof.
  intros Hd Hann Hne Hjson Hin Hm Hl Hmac. cbv zeta.
  assert (Hsize : Nat.eqb (size macs) 0 = false).
  { apply Nat.eqb_neq. intros Hs. apply map_size_empty_iff in Hs. subst macs.
    by rewrite lookup_empty in Hl. }
  assert (Happly : applyMACAddressAnnotation vm
                   = (with_Interfaces vm (applyMACs macs (VirtualMachine.Interfaces vm)).1,
                      true, None)).
  { unfold applyMACAddressAnnotation. rewrite Hann.
    apply String.eqb_neq in Hne. rewrite Hne, Hjson, Hsize.
    pose proof (applyMACs_updates macs _ nic mac Hin Hm Hl Hmac) as Hu.
    destruct (applyMACs macs _) as [nics u]. simpl in *. by subst. }
  assert (Hu : macUpdated vm = true) by (unfold macUpdated; by rewrite Happly).
  assert (Hafter : afterMAC vm c
    = mkCluster
        (<[(VirtualMachine.Namespace vm, VirtualMachine.Name vm) := vmInHand vm]> (vms c))
        (vmnetcfgs c) (nads c) (ippools c) (faults c)
        (calls c ++ [CallVMUpdate (vmInHand vm)])).
  { unfold afterMAC. rewrite Hu.
    by destruct (vmInHand_meta vm) as (-> & -> & _). }
  split; [unfold vmInHand; by rewrite Happly|].
  split; [|split; [|split]].
  - destruct (faults c OpVMUpdate) as [e|] eqn:Hf.
    + rewrite (OnChange_update_fails _ _ _ e Hd Hu Hf). exists []. by split.
    + rewrite (OnChange_reconcile _ _ _ Hd Hf).
      destruct (reconcileNetworkConfig_frame key (vmInHand vm) (afterMAC vm c))
        as ((l & Hcalls & Hl') & _).
      exists l. split; [|done]. rewrite Hcalls, Hafter. simpl.
      by rewrite <- app_assoc.
  - intros e Hf. by rewrite (OnChange_update_fails _ _ _ e Hd Hu Hf).
  - intros Hf. rewrite (OnChange_reconcile _ _ _ Hd Hf). by rewrite Hafter.
  - apply macUpdated_vmInHand.
Qed.

(* --------------------------------------------------------------------- *)
(** *** The pool filter *)
(* --------------------------------------------------------------------- *)

Lemma hasIPPool_resolves c vm networkName :
  hasIPPool c vm networkName = true
  ↔ resolvesIn c (VirtualMachine.Namespace vm) networkName.
Proof.
  unfold hasIPPool, resolvesIn.
  destruct (GetIPPoolFromNetworkName _ _ _ _) as [?|e]; simpl; [done|].
  by destruct (IsNotFound e).
Qed.

Lemma desiredMapping_lookup c vm k nc :
  desiredMapping c vm !! k = Some nc
  ↔ unfilteredMapping vm !! k = Some nc
    ∧ resolvesIn c (VirtualMachine.Namespace vm) (NetworkConfig.NetworkName nc).
Proof.
  unfold desiredMapping, filterIPPools. fold (unfilteredMapping vm).
  rewrite map_lookup_filter_Some. simpl. by rewrite hasIPPool_resolves.
Qed.

Lemma syncVmNetCfg_no_error key vm ncm c :
  NoFaults c →
  (∀ o, vmnetcfgs c !! (VirtualMachine.Namespace vm, VirtualMachine.Name vm) = Some o →
        (VirtualMachineNetworkConfig.Namespace o, VirtualMachineNetworkConfig.Name o)
        = (VirtualMachine.Namespace vm, VirtualMachine.Name vm)) →
  (syncVmNetCfg key vm ncm c).1 = (Some vm, None).
Proof.
  intros Hnf Hk.
  destruct (vmnetcfgs c !! (VirtualMachine.Namespace vm, VirtualMachine.Name vm))
    as [old|] eqn:Hold.
  - specialize (Hk old eq_refl).
    destruct (decide (VirtualMachineNetworkConfig.NetworkConfigs old
                      = (rangeOrder ncm).*2)) as [Heq|Hne].
    + by rewrite (syncVmNetCfg_same _ _ _ _ old).
    + destruct (Cond_IsFalse InSynced old) eqn:Hf.
      * by rewrite (syncVmNetCfg_update _ _ _ _ old).
      * by rewrite (syncVmNetCfg_mark _ _ _ _ old).
  - by rewrite syncVmNetCfg_create.
Qed.

Lemma OnChange_no_error key v c :
  NoFaults c → WellKeyed c → (OnChange key v c).1.2 = None.
Proof.
  intros Hnf [_ Hwk]. destruct v as [vm|]; [|done].
  destruct (VirtualMachine.DeletionTimestamp vm) as [t|] eqn:Hd.
  - destruct (OnChange_deleted key vm c) as [-> _]; [by rewrite Hd|done].
  - rewrite (OnChange_reconcile _ _ _ Hd (Hnf OpVMUpdate)).
    destruct (decide (desiredMapping (afterMAC vm c) (vmInHand vm) = ∅)) as [He|Hne].
    + by rewrite reconcileNetworkConfig_empty.
    + rewrite reconcileNetworkConfig_nonempty by done.
      rewrite syncVmNetCfg_no_error; [done|by apply NoFaults_afterMAC|].
      destruct (afterMAC_frame vm c) as (-> & _).
      intros o Ho. symmetry. by apply Hwk.
Qed.

(** C5.  An entry is in the desired mapping exactly when it is in the map
    built from the VM's interfaces and networks and its network name
    resolves to a pool with the VM's namespace as fallback: the others are
    dropped.  Dropping raises no error: on a store that plans no failure a
    pass returns none.  When the mapping is empty after the filter, the
    pass for a live VM ends after the MAC step, with no error and no write
    on the per-VM resource.  When it is not empty and the resource is
    absent, the pass creates it with the entries that resolve as its
    spec. *)
Theorem unresolved_networks_are_dropped
  (key : string) (vm : VirtualMachine.t) (c : Cluster) :
  (∀ k nc, desiredMapping c vm !! k = Some nc
           ↔ unfilteredMapping vm !! k = Some nc
             ∧ resolvesIn c (VirtualMachine.Namespace vm)
                 (NetworkConfig.NetworkName nc))
  ∧ (NoFaults c → WellKeyed c → (OnChange key (Some vm) c).1.2 = None)
  ∧ (VirtualMachine.DeletionTimestamp vm = None →
     faults c OpVMUpdate = None →
     desiredMapping c (vmInHand vm) = ∅ →
     OnChange key (Some vm) c = (Some (vmInHand vm), None, afterMAC vm c))
  ∧ (VirtualMachine.DeletionTimestamp vm = None →
     NoFaults c →
     vmnetcfgs c !! (VirtualMachine.Namespace vm, VirtualMachine.Name vm) = None →
     desiredMapping c (vmInHand vm) ≠ ∅ →
     let r := OnChange key (Some vm) c in
     let created := prepareVmNetCfg (vmInHand vm) (desiredMapping c (vmInHand vm)) in
     r.1 = (Some (vmInHand vm), None)
     ∧ calls r.2 = calls c ++ macCalls vm ++ [CallCreate created]
     ∧ vmnetcfgs r.2
       = <[(VirtualMachine.Namespace vm, VirtualMachine.Name vm) := created]>
           (vmnetcfgs c)
     ∧ ∀ nc, nc ∈ VirtualMachineNetworkConfig.NetworkConfigs created
             ↔ ∃ k, unfilteredMapping (vmInHand vm) !! k = Some nc
                    ∧ resolvesIn c (VirtualMachine.Namespace vm)
                        (NetworkConfig.NetworkName nc)).
Proof.
  split; [apply desiredMapping_lookup|].
  split; [apply OnChange_no_error|].
  split.
  - intros Hd Hf He. rewrite (OnChange_reconcile _ _ _ Hd Hf).
    by rewrite reconcileNetworkConfig_empty by (by rewrite desiredMapping_afterMAC).
  - intros Hd Hnf Hno Hne. cbv zeta.
    destruct (vmInHand_meta vm) as (Hns & Hname & _).
    destruct (afterMAC_frame vm c) as (Hcfg & _ & _ & _ & Hcalls).
    rewrite (OnChange_reconcile _ _ _ Hd (Hnf OpVMUpdate)).
    rewrite reconcileNetworkConfig_nonempty by (by rewrite desiredMapping_afterMAC).
    rewrite desiredMapping_afterMAC.
    rewrite syncVmNetCfg_create;
      [|by apply NoFaults_afterMAC|by rewrite Hcfg, Hns, Hname].
    cbn [fst snd calls vmnetcfgs].
    rewrite Hcalls, Hcfg, Hns, Hname, <- app_assoc.
    repeat split.
    + intros Hin. cbn in Hin.
      apply list_elem_of_fmap in Hin as ([k nc'] & -> & Hin).
      rewrite rangeOrder_perm in Hin.
      apply elem_of_map_to_list in Hin.
      apply desiredMapping_lookup in Hin as [? ?].
      exists k. by rewrite <- Hns.
    + intros (k & Hk & Hr). cbn.
      apply list_elem_of_fmap. exists (k, nc). split; [done|].
      rewrite rangeOrder_perm.
      apply elem_of_map_to_list, desiredMapping_lookup. by rewrite Hns.
Qed.

(* --------------------------------------------------------------------- *)
(** *** Passes one after the other *)
(* --------------------------------------------------------------------- *)

Lemma afterMAC_stored vm c ns name :
  vms c !! (ns, name) = Some vm →
  (ns, name) = (VirtualMachine.Namespace vm, VirtualMachine.Name vm) →
  vms (afterMAC vm c) !! (ns, name) = Some (vmInHand vm).
Proof.
  intros Hvm Hk. unfold afterMAC. destruct (macUpdated vm) eqn:Hu; simpl.
  - destruct (vmInHand_meta vm) as (-> & -> & _). rewrite <- Hk.
    apply lookup_insert_eq.
  - by rewrite vmInHand_not_updated.
Qed.

Lemma WellKeyed_afterMAC vm c : WellKeyed c → WellKeyed (afterMAC vm c).
Proof.
  intros [Hv Ho]. unfold afterMAC. destruct (macUpdated vm); [|done].
  split; simpl; [|done].
  intros k v. rewrite lookup_insert. case_decide as Hk.
  - by intros [= <-].
  - by apply Hv.
Qed.

Lemma WellKeyed_put c o l :
  WellKeyed c →
  WellKeyed
    (mkCluster (vms c)
       (<[(VirtualMachineNetworkConfig.Namespace o, VirtualMachineNetworkConfig.Name o)
          := o]> (vmnetcfgs c))
       (nads c) (ippools c) (faults c) l).
Proof.
  intros [Hv Ho]. split; simpl; [done|].
  intros k o'. rewrite lookup_insert. case_decide as Hk.
  - by intros [= <-].
  - by apply Ho.
Qed.

Lemma Settled_intro c c1 ns name vm :
  vms c1 = vms c → nads c1 = nads c → ippools c1 = ippools c →
  vms c !! (ns, name) = Some vm →
  macUpdated vm = false →
  (desiredMapping c vm = ∅
   ∨ ∃ o, vmnetcfgs c1 !! (ns, name) = Some o
          ∧ VirtualMachineNetworkConfig.NetworkConfigs o = desiredSpec c vm) →
  Settled c1 ns name.
Proof.
  intros Hv Hn Hi Hvm Hu Hcases. unfold Settled, desiredSpec.
  rewrite Hv, Hvm, (desiredMapping_ext c1 c) by done. by right.
Qed.

(** A pass on a settled cluster changes nothing: it makes no call. *)
Lemma sync_settled ns name c :
  faults c OpGet = None → WellKeyed c → Settled c ns name →
  ∃ r, sync ns name c = (r, c).
Proof.
  intros Hf [Hwk _] Hs. unfold sync, Settled in *.
  destruct (vms c !! (ns, name)) as [vm|] eqn:Hvm; [|by eexists].
  pose proof (Hwk _ _ Hvm) as [= -> ->].
  destruct Hs as [Hd|[Hu Hs]].
  - destruct (OnChange_deleted (VirtualMachine.Namespace vm +:+ "/"
                                +:+ VirtualMachine.Name vm) vm c Hd) as [-> _].
    by eexists.
  - destruct (VirtualMachine.DeletionTimestamp vm) as [t|] eqn:Hd.
    { destruct (OnChange_deleted (VirtualMachine.Namespace vm +:+ "/"
                                  +:+ VirtualMachine.Name vm) vm c) as [-> _];
        [by rewrite Hd|by eexists]. }
    destruct (OnChange_not_updated (VirtualMachine.Namespace vm +:+ "/"
                                    +:+ VirtualMachine.Name vm) vm c Hd Hu) as [-> _].
    destruct (decide (desiredMapping c vm = ∅)) as [He|Hne].
    + rewrite reconcileNetworkConfig_empty by done. by eexists.
    + destruct Hs as [|(o & Ho & Hspec)]; [done|].
      rewrite reconcileNetworkConfig_nonempty by done.
      rewrite (syncVmNetCfg_same _ _ _ _ o) by done. by eexists.
Qed.

(** A pass on a marked cluster overwrites the spec and settles. *)
Lemma sync_marked ns name c :
  NoFaults c → WellKeyed c → Marked c ns name →
  let c1 := (sync ns name c).2 in
  (∃ o, calls c1 = calls c ++ [CallUpdate o])
  ∧ NoFaults c1 ∧ WellKeyed c1 ∧ Settled c1 ns name.
Proof.
  intros Hnf Hwk (vm & o & Hvm & Hd & Hu & Hne & Ho & Hdiff & Hfalse). cbv zeta.
  pose proof Hwk as [Hwv Hwo].
  pose proof (Hwv _ _ Hvm) as [= -> ->].
  pose proof (Hwo _ _ Ho) as Hko. symmetry in Hko.
  unfold sync. rewrite Hvm.
  destruct (OnChange_not_updated (VirtualMachine.Namespace vm +:+ "/"
                                  +:+ VirtualMachine.Name vm) vm c Hd Hu) as [-> _].
  rewrite reconcileNetworkConfig_nonempty by done.
  rewrite (syncVmNetCfg_update _ _ _ _ o) by done.
  cbn [fst snd calls].
  split; [by eexists|]. split; [done|]. split.
  - rewrite <- Hko at 1. apply (WellKeyed_put c (with_NetworkConfigs o _)), Hwk.
  - apply (Settled_intro c _ _ _ vm); try done. right.
    eexists. split; [apply lookup_insert_eq|done].
Qed.

(** The rest of [OnChange], for the stored VM with no MAC address to
    apply, settles the cluster, or marks the resource out of sync with a
    status update and an enqueue. *)
Lemma reconcile_progress key ns name vm c :
  NoFaults c → WellKeyed c →
  vms c !! (ns, name) = Some vm →
  VirtualMachine.DeletionTimestamp vm = None →
  macUpdated vm = false →
  let c1 := (reconcileNetworkConfig key vm c).2 in
  NoFaults c1 ∧ WellKeyed c1
  ∧ (Settled c1 ns name
     ∨ (Marked c1 ns name
        ∧ ∃ o, calls c1 = calls c ++ [CallUpdateStatus o; CallEnqueue ns name])).
Proof.
  intros Hnf Hwk Hvm Hd Hu. cbv zeta. pose proof Hwk as [Hwv Hwo].
  pose proof (Hwv _ _ Hvm) as [= -> ->].
  destruct (decide (desiredMapping c vm = ∅)) as [He|Hne].
  { rewrite reconcileNetworkConfig_empty by done. simpl.
    split; [done|]. split; [done|]. left.
    apply (Settled_intro c _ _ _ vm); try done. by left. }
  rewrite reconcileNetworkConfig_nonempty by done.
  destruct (vmnetcfgs c !! (VirtualMachine.Namespace vm, VirtualMachine.Name vm))
    as [old|] eqn:Hold.
  - pose proof (Hwo _ _ Hold) as Hko. symmetry in Hko.
    destruct (decide (VirtualMachineNetworkConfig.NetworkConfigs old
                      = desiredSpec c vm)) as [Heq|Hdiff].
    + rewrite (syncVmNetCfg_same _ _ _ _ old) by done. simpl.
      split; [done|]. split; [done|]. left.
      apply (Settled_intro c _ _ _ vm); try done. right. by exists old.
    + destruct (Cond_IsFalse InSynced old) eqn:Hfalse.
      * rewrite (syncVmNetCfg_update _ _ _ _ old) by done. cbn [snd].
        split; [done|]. split.
        { rewrite <- Hko at 1. apply (WellKeyed_put c (with_NetworkConfigs old _)), Hwk. }
        left. apply (Settled_intro c _ _ _ vm); try done. right.
        eexists. split; [apply lookup_insert_eq|done].
      * rewrite (syncVmNetCfg_mark _ _ _ _ old) by done. cbn [snd].
        split; [done|]. split.
        { rewrite <- Hko at 1.
          apply (WellKeyed_put c (VirtualMachineNetworkConfig.Build _ _ _ _ _)), Hwk. }
        right. split; [|by eexists].
        exists vm. eexists. cbn [vms vmnetcfgs].
        unfold desiredSpec. rewrite (desiredMapping_ext _ c) by done.
        split; [done|]. split; [done|]. split; [done|]. split; [done|].
        split; [apply lookup_insert_eq|]. split; [done|].
        unfold Cond_IsFalse. simpl. by rewrite lookup_insert_eq.
  - rewrite syncVmNetCfg_create by done. cbn [snd].
    split; [done|]. split.
    { apply (WellKeyed_put c (prepareVmNetCfg vm _)), Hwk. }
    left. apply (Settled_intro c _ _ _ vm); try done. right.
    eexists. split; [apply lookup_insert_eq|done].
Qed.

(** A pass settles the cluster, or marks the resource out of sync with a
    status update and an enqueue as its last calls. *)
Lemma sync_progress ns name c :
  NoFaults c → WellKeyed c →
  let c1 := (sync ns name c).2 in
  NoFaults c1 ∧ WellKeyed c1
  ∧ (Settled c1 ns name
     ∨ (Marked c1 ns name
        ∧ ∃ l o, calls c1 = calls c ++ l ++ [CallUpdateStatus o; CallEnqueue ns name]
                 ∧ Forall (λ call, isNetCfgWrite call = false) l)).
Proof.
  intros Hnf Hwk. cbv zeta. pose proof Hwk as [Hwv Hwo].
  unfold sync.
  destruct (vms c !! (ns, name)) as [vm|] eqn:Hvm.
  2:{ simpl. split; [done|]. split; [done|]. left. unfold Settled. by rewrite Hvm. }
  pose proof (Hwv _ _ Hvm) as Hk.
  destruct (VirtualMachine.DeletionTimestamp vm) as [t|] eqn:Hd.
  { destruct (OnChange_deleted (ns +:+ "/" +:+ name) vm c) as [-> _];
      [by rewrite Hd|].
    simpl. split; [done|]. split; [done|]. left. unfold Settled.
    rewrite Hvm, Hd. by left. }
  rewrite (OnChange_reconcile _ _ _ Hd (Hnf OpVMUpdate)).
  destruct (vmInHand_meta vm) as (_ & _ & Hdel & _). rewrite Hd in Hdel.
  destruct (afterMAC_frame vm c) as (_ & _ & _ & _ & Hcalls).
  destruct (reconcile_progress (ns +:+ "/" +:+ name) ns name (vmInHand vm)
              (afterMAC vm c)) as (Hnf1 & Hwk1 & Hcases);
    [by apply NoFaults_afterMAC|by apply WellKeyed_afterMAC
    |by apply afterMAC_stored|done|apply macUpdated_vmInHand|].
  split; [done|]. split; [done|].
  destruct Hcases as [Hs|[Hm (o & Ho)]]; [by left|right].
  split; [done|]. exists (macCalls vm), o.
  rewrite Ho, Hcalls, <- app_assoc. split; [done|].
  unfold macCalls. destruct (macUpdated vm); by repeat constructor.
Qed.

(** The three ways through [OnChange]. *)
Lemma OnChange_cases key v c :
  OnChange key v c = (None, None, c)
  ∨ (∃ vm e,
       v = Some vm ∧ macUpdated vm = true
       ∧ OnChange key v c
         = (None, Some e,
            mkCluster (vms c) (vmnetcfgs c) (nads c) (ippools c) (faults c)
              (calls c ++ [CallVMUpdate (vmInHand vm)])))
  ∨ (∃ vm,
       v = Some vm
       ∧ OnChange key v c
         = reconcileNetworkConfig key (vmInHand vm) (afterMAC vm c)).
Proof.
  destruct v as [vm|]; [|by left].
  destruct (VirtualMachine.DeletionTimestamp vm) as [t|] eqn:Hd.
  { left. by apply OnChange_deleted; rewrite Hd. }
  destruct (macUpdated vm) eqn:Hu.
  - destruct (faults c OpVMUpdate) as [e|] eqn:Hf.
    + right. left. exists vm, e. split; [done|]. split; [done|].
      by apply OnChange_update_fails.
    + right. right. exists vm. split; [done|]. by apply OnChange_reconcile.
  - right. right. exists vm. split; [done|].
    destruct (OnChange_not_updated key vm c Hd Hu) as [-> _].
    unfold afterMAC. rewrite Hu. by rewrite vmInHand_not_updated.
Qed.

Lemma afterMAC_vms vm c :
  (macUpdated vm = false ∧ afterMAC vm c = c)
  ∨ (macUpdated vm = true
     ∧ vms (afterMAC vm c)
       = <[(VirtualMachine.Namespace vm, VirtualMachine.Name vm) := vmInHand vm]> (vms c)
     ∧ calls (afterMAC vm c) = calls c ++ [CallVMUpdate (vmInHand vm)]).
Proof.
  unfold afterMAC. destruct (macUpdated vm); [right|by left].
  destruct (vmInHand_meta vm) as (-> & -> & _). done.
Qed.

Lemma vmInHand_idem vm : vmInHand (vmInHand vm) = vmInHand vm.
Proof. apply vmInHand_not_updated, macUpdated_vmInHand. Qed.

(** A pass leaves under [ns/name] a VM that asks for what the VM it found
    there asked for, and leaves the interface definitions and the pools. *)
Lemma sync_keeps_desired ns name c vm' :
  WellKeyed c →
  vms (sync ns name c).2 !! (ns, name) = Some vm' →
  nads (sync ns name c).2 = nads c
  ∧ ippools (sync ns name c).2 = ippools c
  ∧ ∃ vm, vms c !! (ns, name) = Some vm ∧ vmInHand vm' = vmInHand vm.
Proof.
  intros [Hwv _]. unfold sync.
  destruct (OnChange_cases (ns +:+ "/" +:+ name) (vms c !! (ns, name)) c)
    as [->|[(vm & e & Hvm & Hu & ->)|(vm & Hvm & ->)]]; cbn [fst snd vms nads ippools].
  - intros Hl. split; [done|]. split; [done|]. by exists vm'.
  - intros Hl. split; [done|]. split; [done|]. by exists vm'.
  - destruct (reconcileNetworkConfig_frame (ns +:+ "/" +:+ name) (vmInHand vm)
                (afterMAC vm c)) as (_ & -> & -> & -> & _).
    destruct (afterMAC_frame vm c) as (_ & -> & -> & _).
    intros Hl. split; [done|]. split; [done|].
    destruct (afterMAC_vms vm c) as [[_ Heq]|(_ & Hv & _)].
    + rewrite Heq in Hl. by exists vm'.
    + rewrite Hv in Hl. pose proof (Hwv _ _ Hvm) as Hk. rewrite <- Hk in Hl.
      rewrite lookup_insert_eq in Hl. injection Hl as <-.
      exists vm. split; [done|]. apply vmInHand_idem.
Qed.

(** Three passes in a row that take the same listing: the second makes no
    call unless the first ended by marking the resource out of sync, and
    then it makes the update; the third makes none. *)
Lemma sync_settles_same_listing (ns name : string) (c : Cluster) :
  NoFaults c → WellKeyed c →
  let c1 := (sync ns name c).2 in
  let c2 := (sync ns name c1).2 in
  let c3 := (sync ns name c2).2 in
  (c2 = c1
   ∨ ∃ l o o',
       calls c1 = calls c ++ l ++ [CallUpdateStatus o; CallEnqueue ns name]
       ∧ Forall (λ call, isNetCfgWrite call = false) l
       ∧ calls c2 = calls c1 ++ [CallUpdate o'])
  ∧ c3 = c2
  ∧ (∀ vm o,
       vms c !! (ns, name) = Some vm →
       VirtualMachine.DeletionTimestamp vm = None →
       macUpdated vm = false →
       vmnetcfgs c !! (ns, name) = Some o →
       VirtualMachineNetworkConfig.NetworkConfigs o = desiredSpec c vm →
       sync ns name c = (Some vm, None, c)).
Proof.
  intros Hnf Hwk. cbv zeta.
  destruct (sync_progress ns name c Hnf Hwk) as (Hnf1 & Hwk1 & Hcases).
  assert (Hstep2 :
    ((sync ns name (sync ns name c).2).2 = (sync ns name c).2
     ∨ ∃ l o o',
         calls (sync ns name c).2
         = calls c ++ l ++ [CallUpdateStatus o; CallEnqueue ns name]
         ∧ Forall (λ call, isNetCfgWrite call = false) l
         ∧ calls (sync ns name (sync ns name c).2).2
           = calls (sync ns name c).2 ++ [CallUpdate o'])
    ∧ NoFaults (sync ns name (sync ns name c).2).2
    ∧ WellKeyed (sync ns name (sync ns name c).2).2
    ∧ Settled (sync ns name (sync ns name c).2).2 ns name).
  { destruct Hcases as [Hs|[Hm (l & o & Hcalls & Hl)]].
    - destruct (sync_settled ns name _ (Hnf1 OpGet) Hwk1 Hs) as [r Hr].
      rewrite Hr. simpl. split; [by left|done].
    - destruct (sync_marked ns name _ Hnf1 Hwk1 Hm) as ((o' & Ho') & ? & ? & ?).
      split; [|done]. right. by exists l, o, o'. }
  destruct Hstep2 as (H2 & Hnf2 & Hwk2 & Hs2).
  split; [done|]. split.
  - destruct (sync_settled ns name _ (Hnf2 OpGet) Hwk2 Hs2) as [r Hr].
    by rewrite Hr.
  - intros vm o Hvm Hd Hu Ho Hspec.
    destruct Hwk as [Hwv _]. pose proof (Hwv _ _ Hvm) as [= -> ->].
    unfold sync. rewrite Hvm.
    destruct (OnChange_not_updated (VirtualMachine.Namespace vm +:+ "/"
                                    +:+ VirtualMachine.Name vm) vm c Hd Hu) as [-> _].
    destruct (decide (desiredMapping c vm = ∅)) as [He|Hne].
    + by rewrite reconcileNetworkConfig_empty.
    + rewrite reconcileNetworkConfig_nonempty by done.
      by rewrite (syncVmNetCfg_same _ _ _ _ o).
Qed.

(* --------------------------------------------------------------------- *)
(** *** [LoadCIDR] *)
(* --------------------------------------------------------------------- *)

Ltac bitwise :=
  apply Z.bits_inj'; intros k Hk; unfold byte_not;
  rewrite ?Z.land_spec, ?Z.lor_spec, ?Z.land_spec, ?Z.lnot_spec, ?Z.bits_0 by done;
  repeat match goal with
         | |- context [Z.testbit ?x k] => destruct (Z.testbit x k)
         end; reflexivity.

Lemma host_bits_zero a m : Z.land (Z.land a m) (byte_not m) = 0%Z.
Proof. bitwise. Qed.

Lemma host_bits_one a m : Z.land (Z.lor a (byte_not m)) (byte_not m) = byte_not m.
Proof. bitwise. Qed.

Lemma network_bits_kept a m : Z.land (Z.lor (Z.land a m) (byte_not m)) m = Z.land a m.
Proof. bitwise. Qed.

Lemma CIDRMask_loop_length l n : length (CIDRMask_loop l n) = l.
Proof.
  revert n. induction l as [|l IH]; intros n; simpl; [done|].
  destruct (8 <=? n)%Z; simpl; by rewrite IH.
Qed.

Lemma be_bytes_length l n : length (be_bytes l n) = l.
Proof.
  revert n. induction l as [|l IH]; intros n; simpl; [done|].
  rewrite length_app, IH. simpl. lia.
Qed.

Lemma parseIPv4_loop_length s first prevDot fields val digLen b :
  (length fields ≤ 3)%nat →
  parseIPv4_loop s first prevDot fields val digLen = Some b →
  length b = 4%nat.
Proof.
  revert first prevDot fields val digLen.
  induction s as [|c s IH]; intros first prevDot fields val digLen Hlen; simpl.
  - destruct (length fields <? 3)%nat eqn:Hlt; [done|].
    apply Nat.ltb_ge in Hlt. intros [= <-]. rewrite length_app. simpl. lia.
  - destruct (isDigit c).
    + destruct (_ && _); [done|]. destruct (255 <? _)%Z; [done|]. by apply IH.
    + destruct (Ascii.eqb c "."); [|done].
      destruct (_ || _); [done|].
      destruct (Nat.eqb (length fields) 3) eqn:H3; [done|].
      apply Nat.eqb_neq in H3. apply IH. rewrite length_app. simpl. lia.
Qed.

Lemma parseIPv4_length s b : parseIPv4 s = Some b → length b = 4%nat.
Proof. apply parseIPv4_loop_length. simpl. lia. Qed.

Lemma ParseAddr_scan_length s0 s a :
  ParseAddr_scan s0 s = Some a →
  match a with
  | Addr4 b => length b = 4%nat
  | Addr6 b _ => length b = 16%nat
  end.
Proof.
  revert a. induction s as [|c s IH]; intros a; cbn [ParseAddr_scan]; [done|].
  destruct (Ascii.eqb c ".").
  { destruct (parseIPv4 s0) as [b|] eqn:Hb; [|done].
    intros [= <-]. by apply parseIPv4_length in Hb. }
  destruct (Ascii.eqb c ":").
  { destruct (parseIPv6 s0) as [p|]; [|done].
    intros [= <-]. reflexivity. }
  destruct (Ascii.eqb c "%"); [done|]. apply IH.
Qed.

Lemma ParseAddr_length s a :
  ParseAddr s = Some a →
  match a with
  | Addr4 b => length b = 4%nat
  | Addr6 b _ => length b = 16%nat
  end.
Proof. apply ParseAddr_scan_length. Qed.

Lemma CIDRMask_Some n bits :
  bits = 32%nat ∨ bits = 128%nat →
  (0 ≤ n ≤ Z.of_nat bits)%Z →
  CIDRMask n bits = Some (CIDRMask_loop (bits / 8) n).
Proof.
  intros Hb Hn. unfold CIDRMask.
  replace ((n <? 0)%Z || (Z.of_nat bits <? n)%Z) with false
    by (symmetry; apply orb_false_iff; split; apply Z.ltb_ge; lia).
  by destruct Hb as [-> | ->].
Qed.

Lemma IP_Mask_v4 b m :
  length b = 4%nat → length m = 4%nat →
  IP_Mask (v4InV6Prefix ++ b) m = Some (zip_with Z.land b m).
Proof.
  intros Hb Hm.
  do 4 (destruct b as [|? b]; [done|]). destruct b; [|done].
  do 4 (destruct m as [|? m]; [done|]). destruct m; [|done].
  reflexivity.
Qed.

Lemma IP_Mask_v6 b m :
  length b = 16%nat → length m = 16%nat →
  IP_Mask b m = Some (zip_with Z.land b m).
Proof.
  intros Hb Hm. unfold IP_Mask. rewrite Hb, Hm.
  change ((16 =? IPv6len)%nat && (16 =? IPv4len)%nat) with false. cbn [andb].
  rewrite Hm. change (16 =? IPv4len)%nat with false. cbn [andb].
  rewrite Hb. reflexivity.
Qed.

(** What [net.ParseCIDR] accepts: an address [a] of four or sixteen bytes
    and a prefix length [n] within its bits; the network has the address
    under the mask of [n] ones. *)
Lemma ParseCIDR_Ok s ip ipNet :
  ParseCIDR s = Ok (ip, ipNet) →
  ∃ (a : list Z) (n : Z),
    (length a = 4%nat ∨ length a = 16%nat)
    ∧ (0 ≤ n ≤ 8 * Z.of_nat (length a))%Z
    ∧ Mask ipNet = CIDRMask_loop (length a) n
    ∧ IP ipNet = zip_with Z.land a (Mask ipNet).
Proof.
  unfold ParseCIDR.
  destruct (cut s "/") as [[addr mask]|]; [|done].
  destruct (ParseAddr addr) as [ipAddr|] eqn:Ha; [|done].
  destruct (negb (String.eqb (Addr_Zone ipAddr) "")); [done|].
  destruct (dtoi mask) as [[n i] ok].
  destruct (_ || _) eqn:Hchk; [done|].
  apply orb_false_iff in Hchk as [Hchk Hhi].
  apply orb_false_iff in Hchk as [_ Hlo].
  apply Z.ltb_ge in Hlo, Hhi.
  apply ParseAddr_length in Ha.
  destruct ipAddr as [b|b zone]; cbn [Addr_BitLen Addr_As16] in *.
  - rewrite CIDRMask_Some by (by left || lia).
    change (32 / 8)%nat with 4%nat.
    rewrite IP_Mask_v4 by (done || apply CIDRMask_loop_length).
    intros [= <- <-]. exists b, n. simpl. rewrite Ha.
    split; [by left|]. split; [lia|]. split; reflexivity.
  - rewrite CIDRMask_Some by (by right || lia).
    change (128 / 8)%nat with 16%nat.
    rewrite IP_Mask_v6 by (done || apply CIDRMask_loop_length).
    intros [= <- <-]. exists b, n. simpl. rewrite Ha.
    split; [by right|]. split; [lia|]. split; reflexivity.
Qed.

Lemma ParseCIDR_Err s e : ParseCIDR s = Err e → e = ParseError "CIDR address" s.
Proof.
  unfold ParseCIDR.
  destruct (cut s "/") as [[addr mask]|]; [|by intros [= <-]].
  destruct (ParseAddr addr) as [ipAddr|]; [|by intros [= <-]].
  destruct (negb _); [by intros [= <-]|].
  destruct (dtoi mask) as [[n i] ok].
  destruct (_ || _); [by intros [= <-]|].
  destruct (CIDRMask _ _); [|by intros [= <-]].
  destruct (IP_Mask _ _); [done|by intros [= <-]].
Qed.

(** C8.  When [net.ParseCIDR] rejects the text, [LoadCIDR] fails with its
    parse error.  When it accepts it, [LoadCIDR] returns the network of
    [ParseCIDR], whose mask is made of a number of one bits followed by
    zero bits, the network address and the broadcast address, all of the
    same length; byte by byte, the network address has the bits outside the
    mask at zero, and the broadcast address is the network address or-ed
    with the inverted mask byte: it has those bits at one and the others as
    the network address has them.  [LoadCIDR] of 10.0.0.0/24 gives the
    network address 10.0.0.0 and the broadcast address 10.0.0.255. *)
Theorem LoadCIDR_spec (cidr : string) :
  (∀ e, ParseCIDR cidr = Err e →
        LoadCIDR cidr = Err (ParseError "CIDR address" cidr))
  ∧ (∀ ip ipNet, ParseCIDR cidr = Ok (ip, ipNet) →
       ∃ networkIPAddr broadcastIPAddr,
         LoadCIDR cidr = Ok (ipNet, networkIPAddr, broadcastIPAddr)
         ∧ Addr_bytes networkIPAddr = IP ipNet
         ∧ length (Mask ipNet) = length (IP ipNet)
         ∧ length (Addr_bytes broadcastIPAddr) = length (IP ipNet)
         ∧ (∃ n, (0 ≤ n ≤ 8 * Z.of_nat (length (Mask ipNet)))%Z
                 ∧ Mask ipNet = CIDRMask_loop (length (Mask ipNet)) n)
         ∧ ∀ i a m, IP ipNet !! i = Some a → Mask ipNet !! i = Some m →
             Z.land a (byte_not m) = 0%Z
             ∧ Addr_bytes broadcastIPAddr !! i = Some (Z.lor a (byte_not m))
             ∧ Z.land (Z.lor a (byte_not m)) (byte_not m) = byte_not m
             ∧ Z.land (Z.lor a (byte_not m)) m = a)
  ∧ LoadCIDR "10.0.0.0/24"
    = Ok (mkIPNet [10; 0; 0; 0]%Z [255; 255; 255; 0]%Z,
          Addr4 [10; 0; 0; 0]%Z, Addr4 [10; 0; 0; 255]%Z).
Proof.
  split; [|split; [|reflexivity]].
  - intros e He. unfold LoadCIDR. rewrite He. by rewrite (ParseCIDR_Err _ _ He).
  - intros ip ipNet Hp.
    destruct (ParseCIDR_Ok _ _ _ Hp) as (a & n & Hlen & Hn & Hmask & Hip).
    assert (Hml : length (Mask ipNet) = length a)
      by (by rewrite Hmask, CIDRMask_loop_length).
    assert (Hil : length (IP ipNet) = length a)
      by (rewrite Hip, length_zip_with; lia).
    assert (Hbl : length (zip_with (λ b m, Z.lor b (byte_not m)) (IP ipNet) (Mask ipNet))
                  = length a) by (rewrite length_zip_with; lia).
    unfold LoadCIDR. rewrite Hp. unfold AddrFromSlice. rewrite Hil, Hbl.
    assert (Hbytes : ∀ i x m, IP ipNet !! i = Some x → Mask ipNet !! i = Some m →
      Z.land x (byte_not m) = 0%Z
      ∧ zip_with (λ b m, Z.lor b (byte_not m)) (IP ipNet) (Mask ipNet) !! i
        = Some (Z.lor x (byte_not m))
      ∧ Z.land (Z.lor x (byte_not m)) (byte_not m) = byte_not m
      ∧ Z.land (Z.lor x (byte_not m)) m = x).
    { intros i x m Hx Hm.
      assert (Hxa : ∃ a', x = Z.land a' m).
      { rewrite Hip in Hx. apply lookup_zip_with_Some in Hx as (a' & m' & -> & _ & Hm').
        exists a'. congruence. }
      destruct Hxa as [a' ->].
      split; [apply host_bits_zero|]. split.
      - apply lookup_zip_with_Some. eauto.
      - split; [apply host_bits_one|apply network_bits_kept]. }
    destruct Hlen as [Hlen|Hlen]; rewrite Hlen; simpl.
    + eexists _, _. split; [reflexivity|]. simpl.
      split; [done|]. split; [lia|]. split; [lia|].
      split; [exists n; rewrite Hml; by split|done].
    + eexists _, _. split; [reflexivity|]. simpl.
      split; [done|]. split; [lia|]. split; [lia|].
      split; [exists n; rewrite Hml; by split|done].
Qed.

End Properties.

(* --------------------------------------------------------------------- *)
(** *** Passes that list the mapping each in its own order *)
(* --------------------------------------------------------------------- *)

Section Passes.
Context `{Externals}.

Lemma syncVmNetCfg_listing_ext (o o' : MapOrder) key vm ncm c :
  @rangeOrder o _ ncm = @rangeOrder o' _ ncm →
  @syncVmNetCfg o key vm ncm c = @syncVmNetCfg o' key vm ncm c.
Proof. intros Heq. unfold syncVmNetCfg, prepareVmNetCfg. by rewrite Heq. Qed.

Lemma reconcileNetworkConfig_listing_ext (o o' : MapOrder) key vm c :
  @rangeOrder o _ (desiredMapping c vm) = @rangeOrder o' _ (desiredMapping c vm) →
  @reconcileNetworkConfig _ o key vm c = @reconcileNetworkConfig _ o' key vm c.
Proof.
  intros Heq. unfold reconcileNetworkConfig.
  destruct (Nat.eqb (length _) 0); [done|].
  destruct (Nat.eqb (size _) 0); [done|].
  by apply syncVmNetCfg_listing_ext.
Qed.

Lemma OnChange_listing_ext (o o' : MapOrder) key v c :
  (∀ vm, v = Some vm → sameListing o o' c vm) →
  @OnChange _ o key v c = @OnChange _ o' key v c.
Proof.
  intros Hsame. destruct v as [vm|]; [|done].
  specialize (Hsame vm eq_refl). unfold sameListing, vmInHand in Hsame.
  pose proof (vmInHand_not_updated vm) as Hnot.
  unfold vmInHand, macUpdated in Hnot.
  unfold OnChange.
  destruct (bool_decide (is_Some (VirtualMachine.DeletionTimestamp vm))); [done|].
  destruct (applyMACAddressAnnotation vm) as [[vmCopy updated] err].
  cbn [fst snd] in *.
  destruct err; [done|].
  assert (Hgo : ∀ c', nads c' = nads c → ippools c' = ippools c →
            @reconcileNetworkConfig _ o key vmCopy c'
            = @reconcileNetworkConfig _ o' key vmCopy c').
  { intros c' Hn Hi. apply reconcileNetworkConfig_listing_ext.
    by rewrite (desiredMapping_ext c' c). }
  destruct updated.
  - unfold bind, vmClient_Update, bind, record, ret. simpl.
    destruct (faults c OpVMUpdate); [done|]. by apply Hgo.
  - unfold bind, ret. rewrite <- (Hnot eq_refl). by apply Hgo.
Qed.


End Passes.

(* ===================================================================== *)
(** ** Further properties *)
(* ===================================================================== *)

Section UtilProperties.
Context `{Externals} `{UtilExternals}.

(* --------------------------------------------------------------------- *)
(** *** [GetServiceCIDRFromNode] *)
(* --------------------------------------------------------------------- *)

Lemma serviceCIDRIndex_loop_cases argList i :
  (serviceCIDRIndex_loop argList i = 0 ∧ ServiceCIDRFlag ∉ argList)
  ∨ ∃ pre rest,
      argList = pre ++ (ServiceCIDRFlag :: rest)
      ∧ (ServiceCIDRFlag ∉ pre)
      ∧ serviceCIDRIndex_loop argList i = (i + length pre + 1)%nat.
Proof.
  revert i. induction argList as [|val argList IH]; intros i; simpl.
  - left. split; [done|]. apply not_elem_of_nil.
  - destruct (String.eqb val ServiceCIDRFlag) eqn:Hv.
    + apply String.eqb_eq in Hv as ->. right. exists [], argList.
      split; [done|]. split; [apply not_elem_of_nil|]. simpl. lia.
    + apply String.eqb_neq in Hv.
      destruct (IH (S i)) as [[Hz Hnot]|(pre & rest & -> & Hpre & Hidx)].
      * left. split; [done|]. by apply not_elem_of_cons.
      * right. exists (val :: pre), rest.
        split; [done|]. split; [by apply not_elem_of_cons|].
        rewrite Hidx. simpl. lia.
Qed.

Lemma nth_flag_next (pre : list string) (v : string) (rest : list string) :
  nth (length pre + 1) (pre ++ ServiceCIDRFlag :: v :: rest) EmptyString = v.
Proof. induction pre as [|x pre IH]; simpl; [done|apply IH]. Qed.

(** X1.  [GetServiceCIDRFromNode] returns a value exactly when the node
    has annotations, the node-args annotation is among them, it decodes to
    a list of arguments, and the first argument equal to the service-CIDR
    flag is followed by another argument: that argument is the value.  A
    list without the flag, or with its first flag in the last place,
    gives an error. *)
Theorem GetServiceCIDRFromNode_value (node : Node.t) (v : string) :
  GetServiceCIDRFromNode node = Ok v
  ↔ ∃ annotations nodeArgs pre rest,
      Node.Annotations node = Some annotations
      ∧ annotations !! NodeArgsAnnotationKey = Some nodeArgs
      ∧ json_Unmarshal_list nodeArgs = Ok (pre ++ ServiceCIDRFlag :: v :: rest)
      ∧ ServiceCIDRFlag ∉ pre.
Proof.
  unfold GetServiceCIDRFromNode. split.
  - destruct (Node.Annotations node) as [annotations|]; [|done].
    destruct (annotations !! NodeArgsAnnotationKey) as [nodeArgs|] eqn:Hk; [|done].
    destruct (json_Unmarshal_list nodeArgs) as [argList|] eqn:Hj; [|done].
    destruct (serviceCIDRIndex_loop_cases argList 0)
      as [[-> _]|(pre & rest & -> & Hpre & ->)]; [done|].
    replace (0 + length pre + 1) with (length pre + 1) by lia.
    replace (length pre + 1 =? 0)%nat with false
      by (symmetry; apply Nat.eqb_neq; lia).
    rewrite length_app. cbn [orb length].
    destruct (_ <=? _)%nat eqn:Hle; [done|]. apply Nat.leb_gt in Hle.
    destruct rest as [|v' rest]; [simpl in Hle; lia|].
    rewrite (nth_flag_next pre v' rest).
    intros [= <-]. by exists annotations, nodeArgs, pre, rest.
  - intros (annotations & nodeArgs & pre & rest & -> & -> & -> & Hpre).
    destruct (serviceCIDRIndex_loop_cases (pre ++ ServiceCIDRFlag :: v :: rest) 0)
      as [[_ Hnot]|(pre' & rest' & Heq & Hpre' & ->)].
    { destruct Hnot. apply elem_of_app. right. apply list_elem_of_here. }
    assert (pre' = pre) as ->.
    { clear -Heq Hpre Hpre'. revert pre' Heq Hpre'.
      induction pre as [|x pre IH]; intros [|y pre'] Heq Hpre'; simpl in *.
      - done.
      - injection Heq as <- _. destruct Hpre'. apply list_elem_of_here.
      - injection Heq as -> _. destruct Hpre. apply list_elem_of_here.
      - injection Heq as -> Heq. f_equal. apply IH; [|done|].
        + intros Hin. apply Hpre. by apply list_elem_of_further.
        + intros Hin. apply Hpre'. by apply list_elem_of_further. }
    replace (0 + length pre + 1) with (length pre + 1) by lia.
    replace (length pre + 1 =? 0)%nat with false
      by (symmetry; apply Nat.eqb_neq; lia).
    rewrite length_app. cbn [orb length].
    replace (length pre + S (S (length rest)) <=? length pre + 1)%nat with false
      by (symmetry; apply Nat.leb_gt; lia).
    by rewrite (nth_flag_next pre v rest).
Qed.

(* --------------------------------------------------------------------- *)
(** *** [LoadPool] *)
(* --------------------------------------------------------------------- *)

Lemma ParseAddr_empty : ParseAddr "" = None.
Proof. reflexivity. Qed.

Lemma parseIfSet_cases s :
  (parseIfSet s = (ParseAddr s, None) ∧ (s = "" ∨ is_Some (ParseAddr s)))
  ∨ (parseIfSet s = (None, Some (ParseAddr_error s)) ∧ s ≠ "" ∧ ParseAddr s = None).
Proof.
  unfold parseIfSet. destruct (String.eqb s "") eqn:Hs.
  - apply String.eqb_eq in Hs as ->. left. split; [done|by left].
  - apply String.eqb_neq in Hs. destruct (ParseAddr s) as [a|] eqn:Ha.
    + left. split; [done|]. right. by eexists.
    + by right.
Qed.

Lemma parseIfSet_None s a :
  parseIfSet s = (a, None) → a = ParseAddr s ∧ (s = "" ∨ is_Some (ParseAddr s)).
Proof.
  destruct (parseIfSet_cases s) as [[-> Hs]|(-> & _)]; [|done].
  by intros [= <-].
Qed.

Lemma parseIfSet_Some s a e :
  parseIfSet s = (a, Some e) →
  a = None ∧ e = ParseAddr_error s ∧ ¬ (s = "" ∨ is_Some (ParseAddr s)).
Proof.
  destruct (parseIfSet_cases s) as [[-> Hs]|(-> & Hne & Hp)]; [done|].
  intros [= <- <-]. split; [done|]. split; [done|].
  intros [?|[? ?]]; congruence.
Qed.

Ltac parse_field s :=
  let a := fresh "a" in
  let e := fresh "e" in
  let E := fresh "E" in
  destruct (parseIfSet s) as [a [e|]] eqn:E;
  [apply parseIfSet_Some in E as (-> & -> & ?)
  |apply parseIfSet_None in E as [-> ?]].

(** X2.  [LoadPool] returns no error exactly when [LoadCIDR] accepts the
    CIDR and each of the four address fields is empty or parses.  It then
    holds the network and the two addresses of [LoadCIDR], and for each
    field the parsed address, or the zero address where the field is
    empty.  When [LoadCIDR] fails, its error is returned and nothing is
    filled in; otherwise the error is that of the first field that is set
    and does not parse. *)
Theorem LoadPool_outcomes (cfg : IPv4Config.t) :
  ((LoadPool cfg).2 = None
   ↔ is_Ok (LoadCIDR (IPv4Config.CIDR cfg)) = true
     ∧ Forall (λ s, s = "" ∨ is_Some (ParseAddr s)) (addressFields cfg))
  ∧ (∀ ipNet network broadcast,
       LoadCIDR (IPv4Config.CIDR cfg) = Ok (ipNet, network, broadcast) →
       (LoadPool cfg).2 = None →
       (LoadPool cfg).1
       = PoolInfo.Build (Some ipNet) (Some network) (Some broadcast)
           (ParseAddr (IPv4Config.Pool_Start cfg))
           (ParseAddr (IPv4Config.Pool_End cfg))
           (ParseAddr (IPv4Config.ServerIP cfg))
           (ParseAddr (IPv4Config.Router cfg)))
  ∧ (∀ err, LoadCIDR (IPv4Config.CIDR cfg) = Err err →
       LoadPool cfg = (PoolInfo.Build None None None None None None None, Some err))
  ∧ (∀ ok s rest,
       is_Ok (LoadCIDR (IPv4Config.CIDR cfg)) = true →
       addressFields cfg = ok ++ s :: rest →
       Forall (λ s, s = "" ∨ is_Some (ParseAddr s)) ok →
       ¬ (s = "" ∨ is_Some (ParseAddr s)) →
       (LoadPool cfg).2 = Some (ParseAddr_error s)).
Proof.
  unfold LoadPool, addressFields.
  destruct cfg as [cidr start end_ server router]. cbn [IPv4Config.CIDR
    IPv4Config.Pool_Start IPv4Config.Pool_End IPv4Config.ServerIP IPv4Config.Router].
  destruct (LoadCIDR cidr) as [[[ipNet network] broadcast]|e] eqn:Hc.
  2:{ split; [split; [done|by intros [? _]]|].
      split; [done|]. split; [by intros ? [= ->]|done]. }
  parse_field start; parse_field end_; parse_field server; parse_field router;
    cbn [fst snd is_Ok].
  all: split;
    [split;
     [first [done | intros _; split; [done|];
                    repeat (apply Forall_cons_2; [assumption|]);
                    apply Forall_nil_2]
     |first [done
            | intros [_ Hall];
              repeat match goal with
                     | Hall : Forall _ (_ :: _) |- _ =>
                         apply Forall_cons in Hall as [? Hall]
                     end; contradiction]]
    |].
  all: split; [intros ? ? ? [= <- <- <-]; first [done | intros [=]]|].
  all: split; [done|].
  all: intros ok s rest _ Heq Hok Hs.
  all: destruct ok as [|x1 ok];
    [injection Heq as <- _; done
    |injection Heq as <- Heq; apply Forall_cons in Hok as [? Hok]].
  all: try done.
  all: destruct ok as [|x2 ok];
    [injection Heq as <- _; done
    |injection Heq as <- Heq; apply Forall_cons in Hok as [? Hok]].
  all: try done.
  all: destruct ok as [|x3 ok];
    [injection Heq as <- _; done
    |injection Heq as <- Heq; apply Forall_cons in Hok as [? Hok]].
  all: try done.
  all: destruct ok as [|x4 ok];
    [injection Heq as <- _; done
    |injection Heq as <- Heq; apply Forall_cons in Hok as [? Hok]].
  all: try done.
  all: by destruct ok.
Qed.

End UtilProperties.

Section AddressProperties.
Context `{Externals} `{UtilExternals} {listing : MapOrder}.

(* --------------------------------------------------------------------- *)
(** *** [LoadAllocated] and [IsIPAddrInList] *)
(* --------------------------------------------------------------------- *)

Lemma IsIPAddrInList_elem (a : Addr) (l : list Addr) :
  IsIPAddrInList a l = true ↔ a ∈ l.
Proof.
  induction l as [|x l IH]; simpl.
  - split; [done|]. by intros ?%elem_of_nil.
  - rewrite elem_of_cons. case_bool_decide; [naive_solver|].
    rewrite IH. naive_solver.
Qed.

Lemma LoadAllocated_fold (entries : list (string * string))
  (al ex re : list Addr) (a : Addr) :
  let r := foldl LoadAllocated_step (al, ex, re) entries in
  (a ∈ r.1.1
   ↔ a ∈ al ∨ ∃ ip val, (ip, val) ∈ entries ∧ val ≠ ExcludedMark
                        ∧ val ≠ ReservedMark ∧ ParseAddr ip = Some a)
  ∧ (a ∈ r.1.2
     ↔ a ∈ ex ∨ ∃ ip, (ip, ExcludedMark) ∈ entries ∧ ParseAddr ip = Some a)
  ∧ (a ∈ r.2
     ↔ a ∈ re ∨ ∃ ip, (ip, ReservedMark) ∈ entries ∧ ReservedMark ≠ ExcludedMark
                      ∧ ParseAddr ip = Some a)
  ∧ length r.1.1 + length r.1.2 + length r.2
    = length al + length ex + length re
      + length (filter (λ e : string * string, is_Some (ParseAddr e.1)) entries).
Proof.
  cbv zeta. revert al ex re.
  induction entries as [|[ip val] entries IH]; intros al ex re.
  - simpl. setoid_rewrite elem_of_nil.
    split_and!; [naive_solver|naive_solver|naive_solver|lia].
  - cbn [foldl]. unfold LoadAllocated_step at 2 4 6 8 10 12. cbn [fst snd].
    destruct (ParseAddr ip) as [x|] eqn:Hp.
    + rewrite filter_cons_True by (simpl; rewrite Hp; by eexists).
      destruct (String.eqb val ExcludedMark) eqn:He;
        [|destruct (String.eqb val ReservedMark) eqn:Hr].
      * apply String.eqb_eq in He as ->.
        destruct (IH al (ex ++ [x]) re) as (I1 & I2 & I3 & I4).
        rewrite I1, I2, I3, I4, length_app. clear I1 I2 I3 I4.
        setoid_rewrite elem_of_cons. rewrite elem_of_app, list_elem_of_singleton.
        simpl. split_and!; [naive_solver|naive_solver|naive_solver|lia].
      * apply String.eqb_eq in Hr as ->. apply String.eqb_neq in He.
        destruct (IH al ex (re ++ [x])) as (I1 & I2 & I3 & I4).
        rewrite I1, I2, I3, I4, length_app. clear I1 I2 I3 I4.
        setoid_rewrite elem_of_cons. rewrite elem_of_app, list_elem_of_singleton.
        simpl. split_and!; [naive_solver|naive_solver|naive_solver|lia].
      * apply String.eqb_neq in He, Hr.
        destruct (IH (al ++ [x]) ex re) as (I1 & I2 & I3 & I4).
        rewrite I1, I2, I3, I4, length_app. clear I1 I2 I3 I4.
        setoid_rewrite elem_of_cons. rewrite elem_of_app, list_elem_of_singleton.
        simpl. split_and!; [naive_solver|naive_solver|naive_solver|lia].
    + rewrite filter_cons_False by (simpl; rewrite Hp; by intros [? ?]).
      destruct (IH al ex re) as (I1 & I2 & I3 & I4).
      rewrite I1, I2, I3, I4. clear I1 I2 I3 I4.
      setoid_rewrite elem_of_cons.
      split_and!; [naive_solver|naive_solver|naive_solver|lia].
Qed.

(** X3.  [LoadAllocated] sorts the keys of the allocation map that parse as
    addresses into three lists: an address is in the excluded list exactly
    when a key that parses to it carries the excluded mark, in the reserved
    list when it carries the reserved mark (and that is not the excluded
    mark), and in the allocated list when it carries any other value.  Keys
    that do not parse are in no list: the three lists together have as many
    members as the map has keys that parse.  Membership is as
    [IsIPAddrInList] tests it. *)
Theorem LoadAllocated_classifies (allocated : gmap string string) (a : Addr) :
  let r := LoadAllocated allocated in
  (IsIPAddrInList a r.1.1 = true
   ↔ ∃ ip val, allocated !! ip = Some val ∧ val ≠ ExcludedMark
               ∧ val ≠ ReservedMark ∧ ParseAddr ip = Some a)
  ∧ (IsIPAddrInList a r.1.2 = true
     ↔ ∃ ip, allocated !! ip = Some ExcludedMark ∧ ParseAddr ip = Some a)
  ∧ (IsIPAddrInList a r.2 = true
     ↔ ∃ ip, allocated !! ip = Some ReservedMark ∧ ReservedMark ≠ ExcludedMark
             ∧ ParseAddr ip = Some a)
  ∧ length r.1.1 + length r.1.2 + length r.2
    = size (filter (λ kv : string * string, is_Some (ParseAddr kv.1)) allocated).
Proof.
  cbv zeta. unfold LoadAllocated, LoadAllocated_range.
  destruct (LoadAllocated_fold (rangeOrder allocated) [] [] [] a)
    as (I1 & I2 & I3 & I4).
  rewrite !IsIPAddrInList_elem, I1, I2, I3, I4. clear I1 I2 I3 I4.
  setoid_rewrite (rangeOrder_perm _ allocated).
  setoid_rewrite elem_of_map_to_list. setoid_rewrite elem_of_nil.
  split_and!; [naive_solver|naive_solver|naive_solver|].
  simpl. rewrite map_filter_alt, <- length_map_to_list.
  symmetry. apply Permutation_length, map_to_list_to_map.
  eapply sublist_NoDup;
    first [apply (NoDup_fst_map_to_list allocated)
          |apply fmap_sublist, sublist_filter].
Qed.

Lemma LoadAllocated_step_proper (acc acc' : list Addr * list Addr * list Addr)
  (x : string * string) :
  acc.1.1 ≡ₚ acc'.1.1 → acc.1.2 ≡ₚ acc'.1.2 → acc.2 ≡ₚ acc'.2 →
  (LoadAllocated_step acc x).1.1 ≡ₚ (LoadAllocated_step acc' x).1.1
  ∧ (LoadAllocated_step acc x).1.2 ≡ₚ (LoadAllocated_step acc' x).1.2
  ∧ (LoadAllocated_step acc x).2 ≡ₚ (LoadAllocated_step acc' x).2.
Proof.
  destruct acc as [[al ex] re], acc' as [[al' ex'] re']. simpl.
  intros H1 H2 H3. unfold LoadAllocated_step.
  destruct (ParseAddr x.1); [|done].
  destruct (String.eqb x.2 ExcludedMark); [|destruct (String.eqb x.2 ReservedMark)];
    simpl; by rewrite ?H1, ?H2, ?H3.
Qed.

Lemma LoadAllocated_step_swap (acc : list Addr * list Addr * list Addr)
  (x y : string * string) :
  (LoadAllocated_step (LoadAllocated_step acc x) y).1.1
  ≡ₚ (LoadAllocated_step (LoadAllocated_step acc y) x).1.1
  ∧ (LoadAllocated_step (LoadAllocated_step acc x) y).1.2
    ≡ₚ (LoadAllocated_step (LoadAllocated_step acc y) x).1.2
  ∧ (LoadAllocated_step (LoadAllocated_step acc x) y).2
    ≡ₚ (LoadAllocated_step (LoadAllocated_step acc y) x).2.
Proof.
  destruct acc as [[al ex] re]. unfold LoadAllocated_step.
  destruct (ParseAddr x.1) as [a|], (ParseAddr y.1) as [b|],
    (String.eqb x.2 ExcludedMark), (String.eqb y.2 ExcludedMark),
    (String.eqb x.2 ReservedMark), (String.eqb y.2 ReservedMark); simpl;
    rewrite <- ?app_assoc; split_and!; try done;
    apply Permutation_app_head, perm_swap.
Qed.

Lemma LoadAllocated_fold_perm (entries entries' : list (string * string)) :
  entries ≡ₚ entries' →
  ∀ acc acc' : list Addr * list Addr * list Addr,
    acc.1.1 ≡ₚ acc'.1.1 → acc.1.2 ≡ₚ acc'.1.2 → acc.2 ≡ₚ acc'.2 →
    (foldl LoadAllocated_step acc entries).1.1
    ≡ₚ (foldl LoadAllocated_step acc' entries').1.1
    ∧ (foldl LoadAllocated_step acc entries).1.2
      ≡ₚ (foldl LoadAllocated_step acc' entries').1.2
    ∧ (foldl LoadAllocated_step acc entries).2
      ≡ₚ (foldl LoadAllocated_step acc' entries').2.
Proof.
  induction 1 as [|x l l' _ IH|x y l|l l' l'' _ IH1 _ IH2];
    intros acc acc' H1 H2 H3; simpl.
  - done.
  - destruct (LoadAllocated_step_proper acc acc' x H1 H2 H3) as (? & ? & ?).
    by apply IH.
  - destruct (LoadAllocated_step_proper acc acc' y H1 H2 H3) as (P1 & P2 & P3).
    destruct (LoadAllocated_step_proper _ _ x P1 P2 P3) as (Q1 & Q2 & Q3).
    destruct (LoadAllocated_step_swap acc' y x) as (S1 & S2 & S3).
    assert (Hrefl : ∀ l0 : list (string * string), l0 ≡ₚ l0) by done.
    revert Q1 Q2 Q3 S1 S2 S3.
    generalize (LoadAllocated_step (LoadAllocated_step acc y) x).
    generalize (LoadAllocated_step (LoadAllocated_step acc' y) x).
    generalize (LoadAllocated_step (LoadAllocated_step acc' x) y).
    intros c b a' Q1 Q2 Q3 S1 S2 S3.
    assert (E1 : a'.1.1 ≡ₚ c.1.1) by (by rewrite Q1).
    assert (E2 : a'.1.2 ≡ₚ c.1.2) by (by rewrite Q2).
    assert (E3 : a'.2 ≡ₚ c.2) by (by rewrite Q3).
    clear -E1 E2 E3. revert a' c E1 E2 E3.
    induction l as [|z l IHl]; intros a' c E1 E2 E3; simpl; [done|].
    destruct (LoadAllocated_step_proper a' c z E1 E2 E3) as (? & ? & ?).
    by apply IHl.
  - destruct (IH1 acc acc' H1 H2 H3) as (A1 & A2 & A3).
    destruct (IH2 acc' acc') as (B1 & B2 & B3); [done..|].
    by rewrite A1, A2, A3.
Qed.

(** X4.  The order in which the allocation map is visited has no influence
    on what [LoadAllocated] finds: for two orders of the same entries, each
    of the three lists has the same members, the same number of times. *)
Theorem LoadAllocated_order_irrelevant (entries entries' : list (string * string)) :
  entries ≡ₚ entries' →
  (LoadAllocated_range entries).1.1 ≡ₚ (LoadAllocated_range entries').1.1
  ∧ (LoadAllocated_range entries).1.2 ≡ₚ (LoadAllocated_range entries').1.2
  ∧ (LoadAllocated_range entries).2 ≡ₚ (LoadAllocated_range entries').2.
Proof.
  intros Hp. unfold LoadAllocated_range.
  by apply LoadAllocated_fold_perm.
Qed.

End AddressProperties.

Section RangeProperties.
Context `{Externals} `{UtilExternals}.

(* --------------------------------------------------------------------- *)
(** *** [IsIPInBetweenOf] *)
(* --------------------------------------------------------------------- *)

Lemma string_compare_refl (s : string) : String.compare s s = Eq.
Proof.
  pose proof (String.compare_antisym s s) as Ha.
  destruct (String.compare s s); simpl in Ha; congruence.
Qed.

Lemma Addr_Compare_refl (a : Addr) : Addr_Compare a a = 0%Z.
Proof.
  unfold Addr_Compare. rewrite Nat.ltb_irrefl, Z.ltb_irrefl.
  destruct a; simpl; [done|]. by rewrite string_compare_refl.
Qed.

Lemma Addr_Compare_antisym (a b : Addr) : Addr_Compare b a = (- Addr_Compare a b)%Z.
Proof.
  unfold Addr_Compare.
  destruct (Nat.ltb_spec (Addr_BitLen a) (Addr_BitLen b)),
    (Nat.ltb_spec (Addr_BitLen b) (Addr_BitLen a)); try lia; try done.
  destruct (Z.ltb_spec (bytes_value (Addr_As16 a)) (bytes_value (Addr_As16 b))),
    (Z.ltb_spec (bytes_value (Addr_As16 b)) (bytes_value (Addr_As16 a)));
    try lia; try done.
  destruct a as [x|x zx], b as [y|y zy]; simpl in *; try done; try lia.
  rewrite (String.compare_antisym zy zx).
  by destruct (String.compare zx zy).
Qed.

Lemma bytes_value_snoc (b : list Z) (x : Z) :
  bytes_value (b ++ [x]) = (bytes_value b * 256 + x)%Z.
Proof. unfold bytes_value. by rewrite foldl_snoc. Qed.

Lemma bytes_value_app (x y : list Z) :
  bytes_value (x ++ y)
  = (bytes_value x * 256 ^ Z.of_nat (length y) + bytes_value y)%Z.
Proof.
  induction y as [|b y IH] using rev_ind.
  - rewrite app_nil_r. simpl. unfold bytes_value at 3. simpl. lia.
  - rewrite app_assoc, !bytes_value_snoc, IH, length_app. simpl.
    rewrite Nat2Z.inj_add, Z.pow_add_r by lia. lia.
Qed.

Lemma Addr_Compare_v4 (a b : list Z) :
  length a = 4%nat → length b = 4%nat →
  Addr_Compare (Addr4 a) (Addr4 b)
  = if (bytes_value a <? bytes_value b)%Z then (-1)%Z
    else if (bytes_value b <? bytes_value a)%Z then 1%Z else 0%Z.
Proof.
  intros Ha Hb. unfold Addr_Compare. cbn [Addr_BitLen Addr_As16 Addr_Is6].
  rewrite Nat.ltb_irrefl, !bytes_value_app, Ha, Hb.
  destruct (Z.ltb_spec (bytes_value a) (bytes_value b)),
    (Z.ltb_spec (bytes_value b) (bytes_value a)); try lia.
  all: repeat match goal with
         | |- context [(?x <? ?y)%Z] => destruct (Z.ltb_spec x y); try lia
         end; done.
Qed.

(** X5.  [IsIPInBetweenOf] is false as soon as one of the three texts does
    not parse.  Both ends of the range belong to it: for bounds that parse,
    with the lower not above the upper, the lower and the upper bound are
    each in between.  An address that is in between shows that the lower
    bound is written before it by [Addr.Compare], and the upper after. *)
Theorem IsIPInBetweenOf_bounds (ip ip1 ip2 : string) :
  (IsIPInBetweenOf ip ip1 ip2 = true →
   ∃ a lo hi, ParseAddr ip = Some a ∧ ParseAddr ip1 = Some lo
              ∧ ParseAddr ip2 = Some hi
              ∧ (Addr_Compare lo a ≤ 0)%Z ∧ (Addr_Compare a hi ≤ 0)%Z)
  ∧ (ParseAddr ip = None ∨ ParseAddr ip1 = None ∨ ParseAddr ip2 = None →
     IsIPInBetweenOf ip ip1 ip2 = false)
  ∧ (∀ lo hi, ParseAddr ip1 = Some lo → ParseAddr ip2 = Some hi →
       (Addr_Compare lo hi ≤ 0)%Z →
       IsIPInBetweenOf ip1 ip1 ip2 = true ∧ IsIPInBetweenOf ip2 ip1 ip2 = true).
Proof.
  unfold IsIPInBetweenOf. split; [|split].
  - destruct (ParseAddr ip) as [a|]; [|done].
    destruct (ParseAddr ip1) as [lo|]; [|done].
    destruct (ParseAddr ip2) as [hi|]; [|done].
    intros [Hlo Hhi]%andb_true_iff. apply Z.leb_le in Hlo, Hhi.
    exists a, lo, hi. rewrite (Addr_Compare_antisym a lo). split_and!; try done. lia.
  - intros [->|[Hn|Hn]]; [done|..].
    + destruct (ParseAddr ip); [|done]. by rewrite Hn.
    + destruct (ParseAddr ip); [|done]. destruct (ParseAddr ip1); [|done].
      by rewrite Hn.
  - intros lo hi -> -> Hle. rewrite !Addr_Compare_refl.
    rewrite (Addr_Compare_antisym lo hi). split; apply andb_true_iff; split;
      apply Z.leb_le; lia.
Qed.

(** X6.  For three IPv4 texts [IsIPInBetweenOf] compares numbers: the
    address is in between exactly when its four bytes, read as a number,
    are at least the number of the lower and at most the number of the
    upper bound.  An IPv4 address is never in a range whose lower bound is
    an IPv6 address, nor an IPv6 address in a range whose upper bound is an
    IPv4 address. *)
Theorem IsIPInBetweenOf_IPv4 (ip ip1 ip2 : string) :
  (∀ a lo hi,
     ParseAddr ip = Some (Addr4 a) → ParseAddr ip1 = Some (Addr4 lo) →
     ParseAddr ip2 = Some (Addr4 hi) →
     IsIPInBetweenOf ip ip1 ip2 = true
     ↔ (bytes_value lo ≤ bytes_value a ≤ bytes_value hi)%Z)
  ∧ (∀ a lo zone, ParseAddr ip = Some (Addr4 a) →
       ParseAddr ip1 = Some (Addr6 lo zone) → IsIPInBetweenOf ip ip1 ip2 = false)
  ∧ (∀ a zone hi, ParseAddr ip = Some (Addr6 a zone) →
       ParseAddr ip2 = Some (Addr4 hi) → IsIPInBetweenOf ip ip1 ip2 = false).
Proof.
  unfold IsIPInBetweenOf. split; [|split].
  - intros a lo hi Ha Hlo Hhi. rewrite Ha, Hlo, Hhi.
    apply ParseAddr_length in Ha, Hlo, Hhi.
    rewrite !Addr_Compare_v4 by done.
    rewrite andb_true_iff, !Z.leb_le.
    destruct (Z.ltb_spec (bytes_value a) (bytes_value lo)),
      (Z.ltb_spec (bytes_value lo) (bytes_value a)),
      (Z.ltb_spec (bytes_value a) (bytes_value hi)),
      (Z.ltb_spec (bytes_value hi) (bytes_value a)); lia.
  - intros a lo zone -> ->. by destruct (ParseAddr ip2).
  - intros a zone hi -> ->. destruct (ParseAddr ip1); [|done].
    apply andb_false_r.
Qed.

End RangeProperties.

Section ReconcilerProperties.
Context `{Externals}.

(* --------------------------------------------------------------------- *)
(** *** More on the MAC-override annotation *)
(* --------------------------------------------------------------------- *)

Lemma applyMAC_cases (macs : gmap string string) (nic : Interface.t) :
  applyMAC macs nic = (nic, false)
  ∨ (Interface.MacAddress nic = ""
     ∧ ∃ mac, macs !! Interface.Name nic = Some mac ∧ mac ≠ ""
              ∧ applyMAC macs nic = (Interface.Build (Interface.Name nic) mac, true)).
Proof.
  unfold applyMAC.
  destruct (String.eqb (Interface.MacAddress nic) "") eqn:Hm; simpl; [|by left].
  apply String.eqb_eq in Hm.
  destruct (macs !! Interface.Name nic) as [mac|]; [|by left].
  destruct (String.eqb mac "") eqn:Hmac; simpl; [by left|].
  apply String.eqb_neq in Hmac. right. split; [done|]. by exists mac.
Qed.

Lemma applyMACs_fmap (macs : gmap string string) (nics : list Interface.t) :
  (applyMACs macs nics).1 = (λ nic, (applyMAC macs nic).1) <$> nics.
Proof.
  induction nics as [|nic nics IH]; simpl; [done|].
  destruct (applyMAC macs nic), (applyMACs macs nics). simpl in *. by rewrite IH.
Qed.

Lemma applyMACs_changed (macs : gmap string string) (nics : list Interface.t) :
  (applyMACs macs nics).2 = true → (applyMACs macs nics).1 ≠ nics.
Proof.
  induction nics as [|nic nics IH]; simpl; [done|].
  destruct (applyMAC_cases macs nic) as [->|(Hm & mac & _ & Hmac & ->)];
    destruct (applyMACs macs nics) as [rest u]; simpl in *.
  - intros Hu [= Heq]. by apply IH.
  - intros _ [= Heq _]. destruct nic as [n m]. simpl in *. congruence.
Qed.

(** X7.  [applyMACAddressAnnotation] returns no error and a VM that differs
    from the given one in MAC addresses of interfaces only: the interfaces
    keep their number, order and names; an interface that has a MAC
    address keeps it; an interface that is changed had none and gets the
    non-empty address that the decoded annotation holds under its name.
    The flag it returns is true exactly when the VM it returns differs
    from the given one. *)
Theorem applyMACAddressAnnotation_fills_only (vm : VirtualMachine.t) :
  let vmCopy := (applyMACAddressAnnotation vm).1.1 in
  let updated := (applyMACAddressAnnotation vm).1.2 in
  (applyMACAddressAnnotation vm).2 = None
  ∧ with_Interfaces vmCopy (VirtualMachine.Interfaces vm) = vm
  ∧ Interface.Name <$> VirtualMachine.Interfaces vmCopy
    = Interface.Name <$> VirtualMachine.Interfaces vm
  ∧ (∀ i nic, VirtualMachine.Interfaces vm !! i = Some nic →
       ∃ nic', VirtualMachine.Interfaces vmCopy !! i = Some nic'
               ∧ (nic' = nic
                  ∨ (Interface.MacAddress nic = ""
                     ∧ Interface.MacAddress nic' ≠ ""
                     ∧ ∃ ann macs,
                         VirtualMachine.Annotations vm !! macAddressAnnotation = Some ann
                         ∧ json_Unmarshal ann = Some macs
                         ∧ macs !! Interface.Name nic
                           = Some (Interface.MacAddress nic'))))
  ∧ (updated = true ↔ vmCopy ≠ vm).
Proof.
  cbv zeta. split; [apply applyMACAddressAnnotation_nil_error|].
  assert (Hsame : ∀ i nic, VirtualMachine.Interfaces vm !! i = Some nic →
            ∃ nic', VirtualMachine.Interfaces vm !! i = Some nic'
                    ∧ (nic' = nic
                       ∨ (Interface.MacAddress nic = ""
                          ∧ Interface.MacAddress nic' ≠ ""
                          ∧ ∃ ann macs,
                              VirtualMachine.Annotations vm !! macAddressAnnotation
                              = Some ann
                              ∧ json_Unmarshal ann = Some macs
                              ∧ macs !! Interface.Name nic
                                = Some (Interface.MacAddress nic')))).
  { intros i nic Hi. exists nic. split; [done|by left]. }
  unfold applyMACAddressAnnotation.
  destruct (VirtualMachine.Annotations vm !! macAddressAnnotation) as [ann|] eqn:Hann;
    [|by rewrite with_Interfaces_id].
  destruct (String.eqb ann ""); [by rewrite with_Interfaces_id|].
  destruct (json_Unmarshal ann) as [macs|] eqn:Hjson;
    [|by rewrite with_Interfaces_id].
  destruct (Nat.eqb (size macs) 0); [by rewrite with_Interfaces_id|].
  pose proof (applyMACs_fmap macs (VirtualMachine.Interfaces vm)) as Hfmap.
  pose proof (applyMACs_changed macs (VirtualMachine.Interfaces vm)) as Hch.
  pose proof (applyMACs_unchanged macs (VirtualMachine.Interfaces vm)) as Hun.
  destruct (applyMACs macs (VirtualMachine.Interfaces vm)) as [nics u].
  cbn [fst snd] in *. subst nics.
  split; [by destruct vm|]. split; [|split].
  - cbn [VirtualMachine.Interfaces with_Interfaces].
    rewrite <- list_fmap_compose. apply list_fmap_ext. intros _ nic _. simpl.
    by destruct (applyMAC_cases macs nic) as [->|(_ & mac & _ & _ & ->)].
  - intros i nic Hi. cbn [VirtualMachine.Interfaces with_Interfaces].
    rewrite list_lookup_fmap, Hi. simpl. eexists. split; [done|].
    destruct (applyMAC_cases macs nic) as [->|(Hm & mac & Hl & Hmac & ->)];
      [by left|].
    right. simpl. split; [done|]. split; [done|]. by exists ann, macs.
  - split.
    + intros -> Heq. apply Hch; [done|].
      by rewrite <- Heq at 2.
    + intros Hne. destruct u; [done|]. destruct Hne.
      rewrite Hun by done. apply with_Interfaces_id.
Qed.

(* --------------------------------------------------------------------- *)
(** *** The desired mapping, entry by entry *)
(* --------------------------------------------------------------------- *)

Lemma seed_fold_lookup (nics : list Interface.t) (acc : gmap string NetworkConfig.t)
  (k : string) (nc : NetworkConfig.t) :
  foldl (λ ncm nic,
           if String.eqb (Interface.MacAddress nic) "" then ncm
           else <[Interface.Name nic :=
                    NetworkConfig.Build "" (Interface.MacAddress nic)]> ncm)
        acc nics !! k = Some nc →
  acc !! k = Some nc
  ∨ ∃ nic, nic ∈ nics ∧ Interface.Name nic = k ∧ Interface.MacAddress nic ≠ ""
           ∧ nc = NetworkConfig.Build "" (Interface.MacAddress nic).
Proof.
  revert acc. induction nics as [|nic nics IH]; intros acc; simpl; [by left|].
  intros Hl. apply IH in Hl as [Hl|(nic' & Hin & ? & ? & ?)].
  - destruct (String.eqb (Interface.MacAddress nic) "") eqn:Hm; [by left|].
    apply String.eqb_neq in Hm.
    apply lookup_insert_Some in Hl as [[<- <-]|[_ Hl]]; [|by left].
    right. exists nic. split; [apply list_elem_of_here|done].
  - right. exists nic'. split; [by apply list_elem_of_further|done].
Qed.

Lemma attach_fold_lookup (networks : list Network.t)
  (acc : gmap string NetworkConfig.t) (k : string) (nc : NetworkConfig.t) :
  attachNetworkNames networks acc !! k = Some nc →
  ∃ nc0, acc !! k = Some nc0
         ∧ NetworkConfig.MACAddress nc = NetworkConfig.MACAddress nc0
         ∧ (nc = nc0
            ∨ ∃ net m, net ∈ networks ∧ Network.Name net = k
                       ∧ Network.Multus net = Some m
                       ∧ NetworkConfig.NetworkName nc = MultusNetwork.NetworkName m).
Proof.
  unfold attachNetworkNames. revert acc.
  induction networks as [|net networks IH]; intros acc; simpl.
  - intros Hl. exists nc. split; [done|]. split; [done|by left].
  - intros Hl. apply IH in Hl as (nc1 & Hl & Hmac & Hcase).
    assert (Hlift : (nc = nc1
              ∨ ∃ net' m, net' ∈ networks ∧ Network.Name net' = k
                          ∧ Network.Multus net' = Some m
                          ∧ NetworkConfig.NetworkName nc = MultusNetwork.NetworkName m) →
            ∀ nc0, nc1 = nc0 →
            nc = nc0
            ∨ ∃ net' m, net' ∈ net :: networks ∧ Network.Name net' = k
                        ∧ Network.Multus net' = Some m
                        ∧ NetworkConfig.NetworkName nc = MultusNetwork.NetworkName m).
    { intros [->|(net' & m & Hin & ? & ? & ?)] nc0 <-; [by left|].
      right. exists net', m. split; [by apply list_elem_of_further|done]. }
    destruct (Network.Multus net) as [m|] eqn:Hm;
      [|exists nc1; split; [done|]; split; [done|by apply Hlift]].
    destruct (acc !! Network.Name net) as [nc0|] eqn:Hacc;
      [|exists nc1; split; [done|]; split; [done|by apply Hlift]].
    apply lookup_insert_Some in Hl as [[<- <-]|[Hne Hl]];
      [|exists nc1; split; [done|]; split; [done|by apply Hlift]].
    exists nc0. split; [done|]. split; [by rewrite Hmac|].
    right. destruct Hcase as [->|(net' & m' & Hin & ? & ? & ?)].
    + exists net, m. split; [apply list_elem_of_here|done].
    + exists net', m'. split; [by apply list_elem_of_further|done].
Qed.

(** X8.  Every entry of the desired mapping is complete and comes from the
    VM: its MAC address and its network name are not empty, the MAC
    address is that of an interface of the VM with the entry's key as its
    name, the network name is that of a Multus network of the VM with the
    same name, and the network name resolves to a pool with the VM's
    namespace as fallback. *)
Theorem desiredMapping_entries (c : Cluster) (vm : VirtualMachine.t)
  (k : string) (nc : NetworkConfig.t) :
  desiredMapping c vm !! k = Some nc →
  NetworkConfig.MACAddress nc ≠ ""
  ∧ NetworkConfig.NetworkName nc ≠ ""
  ∧ (∃ nic, nic ∈ VirtualMachine.Interfaces vm ∧ Interface.Name nic = k
            ∧ Interface.MacAddress nic = NetworkConfig.MACAddress nc)
  ∧ (∃ net m, net ∈ VirtualMachine.Networks vm ∧ Network.Name net = k
              ∧ Network.Multus net = Some m
              ∧ MultusNetwork.NetworkName m = NetworkConfig.NetworkName nc)
  ∧ resolvesIn c (VirtualMachine.Namespace vm) (NetworkConfig.NetworkName nc).
Proof.
  intros [Hl Hres]%desiredMapping_lookup.
  unfold unfilteredMapping, removeIncomplete in Hl.
  apply map_lookup_filter_Some in Hl as [Hl Hname]. simpl in Hname.
  apply attach_fold_lookup in Hl as (nc0 & Hseed & Hmac & Hcase).
  unfold seedNetworkConfigs in Hseed.
  apply seed_fold_lookup in Hseed as [Hseed|(nic & Hin & Hk & Hm & ->)];
    [by rewrite lookup_empty in Hseed|].
  simpl in *. split; [by rewrite Hmac|]. split; [done|].
  split; [by exists nic|]. split; [|done].
  destruct Hcase as [->|(net & m & ? & ? & ? & ?)]; [done|].
  by exists net, m.
Qed.

Lemma seed_fold_other (nics : list Interface.t) (acc : gmap string NetworkConfig.t)
  (k : string) :
  k ∉ Interface.Name <$> nics →
  foldl (λ ncm nic,
           if String.eqb (Interface.MacAddress nic) "" then ncm
           else <[Interface.Name nic :=
                    NetworkConfig.Build "" (Interface.MacAddress nic)]> ncm)
        acc nics !! k = acc !! k.
Proof.
  revert acc. induction nics as [|nic nics IH]; intros acc Hk; simpl; [done|].
  rewrite fmap_cons in Hk. apply not_elem_of_cons in Hk as [Hne Hk].
  rewrite IH by done.
  destruct (String.eqb (Interface.MacAddress nic) ""); [done|].
  by rewrite lookup_insert_ne.
Qed.

Lemma seed_fold_NoDup (nics : list Interface.t) (acc : gmap string NetworkConfig.t)
  (nic : Interface.t) :
  NoDup (Interface.Name <$> nics) → nic ∈ nics → Interface.MacAddress nic ≠ "" →
  foldl (λ ncm nic,
           if String.eqb (Interface.MacAddress nic) "" then ncm
           else <[Interface.Name nic :=
                    NetworkConfig.Build "" (Interface.MacAddress nic)]> ncm)
        acc nics !! Interface.Name nic
  = Some (NetworkConfig.Build "" (Interface.MacAddress nic)).
Proof.
  revert acc. induction nics as [|x nics IH]; intros acc Hnd Hin Hm.
  - by apply elem_of_nil in Hin.
  - rewrite fmap_cons in Hnd. apply NoDup_cons in Hnd as [Hx Hnd].
    simpl. apply elem_of_cons in Hin as [->|Hin]; [|by apply IH].
    rewrite seed_fold_other by done.
    apply String.eqb_neq in Hm. rewrite Hm. apply lookup_insert_eq.
Qed.

Lemma attach_fold_other (networks : list Network.t)
  (acc : gmap string NetworkConfig.t) (k : string) :
  k ∉ Network.Name <$> networks →
  attachNetworkNames networks acc !! k = acc !! k.
Proof.
  unfold attachNetworkNames. revert acc.
  induction networks as [|net networks IH]; intros acc Hk; simpl; [done|].
  rewrite fmap_cons in Hk. apply not_elem_of_cons in Hk as [Hne Hk].
  rewrite IH by done.
  destruct (Network.Multus net); [|done].
  destruct (acc !! Network.Name net); [|done].
  by rewrite lookup_insert_ne.
Qed.

Lemma attach_fold_NoDup (networks : list Network.t)
  (acc : gmap string NetworkConfig.t) (net : Network.t) (m : MultusNetwork.t)
  (nc0 : NetworkConfig.t) :
  NoDup (Network.Name <$> networks) → net ∈ networks →
  Network.Multus net = Some m → acc !! Network.Name net = Some nc0 →
  attachNetworkNames networks acc !! Network.Name net
  = Some (NetworkConfig.Build (MultusNetwork.NetworkName m)
            (NetworkConfig.MACAddress nc0)).
Proof.
  revert acc. induction networks as [|x networks IH]; intros acc Hnd Hin Hm Hacc.
  - by apply elem_of_nil in Hin.
  - rewrite fmap_cons in Hnd. apply NoDup_cons in Hnd as [Hx Hnd].
    apply elem_of_cons in Hin as [->|Hin].
    + unfold attachNetworkNames. simpl. rewrite Hm, Hacc.
      fold (attachNetworkNames networks
              (<[Network.Name x :=
                   NetworkConfig.Build (MultusNetwork.NetworkName m)
                     (NetworkConfig.MACAddress nc0)]> acc)).
      rewrite attach_fold_other by done. apply lookup_insert_eq.
    + assert (Hne : Network.Name x ≠ Network.Name net).
      { intros Heq. apply Hx. rewrite Heq. by apply list_elem_of_fmap_2. }
      unfold attachNetworkNames. simpl.
      destruct (Network.Multus x) as [mx|]; [|by apply IH].
      destruct (acc !! Network.Name x) as [ncx|]; [|by apply IH].
      apply IH; [done..|]. by rewrite lookup_insert_ne.
Qed.

(** X9.  When the interfaces of a VM have pairwise different names and so
    have its networks, the map built before the pool filter holds, under
    the name of an interface, exactly the pair of the Multus network name
    of the network of that name and the MAC address of the interface,
    provided neither is empty; it holds nothing else. *)
Theorem unfilteredMapping_exact (vm : VirtualMachine.t)
  (k : string) (nc : NetworkConfig.t) :
  NoDup (Interface.Name <$> VirtualMachine.Interfaces vm) →
  NoDup (Network.Name <$> VirtualMachine.Networks vm) →
  unfilteredMapping vm !! k = Some nc
  ↔ ∃ nic net m,
      nic ∈ VirtualMachine.Interfaces vm ∧ Interface.Name nic = k
      ∧ net ∈ VirtualMachine.Networks vm ∧ Network.Name net = k
      ∧ Network.Multus net = Some m
      ∧ Interface.MacAddress nic ≠ ""
      ∧ MultusNetwork.NetworkName m ≠ ""
      ∧ nc = NetworkConfig.Build (MultusNetwork.NetworkName m)
               (Interface.MacAddress nic).
Proof.
  intros Hnics Hnets. unfold unfilteredMapping, removeIncomplete. split.
  - intros Hl. apply map_lookup_filter_Some in Hl as [Hl Hname]. simpl in Hname.
    apply attach_fold_lookup in Hl as (nc0 & Hseed & Hmac & Hcase).
    unfold seedNetworkConfigs in Hseed.
    apply seed_fold_lookup in Hseed as [Hseed|(nic & Hin & Hk & Hm & ->)];
      [by rewrite lookup_empty in Hseed|].
    destruct Hcase as [->|(net & m & ? & ? & ? & Hn)]; [done|].
    exists nic, net, m. simpl in *. rewrite <- Hn.
    split_and!; try done. destruct nc. simpl in *. by subst.
  - intros (nic & net & m & Hin & <- & Hnet & Hk & Hm & Hmac & Hname & ->).
    apply map_lookup_filter_Some. split; [|done].
    rewrite <- Hk.
    rewrite (attach_fold_NoDup _ _ net m
               (NetworkConfig.Build "" (Interface.MacAddress nic))); [done..|].
    rewrite Hk. unfold seedNetworkConfigs. by apply seed_fold_NoDup.
Qed.

End ReconcilerProperties.

Section PassProperties.
Context `{Externals} `{MapOrder}.

Local Ltac unfold_pass' :=
  unfold syncVmNetCfg, bind, ret, vmnetcfgCache_Get, vmnetcfgClient_Create,
    vmnetcfgClient_Update, vmnetcfgClient_UpdateStatus, vmController_Enqueue,
    bind, record, ret, set_vmnetcfgs.

Local Ltac split_pass' :=
  repeat (simpl; match goal with
          | |- context [match ?x with _ => _ end] =>
              lazymatch x with
              | context [match _ with _ => _ end] => fail
              | _ => destruct x eqn:?
              end
          end).

(** The end of [OnChange], whatever the store holds and plans: what it
    returns, what it adds to the trace and what it leaves in the store. *)
Lemma syncVmNetCfg_outcomes key vm ncm c :
  let r := syncVmNetCfg key vm ncm c in
  let k := (VirtualMachine.Namespace vm, VirtualMachine.Name vm) in
  let spec := (rangeOrder ncm).*2 in
  r.1.1 = Some vm
  ∧ vms r.2 = vms c ∧ nads r.2 = nads c ∧ ippools r.2 = ippools c
  ∧ faults r.2 = faults c
  ∧ (r.2 = c
     ∨ (calls r.2 = calls c ++ [CallCreate (prepareVmNetCfg vm ncm)]
        ∧ ((vmnetcfgs r.2 = vmnetcfgs c ∧ is_Some r.1.2)
           ∨ (r.1.2 = None ∧ vmnetcfgs c !! k = None
              ∧ vmnetcfgs r.2 = <[k := prepareVmNetCfg vm ncm]> (vmnetcfgs c))))
     ∨ (∃ old,
          vmnetcfgs c !! k = Some old
          ∧ Cond_IsFalse InSynced old = true
          ∧ VirtualMachineNetworkConfig.NetworkConfigs old ≠ spec
          ∧ calls r.2 = calls c ++ [CallUpdate (with_NetworkConfigs old spec)]
          ∧ ((vmnetcfgs r.2 = vmnetcfgs c ∧ is_Some r.1.2)
             ∨ (r.1.2 = None
                ∧ ∃ stored,
                    vmnetcfgs c !! (VirtualMachineNetworkConfig.Namespace old,
                                    VirtualMachineNetworkConfig.Name old) = Some stored
                    ∧ vmnetcfgs r.2
                      = <[(VirtualMachineNetworkConfig.Namespace old,
                           VirtualMachineNetworkConfig.Name old)
                          := VirtualMachineNetworkConfig.Build
                               (VirtualMachineNetworkConfig.Kind old)
                               (VirtualMachineNetworkConfig.Namespace old)
                               (VirtualMachineNetworkConfig.Name old)
                               spec
                               (VirtualMachineNetworkConfig.Conditions stored)]>
                          (vmnetcfgs c))))
     ∨ (∃ old,
          vmnetcfgs c !! k = Some old
          ∧ Cond_IsFalse InSynced old = false
          ∧ VirtualMachineNetworkConfig.NetworkConfigs old ≠ spec
          ∧ ((calls r.2
              = calls c ++ [CallUpdateStatus (markOutOfSync (with_NetworkConfigs old spec))]
              ∧ vmnetcfgs r.2 = vmnetcfgs c ∧ is_Some r.1.2)
             ∨ (calls r.2
                = calls c ++ [CallUpdateStatus (markOutOfSync (with_NetworkConfigs old spec));
                              CallEnqueue (VirtualMachine.Namespace vm)
                                (VirtualMachine.Name vm)]
                ∧ r.1.2 = None
                ∧ ∃ stored,
                    vmnetcfgs c !! (VirtualMachineNetworkConfig.Namespace old,
                                    VirtualMachineNetworkConfig.Name old) = Some stored
                    ∧ vmnetcfgs r.2
                      = <[(VirtualMachineNetworkConfig.Namespace old,
                           VirtualMachineNetworkConfig.Name old)
                          := VirtualMachineNetworkConfig.Build
                               (VirtualMachineNetworkConfig.Kind stored)
                               (VirtualMachineNetworkConfig.Namespace stored)
                               (VirtualMachineNetworkConfig.Name stored)
                               (VirtualMachineNetworkConfig.NetworkConfigs stored)
                               (<[InSynced := outOfSyncCondition]>
                                  (VirtualMachineNetworkConfig.Conditions old))]>
                          (vmnetcfgs c))))).
Proof.
  cbv zeta.
  destruct (faults c OpGet) as [eg|] eqn:Hg.
  - unfold_pass'. rewrite Hg. simpl.
    destruct (IsNotFound eg) eqn:Hnf; simpl; [|by split_and!; try done; left].
    destruct (faults c OpCreate) as [ec|] eqn:Hc; simpl.
    + split_and!; try done. right. left. split; [done|]. left. by split.
    + destruct (vmnetcfgs c !! (VirtualMachine.Namespace vm, VirtualMachine.Name vm))
        as [o|] eqn:Ho; simpl.
      * split_and!; try done. right. left. split; [done|]. left. by split.
      * split_and!; try done. right. left. split; [done|]. right. by split_and!.
  - destruct (vmnetcfgs c !! (VirtualMachine.Namespace vm, VirtualMachine.Name vm))
      as [old|] eqn:Hold.
    + destruct (decide (VirtualMachineNetworkConfig.NetworkConfigs old
                        = (rangeOrder ncm).*2)) as [Heq|Hne].
      { unfold_pass'. rewrite Hg, Hold. simpl.
        rewrite bool_decide_eq_true_2 by done. simpl.
        split_and!; try done. by left. }
      destruct (Cond_IsFalse InSynced old) eqn:Hf.
      * unfold_pass'. rewrite Hg, Hold. simpl.
        rewrite bool_decide_eq_false_2 by (intros Heq; by apply Hne). simpl.
        rewrite Hf.
        destruct (faults c OpUpdate) as [eu|] eqn:Hu; simpl.
        { split_and!; try done. right. right. left. exists old.
          split_and!; try done. left. by split. }
        destruct (vmnetcfgs c !! (VirtualMachineNetworkConfig.Namespace old,
                                  VirtualMachineNetworkConfig.Name old))
          as [stored|] eqn:Hst; simpl.
        { split_and!; try done. right. right. left. exists old.
          split_and!; try done. right. split; [done|]. by exists stored. }
        { split_and!; try done. right. right. left. exists old.
          split_and!; try done. left. by split. }
      * unfold_pass'. rewrite Hg, Hold. cbn -[markOutOfSync Cond_Message].
        rewrite bool_decide_eq_false_2 by (intros Heq; by apply Hne).
        cbn -[markOutOfSync Cond_Message]. rewrite Hf.
        change (Cond_Message InSynced _ _)
          with (markOutOfSync (with_NetworkConfigs old ((rangeOrder ncm).*2))).
        destruct (markOutOfSync_meta (with_NetworkConfigs old ((rangeOrder ncm).*2)))
          as (_ & -> & -> & _).
        rewrite markOutOfSync_Conditions. cbn -[markOutOfSync].
        destruct (faults c OpUpdateStatus) as [eu|] eqn:Hu; cbn -[markOutOfSync].
        { split_and!; try done. right. right. right. exists old.
          split_and!; try done. left. by split_and!. }
        destruct (vmnetcfgs c !! (VirtualMachineNetworkConfig.Namespace old,
                                  VirtualMachineNetworkConfig.Name old))
          as [stored|] eqn:Hst; cbn -[markOutOfSync].
        { split_and!; try done. right. right. right. exists old.
          split_and!; try done. right. split; [by rewrite <- app_assoc|].
          split; [done|]. by exists stored. }
        { split_and!; try done. right. right. right. exists old.
          split_and!; try done. left. by split_and!. }
    + unfold_pass'. rewrite Hg, Hold. simpl.
      destruct (faults c OpCreate) as [ec|] eqn:Hc; simpl.
      * split_and!; try done. right. left. split; [done|]. left. by split.
      * rewrite Hold. simpl.
        split_and!; try done. right. left. split; [done|]. right. by split_and!.
Qed.

Lemma reconcileNetworkConfig_cases key vm c :
  reconcileNetworkConfig key vm c = (Some vm, None, c)
  ∨ reconcileNetworkConfig key vm c = syncVmNetCfg key vm (desiredMapping c vm) c.
Proof.
  unfold reconcileNetworkConfig.
  destruct (Nat.eqb (length (VirtualMachine.Interfaces vm)) 0); [by left|].
  destruct (Nat.eqb (size (desiredMapping c vm)) 0); [by left|by right].
Qed.

Lemma afterMAC_calls vm c : calls (afterMAC vm c) = calls c ++ macCalls vm.
Proof.
  unfold afterMAC, macCalls. destruct (macUpdated vm); simpl; [done|].
  by rewrite app_nil_r.
Qed.

Lemma OnChange_tail key v c :
  OnChange key v c = (None, None, c)
  ∨ (∃ vm e,
       v = Some vm ∧ macUpdated vm = true
       ∧ OnChange key v c
         = (None, Some e,
            mkCluster (vms c) (vmnetcfgs c) (nads c) (ippools c) (faults c)
              (calls c ++ [CallVMUpdate (vmInHand vm)])))
  ∨ (∃ vm,
       v = Some vm
       ∧ (OnChange key v c = (Some (vmInHand vm), None, afterMAC vm c)
          ∨ OnChange key v c
            = syncVmNetCfg key (vmInHand vm) (desiredMapping c (vmInHand vm))
                (afterMAC vm c))).
Proof.
  destruct (OnChange_cases key v c) as [Hc|[Hc|(vm & -> & Hc)]];
    [by left|by right; left|].
  right. right. exists vm. split; [done|]. rewrite Hc.
  destruct (reconcileNetworkConfig_cases key (vmInHand vm) (afterMAC vm c)) as [->| ->];
    [by left|right].
  by rewrite desiredMapping_afterMAC.
Qed.

(** X10.  Whatever the store holds and whichever failures it plans, a
    pass calls the store at most twice and in this order: at most one
    update of the VM, with the VM that has the MAC addresses applied, and
    at most one write on the per-VM resource, a create, an update or a
    status update.  It enqueues the VM, under its own namespace and name,
    only right after a status update, and then returns no error; a status
    update that is not followed by the enqueue has failed.  The pass
    changes neither the interface definitions nor the pools nor the
    planned failures, and changes the VMs only by storing the VM of the
    update under its namespace and name. *)
Theorem OnChange_call_discipline (key : string) (v : option VirtualMachine.t)
  (c : Cluster) :
  let r := OnChange key v c in
  nads r.2 = nads c ∧ ippools r.2 = ippools c ∧ faults r.2 = faults c
  ∧ ∃ pre post,
      calls r.2 = calls c ++ pre ++ post
      ∧ ((pre = [] ∧ vms r.2 = vms c)
         ∨ ∃ vm, v = Some vm ∧ macUpdated vm = true
                 ∧ pre = [CallVMUpdate (vmInHand vm)]
                 ∧ (vms r.2 = vms c
                    ∨ vms r.2
                      = <[(VirtualMachine.Namespace vm, VirtualMachine.Name vm)
                          := vmInHand vm]> (vms c)))
      ∧ (post = []
         ∨ (∃ o, post = [CallCreate o])
         ∨ (∃ o, post = [CallUpdate o])
         ∨ (∃ o, post = [CallUpdateStatus o] ∧ is_Some r.1.2)
         ∨ (∃ o vm, v = Some vm
                    ∧ post = [CallUpdateStatus o;
                              CallEnqueue (VirtualMachine.Namespace vm)
                                (VirtualMachine.Name vm)]
                    ∧ r.1.2 = None)).
Proof.
  cbv zeta.
  destruct (OnChange_tail key v c)
    as [->|[(vm & e & -> & Hu & ->)|(vm & -> & [->|Hs])]].
  - split_and!; try done. exists [], []. rewrite app_nil_r. simpl.
    split; [done|]. split; [by left|by left].
  - split_and!; try done. exists [CallVMUpdate (vmInHand vm)], []. simpl.
    split; [done|]. split; [|by left].
    right. exists vm. split_and!; try done. by left.
  - cbn [fst snd].
    destruct (afterMAC_frame vm c) as (_ & -> & -> & -> & Hcalls).
    split_and!; try done. exists (macCalls vm), []. simpl.
    rewrite app_nil_r. split; [done|]. split; [|by left].
    unfold macCalls.
    destruct (afterMAC_vms vm c) as [[Hu ->]|(Hu & Hv & _)]; rewrite Hu;
      [by left|].
    right. exists vm. split_and!; try done. by right.
  - rewrite Hs.
    pose proof (syncVmNetCfg_outcomes key (vmInHand vm)
                  (desiredMapping c (vmInHand vm)) (afterMAC vm c)) as Ho.
    cbv zeta in Ho.
    destruct (vmInHand_meta vm) as (Hns & Hname & _). rewrite Hns, Hname in Ho.
    destruct Ho as (_ & Hv & Hn & Hi & Hf & Ho).
    destruct (afterMAC_frame vm c) as (_ & Hn' & Hi' & Hf' & Hcalls).
    rewrite Hn, Hi, Hf, Hn', Hi', Hf'. split_and!; try done.
    assert (Hpre : (macCalls vm = []
                    ∧ vms (syncVmNetCfg key (vmInHand vm)
                             (desiredMapping c (vmInHand vm)) (afterMAC vm c)).2
                      = vms c)
              ∨ ∃ vm0, Some vm = Some vm0 ∧ macUpdated vm0 = true
                       ∧ macCalls vm = [CallVMUpdate (vmInHand vm0)]
                       ∧ (vms (syncVmNetCfg key (vmInHand vm)
                                 (desiredMapping c (vmInHand vm)) (afterMAC vm c)).2
                          = vms c
                          ∨ vms (syncVmNetCfg key (vmInHand vm)
                                   (desiredMapping c (vmInHand vm)) (afterMAC vm c)).2
                            = <[(VirtualMachine.Namespace vm0, VirtualMachine.Name vm0)
                                := vmInHand vm0]> (vms c))).
    { rewrite Hv. unfold macCalls.
      destruct (afterMAC_vms vm c) as [[Hu ->]|(Hu & Hv' & _)]; rewrite Hu;
        [by left|].
      right. exists vm. split_and!; try done. by right. }
    destruct Ho as [Ho|[(Hc & _)|[(old & _ & _ & _ & Hc & _)
                                 |(old & _ & _ & _ & [(Hc & _ & He)|(Hc & He & _)])]]].
    + exists (macCalls vm), []. rewrite Ho, Hcalls, app_nil_r.
      split; [done|]. split; [by rewrite <- Ho|by left].
    + exists (macCalls vm), [CallCreate (prepareVmNetCfg (vmInHand vm)
                                          (desiredMapping c (vmInHand vm)))].
      rewrite Hc, Hcalls, <- app_assoc. split; [done|]. split; [done|].
      right. left. by eexists.
    + eexists (macCalls vm), [_].
      rewrite Hc, Hcalls, <- app_assoc. split; [done|]. split; [done|].
      right. right. left. by eexists.
    + eexists (macCalls vm), [_].
      rewrite Hc, Hcalls, <- app_assoc. split; [done|]. split; [done|].
      right. right. right. left. by eexists.
    + eexists (macCalls vm), [_; _].
      rewrite Hc, Hcalls, <- app_assoc. split; [done|]. split; [done|].
      right. right. right. right. eexists _, vm. by split_and!.
Qed.

(** X11.  A pass that returns an error has left the per-VM resources of
    the store as they were, and has not enqueued the VM. *)
Theorem OnChange_error_leaves_resources (key : string)
  (v : option VirtualMachine.t) (c : Cluster) (e : error) :
  (OnChange key v c).1.2 = Some e →
  vmnetcfgs (OnChange key v c).2 = vmnetcfgs c
  ∧ ∃ l, calls (OnChange key v c).2 = calls c ++ l
         ∧ ∀ ns name, CallEnqueue ns name ∉ l.
Proof.
  destruct (OnChange_tail key v c)
    as [->|[(vm & e' & -> & Hu & ->)|(vm & -> & [->|Hs])]]; cbn [fst snd calls vmnetcfgs];
    try done.
  - intros _. split; [done|]. eexists. split; [done|].
    intros ns name Hin. apply list_elem_of_singleton in Hin. done.
  - rewrite Hs.
    pose proof (syncVmNetCfg_outcomes key (vmInHand vm)
                  (desiredMapping c (vmInHand vm)) (afterMAC vm c)) as Ho.
    cbv zeta in Ho.
    destruct Ho as (_ & _ & _ & _ & _ & Ho).
    destruct (afterMAC_frame vm c) as (Hcfg & _ & _ & _ & Hcalls).
    assert (Hmac : ∀ ns name, CallEnqueue ns name ∉ macCalls vm).
    { intros ns name. unfold macCalls. destruct (macUpdated vm).
      - intros Hin. apply list_elem_of_singleton in Hin. done.
      - apply not_elem_of_nil. }
    intros He.
    destruct Ho as [Ho|[(Hc & [(Hst & _)|(Hn & _)])
                       |[(old & _ & _ & _ & Hc & [(Hst & _)|(Hn & _)])
                        |(old & _ & _ & _ & [(Hc & Hst & _)|(_ & Hn & _)])]]];
      try congruence.
    + rewrite Ho, Hcfg, Hcalls. split; [done|]. by exists (macCalls vm).
    + rewrite Hst, Hcfg, Hc, Hcalls, <- app_assoc. split; [done|].
      eexists. split; [done|]. intros ns name Hin.
      apply elem_of_app in Hin as [Hin|Hin]; [by apply Hmac in Hin|].
      apply list_elem_of_singleton in Hin. done.
    + rewrite Hst, Hcfg, Hc, Hcalls, <- app_assoc. split; [done|].
      eexists. split; [done|]. intros ns name Hin.
      apply elem_of_app in Hin as [Hin|Hin]; [by apply Hmac in Hin|].
      apply list_elem_of_singleton in Hin. done.
    + rewrite Hst, Hcfg, Hc, Hcalls, <- app_assoc. split; [done|].
      eexists. split; [done|]. intros ns name Hin.
      apply elem_of_app in Hin as [Hin|Hin]; [by apply Hmac in Hin|].
      apply list_elem_of_singleton in Hin. done.
Qed.

(** X12.  On a store that keeps every object under its own namespace and
    name, a pass keeps it so and removes no per-VM resource.  A resource
    is after the pass what it was before, or, if its in-sync condition was
    False, the same with another spec and the conditions untouched, or, if
    the condition was not False, the same with the in-sync condition set
    to False with reason NetworkConfigChanged and the spec untouched: no
    pass changes the spec of a resource that is not marked out of sync,
    and none changes both.  The only resource a pass changes or creates is
    the one under the namespace and name of the VM it is called for. *)
Theorem OnChange_two_phase_safety (key : string) (v : option VirtualMachine.t)
  (c : Cluster) :
  WellKeyed c →
  let r := OnChange key v c in
  WellKeyed r.2
  ∧ (∀ k o, vmnetcfgs c !! k = Some o →
       ∃ o', vmnetcfgs r.2 !! k = Some o'
             ∧ (o' = o
                ∨ (Cond_IsFalse InSynced o = true
                   ∧ VirtualMachineNetworkConfig.NetworkConfigs o'
                     ≠ VirtualMachineNetworkConfig.NetworkConfigs o
                   ∧ o' = with_NetworkConfigs o
                            (VirtualMachineNetworkConfig.NetworkConfigs o'))
                ∨ (Cond_IsFalse InSynced o = false
                   ∧ o' = VirtualMachineNetworkConfig.Build
                            (VirtualMachineNetworkConfig.Kind o)
                            (VirtualMachineNetworkConfig.Namespace o)
                            (VirtualMachineNetworkConfig.Name o)
                            (VirtualMachineNetworkConfig.NetworkConfigs o)
                            (<[InSynced := outOfSyncCondition]>
                               (VirtualMachineNetworkConfig.Conditions o)))))
  ∧ (∀ k, (∀ vm, v = Some vm →
                 k ≠ (VirtualMachine.Namespace vm, VirtualMachine.Name vm)) →
          vmnetcfgs r.2 !! k = vmnetcfgs c !! k).
Proof.
  intros Hwk. cbv zeta.
  assert (Hid : ∀ c', WellKeyed c' → vmnetcfgs c' = vmnetcfgs c →
            WellKeyed c'
            ∧ (∀ k o, vmnetcfgs c !! k = Some o →
                 ∃ o', vmnetcfgs c' !! k = Some o'
                       ∧ (o' = o
                          ∨ (Cond_IsFalse InSynced o = true
                             ∧ VirtualMachineNetworkConfig.NetworkConfigs o'
                               ≠ VirtualMachineNetworkConfig.NetworkConfigs o
                             ∧ o' = with_NetworkConfigs o
                                      (VirtualMachineNetworkConfig.NetworkConfigs o'))
                          ∨ (Cond_IsFalse InSynced o = false
                             ∧ o' = VirtualMachineNetworkConfig.Build
                                      (VirtualMachineNetworkConfig.Kind o)
                                      (VirtualMachineNetworkConfig.Namespace o)
                                      (VirtualMachineNetworkConfig.Name o)
                                      (VirtualMachineNetworkConfig.NetworkConfigs o)
                                      (<[InSynced := outOfSyncCondition]>
                                         (VirtualMachineNetworkConfig.Conditions o)))))
            ∧ (∀ k, (∀ vm, v = Some vm →
                           k ≠ (VirtualMachine.Namespace vm, VirtualMachine.Name vm)) →
                    vmnetcfgs c' !! k = vmnetcfgs c !! k)).
  { intros c' Hwk' Heq. split; [done|]. rewrite Heq. split; [|done].
    intros k o Ho. exists o. split; [done|by left]. }
  destruct (OnChange_tail key v c)
    as [->|[(vm & e' & -> & Hu & ->)|(vm & -> & [->|Hs])]]; cbn [fst snd].
  - by apply Hid.
  - apply Hid; [|done]. by destruct Hwk.
  - apply Hid; [by apply WellKeyed_afterMAC|]. by destruct (afterMAC_frame vm c).
  - rewrite Hs. clear Hs.
    pose proof (syncVmNetCfg_outcomes key (vmInHand vm)
                  (desiredMapping c (vmInHand vm)) (afterMAC vm c)) as Ho.
    cbv zeta in Ho.
    destruct (vmInHand_meta vm) as (Hns & Hname & _). rewrite Hns, Hname in Ho.
    pose proof (WellKeyed_afterMAC vm c Hwk) as Hwk1.
    destruct (afterMAC_frame vm c) as (Hcfg & _). rewrite Hcfg in Ho.
    set (r := syncVmNetCfg key (vmInHand vm) (desiredMapping c (vmInHand vm))
                (afterMAC vm c)) in *.
    destruct Ho as (_ & Hv & _ & _ & _ & Ho).
    assert (Hvms : ∀ k x, vms r.2 !! k = Some x →
              k = (VirtualMachine.Namespace x, VirtualMachine.Name x)).
    { rewrite Hv. by destruct Hwk1. }
    assert (Hsame : vmnetcfgs r.2 = vmnetcfgs c → WellKeyed r.2).
    { intros Heq. split; [done|]. rewrite Heq. by destruct Hwk. }
    destruct Ho as [Ho|[(_ & [(Hst & _)|(_ & Hno & Hst)])
                       |[(old & Hold & Hf & Hne & _ & [(Hst & _)|(_ & st & Hst & Hnew)])
                        |(old & Hold & Hf & Hne & [(_ & Hst & _)|(_ & _ & st & Hst & Hnew)])]]].
    + apply Hid; [by rewrite Ho|by rewrite Ho].
    + apply Hid; [by apply Hsame|done].
    + split; [|split].
      * split; [done|]. rewrite Hst. intros k o.
        rewrite lookup_insert. case_decide as Hk.
        -- intros [= <-]. rewrite <- Hk. simpl. by rewrite Hns, Hname.
        -- by apply Hwk.
      * intros k o Hko. exists o. split; [|by left].
        rewrite Hst, lookup_insert_ne; [done|]. intros <-. congruence.
      * intros k Hk. rewrite Hst, lookup_insert_ne; [done|].
        intros <-. by apply (Hk vm).
    + apply Hid; [by apply Hsame|done].
    + destruct Hwk as [Hwv Hwo].
      pose proof (Hwo _ _ Hold) as Hkey. rewrite <- Hkey in Hst, Hnew.
      assert (st = old) as -> by congruence.
      split; [|split].
      * split; [done|]. rewrite Hnew. intros k o.
        rewrite lookup_insert. case_decide as Hk.
        -- intros [= <-]. by rewrite <- Hk.
        -- by apply Hwo.
      * intros k o Hko. rewrite Hnew, lookup_insert. case_decide as Hk.
        -- subst k. assert (o = old) as -> by congruence.
           eexists. split; [done|]. right. left. simpl.
           split; [done|]. split; [by intros Heq; apply Hne|done].
        -- exists o. split; [done|by left].
      * intros k Hk. rewrite Hnew, lookup_insert_ne; [done|].
        intros <-. by apply (Hk vm).
    + apply Hid; [by apply Hsame|done].
    + destruct Hwk as [Hwv Hwo].
      pose proof (Hwo _ _ Hold) as Hkey. rewrite <- Hkey in Hst, Hnew.
      assert (st = old) as -> by congruence.
      split; [|split].
      * split; [done|]. rewrite Hnew. intros k o.
        rewrite lookup_insert. case_decide as Hk.
        -- intros [= <-]. by rewrite <- Hk.
        -- by apply Hwo.
      * intros k o Hko. rewrite Hnew, lookup_insert. case_decide as Hk.
        -- subst k. assert (o = old) as -> by congruence.
           eexists. split; [done|]. right. right. by split.
        -- exists o. split; [done|by left].
      * intros k Hk. rewrite Hnew, lookup_insert_ne; [done|].
        intros <-. by apply (Hk vm).
Qed.

End PassProperties.

Section RevisionProperties.
Context `{Externals} `{MapOrder}.

Lemma unfiltered_resolving c vm :
  (∀ k nc, unfilteredMapping vm !! k = Some nc →
           resolvesIn c (VirtualMachine.Namespace vm) (NetworkConfig.NetworkName nc)) →
  desiredMapping c vm = desiredMapping_basic vm.
Proof.
  intros Hres. unfold desiredMapping, filterIPPools, desiredMapping_basic.
  fold (unfilteredMapping vm). apply map_filter_id.
  intros k nc Hl. simpl. apply hasIPPool_resolves. by apply (Hres k).
Qed.

Lemma reconcileNetworkConfig_agree key vm c :
  desiredMapping c vm = desiredMapping_basic vm →
  reconcileNetworkConfig_basic key vm c = reconcileNetworkConfig key vm c.
Proof.
  intros Heq. unfold reconcileNetworkConfig_basic. rewrite <- Heq. unfold ret.
  destruct (decide (desiredMapping c vm = ∅)) as [He|Hne].
  - rewrite reconcileNetworkConfig_empty by done. by rewrite He.
  - rewrite reconcileNetworkConfig_nonempty by done.
    destruct (Nat.eqb (size (desiredMapping c vm)) 0) eqn:Hs; [|done].
    apply Nat.eqb_eq, map_size_empty_iff in Hs. done.
Qed.

(** X13.  The handler under [pkg/controller/vm/controller.go], which has
    neither the test for a VM without interfaces nor the pool filter, and
    the handler with both do the same on every cluster and VM for which
    every entry built from the interfaces and networks of the VM, after
    the MAC addresses of the annotation have been applied, resolves to a
    pool: same calls, same store, same result.  In particular the test for
    a VM without interfaces changes nothing by itself. *)
Theorem OnChange_revisions_agree (key : string) (v : option VirtualMachine.t)
  (c : Cluster) :
  (∀ vm k nc, v = Some vm → unfilteredMapping (vmInHand vm) !! k = Some nc →
     resolvesIn c (VirtualMachine.Namespace vm) (NetworkConfig.NetworkName nc)) →
  OnChange_basic key v c = OnChange key v c.
Proof.
  intros Hres. destruct v as [vm|]; [|done].
  specialize (Hres vm). unfold vmInHand in Hres.
  pose proof (vmInHand_meta vm) as (Hns & _). unfold vmInHand in Hns.
  pose proof (vmInHand_not_updated vm) as Hsame.
  unfold vmInHand, macUpdated in Hsame.
  unfold OnChange_basic, OnChange.
  destruct (bool_decide (is_Some (VirtualMachine.DeletionTimestamp vm))); [done|].
  destruct (applyMACAddressAnnotation vm) as [[vmCopy updated] err].
  cbn [fst snd] in *.
  destruct err; [done|].
  assert (Hgo : ∀ c', nads c' = nads c → ippools c' = ippools c →
            reconcileNetworkConfig_basic key vmCopy c'
            = reconcileNetworkConfig key vmCopy c').
  { intros c' Hn Hi. apply reconcileNetworkConfig_agree, unfiltered_resolving.
    intros k nc Hl. unfold resolvesIn. rewrite Hn, Hi, Hns. by apply (Hres k nc). }
  destruct updated.
  - unfold bind, vmClient_Update, bind, record, ret. simpl.
    destruct (faults c OpVMUpdate); [done|]. by apply Hgo.
  - unfold bind, ret. rewrite <- (Hsame eq_refl). by apply Hgo.
Qed.

Lemma prepared_is_admitted c vm :
  Validator_Create (mkValidator (nads c) (ippools c))
    (prepareVmNetCfg vm (desiredMapping c vm)) = None.
Proof.
  unfold Validator_Create. apply Create_loop_accepts. simpl.
  apply Forall_forall. intros nc Hin.
  apply list_elem_of_fmap in Hin as ([k nc'] & -> & Hin).
  rewrite rangeOrder_perm in Hin.
  apply elem_of_map_to_list in Hin.
  apply desiredMapping_lookup in Hin as [_ Hres]. exact Hres.
Qed.

(** X14.  What the reconciler creates, the admission webhook accepts: the
    resource of a create call that a pass makes passes [Validator.Create]
    of a validator on the interface definitions and pools of the same
    cluster. *)
Theorem created_resource_is_admitted (key : string) (v : option VirtualMachine.t)
  (c : Cluster) (l : list Call) (o : VirtualMachineNetworkConfig.t) :
  calls (OnChange key v c).2 = calls c ++ l →
  CallCreate o ∈ l →
  Validator_Create (mkValidator (nads c) (ippools c)) o = None.
Proof.
  intros Hcalls Hin.
  destruct (OnChange_tail key v c)
    as [Hc|[(vm & e' & -> & Hu & Hc)|(vm & -> & [Hc|Hc])]];
    rewrite Hc in Hcalls; cbn [fst snd calls] in Hcalls.
  - rewrite <- (app_nil_r (calls c)) in Hcalls at 1.
    apply app_inv_head in Hcalls. subst l. by apply elem_of_nil in Hin.
  - apply app_inv_head in Hcalls. subst l.
    apply list_elem_of_singleton in Hin. done.
  - rewrite afterMAC_calls in Hcalls. apply app_inv_head in Hcalls. subst l.
    unfold macCalls in Hin. destruct (macUpdated vm).
    + apply list_elem_of_singleton in Hin. done.
    + by apply elem_of_nil in Hin.
  - pose proof (syncVmNetCfg_outcomes key (vmInHand vm)
                  (desiredMapping c (vmInHand vm)) (afterMAC vm c)) as Ho.
    cbv zeta in Ho. destruct Ho as (_ & _ & _ & _ & _ & Ho).
    assert (Hmac : CallCreate o ∉ macCalls vm).
    { unfold macCalls. destruct (macUpdated vm).
      - intros Hx. apply list_elem_of_singleton in Hx. done.
      - apply not_elem_of_nil. }
    rewrite afterMAC_calls in Ho.
    destruct Ho as [Ho|[(Hk & _)|[(old & _ & _ & _ & Hk & _)
                                 |(old & _ & _ & _ & [(Hk & _)|(Hk & _)])]]].
    + rewrite Ho, afterMAC_calls in Hcalls. apply app_inv_head in Hcalls.
      subst l. by apply Hmac in Hin.
    + rewrite Hk, <- app_assoc in Hcalls. apply app_inv_head in Hcalls. subst l.
      apply elem_of_app in Hin as [Hin|Hin]; [by apply Hmac in Hin|].
      apply list_elem_of_singleton in Hin. injection Hin as ->.
      apply prepared_is_admitted.
    + rewrite Hk, <- app_assoc in Hcalls. apply app_inv_head in Hcalls. subst l.
      apply elem_of_app in Hin as [Hin|Hin]; [by apply Hmac in Hin|].
      apply list_elem_of_singleton in Hin. done.
    + rewrite Hk, <- app_assoc in Hcalls. apply app_inv_head in Hcalls. subst l.
      apply elem_of_app in Hin as [Hin|Hin]; [by apply Hmac in Hin|].
      apply list_elem_of_singleton in Hin. done.
    + rewrite Hk, <- app_assoc in Hcalls. apply app_inv_head in Hcalls. subst l.
      apply elem_of_app in Hin as [Hin|Hin]; [by apply Hmac in Hin|].
      apply elem_of_cons in Hin as [Hin|Hin]; [done|].
      apply list_elem_of_singleton in Hin. done.
Qed.

End RevisionProperties.

Section SubnetProperties.
Context `{Externals}.

Lemma bytes_value_cons (x : Z) (b : list Z) :
  bytes_value (x :: b) = (x * 256 ^ Z.of_nat (length b) + bytes_value b)%Z.
Proof.
  change (x :: b) with ([x] ++ b). rewrite bytes_value_app.
  unfold bytes_value at 1. simpl. lia.
Qed.

Lemma byte_not_range m : (0 ≤ byte_not m ≤ 255)%Z.
Proof.
  unfold byte_not.
  change (Z.land (Z.lnot m) 255) with (Z.land (Z.lnot m) (Z.ones 8)).
  rewrite Z.land_ones by lia.
  pose proof (Z.mod_pos_bound (Z.lnot m) (2 ^ 8)). lia.
Qed.

Lemma byte_not_involutive m : (0 ≤ m ≤ 255)%Z → byte_not (byte_not m) = m.
Proof.
  intros Hm. transitivity (Z.land m 255).
  - apply Z.bits_inj'. intros k Hk. unfold byte_not.
    rewrite !Z.land_spec, !Z.lnot_spec, !Z.land_spec, !Z.lnot_spec by done.
    by destruct (Z.testbit m k), (Z.testbit 255 k).
  - change 255%Z with (Z.ones 8) at 1. rewrite Z.land_ones by lia.
    apply Z.mod_small. lia.
Qed.

Lemma shiftr_255 n : (0 ≤ n < 8)%Z → Z.shiftr 255 n = (2 ^ (8 - n) - 1)%Z.
Proof.
  intros Hn.
  assert (n = 0 ∨ n = 1 ∨ n = 2 ∨ n = 3 ∨ n = 4 ∨ n = 5 ∨ n = 6 ∨ n = 7)%Z
    as Hc by lia.
  repeat destruct Hc as [->|Hc]; try subst n; reflexivity.
Qed.

(** The bytes outside a mask of [n] ones, read as a number. *)
Lemma host_mask_value l n :
  (0 ≤ n ≤ 8 * Z.of_nat l)%Z →
  bytes_value (byte_not <$> CIDRMask_loop l n) = (2 ^ (8 * Z.of_nat l - n) - 1)%Z.
Proof.
  revert n. induction l as [|l IH]; intros n Hn.
  - simpl. replace n with 0%Z by lia. reflexivity.
  - cbn [CIDRMask_loop]. destruct (Z.leb_spec 8 n) as [H8|H8].
    + rewrite fmap_cons, bytes_value_cons, IH by lia.
      change (byte_not 255) with 0%Z.
      replace (8 * Z.of_nat (S l) - n)%Z with (8 * Z.of_nat l - (n - 8))%Z by lia.
      lia.
    + rewrite fmap_cons, bytes_value_cons, IH by lia.
      rewrite length_fmap, CIDRMask_loop_length.
      rewrite byte_not_involutive, shiftr_255 by
        (try rewrite shiftr_255 by lia;
         try (assert (2 ^ (8 - n) ≤ 2 ^ 8)%Z by (apply Z.pow_le_mono_r; lia);
              assert (0 < 2 ^ (8 - n))%Z by (apply Z.pow_pos_nonneg; lia));
         lia).
      replace (8 * Z.of_nat (S l) - n)%Z with ((8 - n) + 8 * Z.of_nat l)%Z by lia.
      rewrite Z.pow_add_r by lia.
      replace (8 * Z.of_nat l - 0)%Z with (8 * Z.of_nat l)%Z by lia.
      replace (256 ^ Z.of_nat l)%Z with (2 ^ (8 * Z.of_nat l))%Z
        by (rewrite Z.pow_mul_r by lia; reflexivity).
      lia.
Qed.

Lemma broadcast_value (a mask : list Z) :
  length a = length mask →
  bytes_value (zip_with (λ b m, Z.lor b (byte_not m)) (zip_with Z.land a mask) mask)
  = (bytes_value (zip_with Z.land a mask) + bytes_value (byte_not <$> mask))%Z.
Proof.
  revert mask. induction a as [|x a IH]; intros [|m mask] Hlen; try done.
  simpl in Hlen. cbn [zip_with fmap list_fmap].
  rewrite !bytes_value_cons, IH by lia.
  rewrite !length_zip_with, length_fmap.
  rewrite <- Z.add_nocarry_lor by apply host_bits_zero.
  replace (length a `min` length mask `min` length mask)%nat with (length mask) by lia.
  replace (length a `min` length mask)%nat with (length mask) by lia.
  lia.
Qed.

Lemma Addr_Compare_le (a b : Addr) :
  Addr_BitLen a = Addr_BitLen b → Addr_Zone a = Addr_Zone b →
  (bytes_value (Addr_As16 a) ≤ bytes_value (Addr_As16 b))%Z →
  (Addr_Compare a b ≤ 0)%Z.
Proof.
  intros Hb Hz Hle. unfold Addr_Compare. rewrite Hb, Hz, Nat.ltb_irrefl.
  destruct (Z.ltb_spec (bytes_value (Addr_As16 a)) (bytes_value (Addr_As16 b)));
    [lia|].
  destruct (Z.ltb_spec (bytes_value (Addr_As16 b)) (bytes_value (Addr_As16 a)));
    [lia|].
  destruct (Addr_Is6 a); [|lia].
  by rewrite string_compare_refl.
Qed.

Lemma bytes_value_nonneg (b : list Z) :
  Forall (λ x, 0 ≤ x)%Z b → (0 ≤ bytes_value b)%Z.
Proof.
  induction 1 as [|x b Hx _ IH]; [done|].
  rewrite bytes_value_cons.
  assert (0 < 256 ^ Z.of_nat (length b))%Z by (apply Z.pow_pos_nonneg; lia). nia.
Qed.

Lemma bytes_value_zero (b : list Z) :
  Forall (λ x, 0 ≤ x)%Z b → bytes_value b = 0%Z → Forall (λ x, x = 0%Z) b.
Proof.
  induction 1 as [|x b Hx Hb IH]; [done|].
  rewrite bytes_value_cons. intros Hv.
  pose proof (bytes_value_nonneg b Hb).
  assert (0 < 256 ^ Z.of_nat (length b))%Z by (apply Z.pow_pos_nonneg; lia).
  constructor; [nia|]. apply IH. nia.
Qed.

Lemma broadcast_same (ip mask : list Z) :
  Forall (λ x, x = 0%Z) (byte_not <$> mask) →
  length ip = length mask →
  zip_with (λ b m, Z.lor b (byte_not m)) ip mask = ip.
Proof.
  revert mask. induction ip as [|x ip IH]; intros [|m mask] Hz Hlen; try done.
  rewrite fmap_cons in Hz. apply Forall_cons_1 in Hz as [Hm Hz].
  cbn [zip_with]. rewrite Hm, Z.lor_0_r, IH; [done..|]. simpl in Hlen. lia.
Qed.

(** X15.  When [LoadCIDR] accepts a text, the mask of the network it
    returns is made of some number [n] of one bits followed by zero bits,
    and the broadcast address, read as a number, is the network address
    plus two to the number of zero bits, minus one; so [Addr.Compare]
    never puts the network address above the broadcast address, and the
    two are one address exactly when the mask has no zero bit. *)
Theorem LoadCIDR_subnet_size (cidr : string) (ipNet : IPNet)
  (networkIPAddr broadcastIPAddr : Addr) :
  LoadCIDR cidr = Ok (ipNet, networkIPAddr, broadcastIPAddr) →
  ∃ n : Z,
    (0 ≤ n ≤ 8 * Z.of_nat (length (Mask ipNet)))%Z
    ∧ Mask ipNet = CIDRMask_loop (length (Mask ipNet)) n
    ∧ bytes_value (Addr_bytes broadcastIPAddr)
      = (bytes_value (Addr_bytes networkIPAddr)
         + 2 ^ (8 * Z.of_nat (length (Mask ipNet)) - n) - 1)%Z
    ∧ (Addr_Compare networkIPAddr broadcastIPAddr ≤ 0)%Z
    ∧ (networkIPAddr = broadcastIPAddr
       ↔ n = (8 * Z.of_nat (length (Mask ipNet)))%Z).
Proof.
  unfold LoadCIDR.
  destruct (ParseCIDR cidr) as [[ip ipNet']|e] eqn:Hp; [|done].
  destruct (ParseCIDR_Ok _ _ _ Hp) as (a & n & Hlen & Hn & Hmask & Hip).
  assert (Hml : length (Mask ipNet') = length a)
    by (by rewrite Hmask, CIDRMask_loop_length).
  assert (Hil : length (IP ipNet') = length a)
    by (rewrite Hip, length_zip_with; lia).
  assert (Hbl : length (zip_with (λ b m, Z.lor b (byte_not m)) (IP ipNet') (Mask ipNet'))
                = length a) by (rewrite length_zip_with; lia).
  assert (Hval :
    bytes_value (zip_with (λ b m, Z.lor b (byte_not m)) (IP ipNet') (Mask ipNet'))
    = (bytes_value (IP ipNet') + 2 ^ (8 * Z.of_nat (length (Mask ipNet')) - n) - 1)%Z).
  { assert (bytes_value (byte_not <$> Mask ipNet')
            = 2 ^ (8 * Z.of_nat (length a) - n) - 1)%Z as Hhost
      by (rewrite Hmask; by apply host_mask_value).
    rewrite Hip, broadcast_value by lia. rewrite Hhost, Hml. lia. }
  assert (Hpos : (0 < 2 ^ (8 * Z.of_nat (length (Mask ipNet')) - n))%Z)
    by (apply Z.pow_pos_nonneg; lia).
  assert (Hsame : n = (8 * Z.of_nat (length (Mask ipNet')))%Z →
    zip_with (λ b m, Z.lor b (byte_not m)) (IP ipNet') (Mask ipNet') = IP ipNet').
  { intros Hfull. apply broadcast_same; [|lia].
    apply bytes_value_zero.
    - apply Forall_fmap, Forall_forall. intros m _. simpl. apply byte_not_range.
    - rewrite Hmask, host_mask_value by done. rewrite <- Hml, <- Hfull.
      by rewrite Z.sub_diag. }
  assert (Hdiff : n ≠ (8 * Z.of_nat (length (Mask ipNet')))%Z →
    zip_with (λ b m, Z.lor b (byte_not m)) (IP ipNet') (Mask ipNet') ≠ IP ipNet').
  { intros Hne Heq. rewrite Heq in Hval.
    assert (2 ^ (8 * Z.of_nat (length (Mask ipNet')) - n) = 2 ^ 0)%Z as Hpow
      by (simpl; lia).
    apply Z.pow_inj_r in Hpow; lia. }
  unfold AddrFromSlice. rewrite Hil, Hbl.
  destruct Hlen as [Hlen|Hlen]; rewrite Hlen; cbn [Nat.eqb];
    intros [= <- <- <-]; exists n; cbn [Addr_bytes];
    (split; [lia|]); (split; [by rewrite Hml|]); (split; [done|]); split.
  - rewrite Addr_Compare_v4 by lia.
    destruct (Z.ltb_spec (bytes_value (IP ipNet'))
                (bytes_value (zip_with (λ b m, Z.lor b (byte_not m))
                                (IP ipNet') (Mask ipNet')))); [lia|].
    destruct (Z.ltb_spec (bytes_value (zip_with (λ b m, Z.lor b (byte_not m))
                                         (IP ipNet') (Mask ipNet')))
                (bytes_value (IP ipNet'))); lia.
  - split.
    + intros [= Heq]. destruct (decide (n = (8 * Z.of_nat (length (Mask ipNet')))%Z));
        [done|]. by destruct (Hdiff n0).
    + intros Hfull. by rewrite Hsame.
  - apply Addr_Compare_le; [done..|]. cbn [Addr_As16]. lia.
  - split.
    + intros [= Heq]. destruct (decide (n = (8 * Z.of_nat (length (Mask ipNet')))%Z));
        [done|]. by destruct (Hdiff n0).
    + intros Hfull. by rewrite Hsame.
Qed.

End SubnetProperties.

(* ===================================================================== *)
(** ** The properties at work *)
(* ===================================================================== *)

#[local] Existing Instance goExamples.
#[local] Existing Instance keyOrder.

Ltac singleton_keyed :=
  split; intros k x Hl; simpl in Hl;
  apply lookup_insert_Some in Hl as [[<- <-]|[_ Hl]];
  first [reflexivity | by rewrite lookup_empty in Hl].

Lemma clusterWith_NoFaults vm o : NoFaults (clusterWith vm o).
Proof. intros op. reflexivity. Qed.

Lemma clusterSynced_WellKeyed : WellKeyed clusterSynced.
Proof. singleton_keyed. Qed.

Lemma desiredMapping_vmA_nonempty o :
  desiredMapping (clusterWith vmA o) (vmInHand vmA) ≠ ∅.
Proof.
  intros He. apply (f_equal size) in He. vm_compute in He. discriminate.
Qed.

(** The first pass on the resource believed in sync: one status update and
    the enqueue. *)
Lemma OnChange_marks_out_of_sync_witness :
  NoFaults clusterSynced
  ∧ vmnetcfgs clusterSynced !! ("default", "vm1") = Some (staleNetCfg ConditionTrue)
  ∧ Cond_IsFalse InSynced (staleNetCfg ConditionTrue) = false
  ∧ calls (OnChange "default/vm1" (Some vmA) clusterSynced).2
    = [CallUpdateStatus
         (markOutOfSync
            (with_NetworkConfigs (staleNetCfg ConditionTrue)
               (desiredSpec clusterSynced (vmInHand vmA))));
       CallEnqueue "default" "vm1"].
Proof.
  split; [apply clusterWith_NoFaults|].
  split; [vm_compute; reflexivity|].
  split; [vm_compute; reflexivity|].
  destruct (OnChange_marks_out_of_sync "default/vm1" vmA clusterSynced
              (staleNetCfg ConditionTrue)) as (_ & Hcalls & _).
  - reflexivity.
  - apply clusterWith_NoFaults.
  - vm_compute; reflexivity.
  - reflexivity.
  - apply desiredMapping_vmA_nonempty.
  - vm_compute. discriminate.
  - vm_compute; reflexivity.
  - exact Hcalls.
Defined.

(** The pass on the resource out of sync: one update of the spec. *)
Lemma OnChange_overwrites_when_out_of_sync_witness :
  NoFaults clusterOutOfSync
  ∧ vmnetcfgs clusterOutOfSync !! ("default", "vm1") = Some (staleNetCfg ConditionFalse)
  ∧ Cond_IsFalse InSynced (staleNetCfg ConditionFalse) = true
  ∧ calls (OnChange "default/vm1" (Some vmA) clusterOutOfSync).2
    = [CallUpdate
         (with_NetworkConfigs (staleNetCfg ConditionFalse)
            (desiredSpec clusterOutOfSync (vmInHand vmA)))].
Proof.
  split; [apply clusterWith_NoFaults|].
  split; [vm_compute; reflexivity|].
  split; [vm_compute; reflexivity|].
  destruct (OnChange_overwrites_when_out_of_sync "default/vm1" vmA clusterOutOfSync
              (staleNetCfg ConditionFalse)) as (_ & Hcalls & _).
  - reflexivity.
  - apply clusterWith_NoFaults.
  - vm_compute; reflexivity.
  - reflexivity.
  - apply desiredMapping_vmA_nonempty.
  - vm_compute. discriminate.
  - vm_compute; reflexivity.
  - exact Hcalls.
Defined.

(** C1 as stated fails: the resource exists, its spec is not the (empty)
    desired mapping, its condition is not False, and the pass makes no
    call and changes nothing. *)
Lemma stale_spec_left_alone_when_in_sync :
  vmnetcfgs clusterEmptiedSynced !! ("default", "vm1") = Some (staleNetCfg ConditionTrue)
  ∧ VirtualMachineNetworkConfig.NetworkConfigs (staleNetCfg ConditionTrue)
    ≠ desiredSpec clusterEmptiedSynced (vmInHand vmD)
  ∧ Cond_IsFalse InSynced (staleNetCfg ConditionTrue) = false
  ∧ OnChange "default/vm1" (Some vmD) clusterEmptiedSynced
    = (Some vmD, None, clusterEmptiedSynced).
Proof.
  split; [vm_compute; reflexivity|].
  split; [vm_compute; discriminate|].
  split; vm_compute; reflexivity.
Qed.

(** C2 as stated fails: the same with the condition False; no update is
    made. *)
Lemma stale_spec_left_alone_when_out_of_sync :
  vmnetcfgs clusterEmptiedOutOfSync !! ("default", "vm1")
  = Some (staleNetCfg ConditionFalse)
  ∧ VirtualMachineNetworkConfig.NetworkConfigs (staleNetCfg ConditionFalse)
    ≠ desiredSpec clusterEmptiedOutOfSync (vmInHand vmD)
  ∧ Cond_IsFalse InSynced (staleNetCfg ConditionFalse) = true
  ∧ OnChange "default/vm1" (Some vmD) clusterEmptiedOutOfSync
    = (Some vmD, None, clusterEmptiedOutOfSync).
Proof.
  split; [vm_compute; reflexivity|].
  split; [vm_compute; discriminate|].
  split; vm_compute; reflexivity.
Qed.

Lemma clusterTwoNics_WellKeyed : WellKeyed (clusterWith vmF (staleNetCfg ConditionTrue)).
Proof. singleton_keyed. Qed.



(** Without the same listing in every pass the passes do not come to
    rest: after two passes that list the two entries of [vmF] in the order
    of their keys, a third pass that lists them in the same order makes no
    call, and one that lists them in the opposite order writes the spec
    again. *)
Lemma changed_listing_writes_again :
  let c := clusterWith vmF (staleNetCfg ConditionTrue) in
  let c2 := (sync "default" "vm1" (sync "default" "vm1" c).2).2 in
  (sync "default" "vm1" c2).2 = c2
  ∧ ∃ o, calls (@sync _ reverseOrder "default" "vm1" c2).2 = calls c2 ++ [CallUpdate o]
         ∧ VirtualMachineNetworkConfig.NetworkConfigs o
           = [NetworkConfig.Build "net1" "aa:bb:cc:dd:ee:02";
              NetworkConfig.Build "default/net1" "aa:bb:cc:dd:ee:01"].
Proof.
  cbv zeta. split; [vm_compute; reflexivity|].
  eexists. vm_compute. split; reflexivity.
Qed.

(** The pass for [vmC]: the annotation supplies the MAC address of [nic1]. *)
Lemma OnChange_applies_mac_override_witness :
  VirtualMachine.Interfaces (vmInHand vmC)
  = [Interface.Build "nic1" "aa:bb:cc:dd:ee:01"]
  ∧ macUpdated (vmInHand vmC) = false.
Proof.
  destruct (OnChange_applies_mac_override "default/vm1" vmC cluster0
              ("{" +:+ quoted "nic1" +:+ ":" +:+ quoted "aa:bb:cc:dd:ee:01" +:+ "}")
              (<["nic1" := "aa:bb:cc:dd:ee:01"]> ∅)
              (Interface.Build "nic1" "") "aa:bb:cc:dd:ee:01")
    as (Hnics & _ & _ & _ & Hidem).
  - reflexivity.
  - vm_compute; reflexivity.
  - discriminate.
  - vm_compute; reflexivity.
  - apply list_elem_of_here.
  - reflexivity.
  - vm_compute; reflexivity.
  - discriminate.
  - split; [|exact Hidem]. rewrite Hnics. vm_compute; reflexivity.
Defined.

(** C4 as stated fails: the pass that updates the VM goes on and creates
    the per-VM resource. *)
Lemma first_pass_also_creates_the_resource :
  calls (OnChange "default/vm1" (Some vmC) cluster0).2
  = [CallVMUpdate (vmInHand vmC);
     CallCreate (prepareVmNetCfg (vmInHand vmC)
                   (desiredMapping cluster0 (vmInHand vmC)))]
  ∧ VirtualMachineNetworkConfig.NetworkConfigs
      (prepareVmNetCfg (vmInHand vmC) (desiredMapping cluster0 (vmInHand vmC)))
    = [NetworkConfig.Build "default/net1" "aa:bb:cc:dd:ee:01"].
Proof. split; vm_compute; reflexivity. Qed.

(** The VM with two networks of which [net2] has no pool: the resource is
    created with the one that resolves. *)
Lemma unresolved_networks_are_dropped_witness :
  NoFaults cluster0
  ∧ calls (OnChange "default/vm1" (Some vmB) cluster0).2
    = [CallCreate (prepareVmNetCfg (vmInHand vmB) (desiredMapping cluster0 (vmInHand vmB)))]
  ∧ VirtualMachineNetworkConfig.NetworkConfigs
      (prepareVmNetCfg (vmInHand vmB) (desiredMapping cluster0 (vmInHand vmB)))
    = [NetworkConfig.Build "default/net1" "aa:bb:cc:dd:ee:01"].
Proof.
  assert (Hnf : NoFaults cluster0) by (intros op; reflexivity).
  split; [done|].
  destruct (unresolved_networks_are_dropped "default/vm1" vmB cluster0)
    as (_ & _ & _ & Hcreate).
  destruct Hcreate as (_ & Hcalls & _).
  - reflexivity.
  - done.
  - vm_compute; reflexivity.
  - intros He. apply (f_equal size) in He. vm_compute in He. discriminate.
  - split; [exact Hcalls|]. vm_compute; reflexivity.
Defined.

(** A qualified name, a bare name, and a name with two slashes, which is
    split at the first. *)
Lemma nadLookupKey_namespace_witness :
  nadLookupKey "kube-system/net1" "default" = ("kube-system", "net1")
  ∧ nadLookupKey "net1" "default" = ("default", "net1")
  ∧ (nadLookupKey "net1" "").1 = ""
  ∧ nadLookupKey "a/b/c" "default" = ("a", "b/c").
Proof.
  destruct (nadLookupKey_namespace "kube-system/net1" "default") as (Hq & _).
  destruct (nadLookupKey_namespace "net1" "default") as (_ & Hb & _).
  destruct (nadLookupKey_namespace "net1" "") as (_ & _ & He & _).
  destruct (nadLookupKey_namespace "a/b/c" "default") as (Hs & _).
  split; [|split; [|split]].
  - apply (Hq "kube-system" "net1"); reflexivity.
  - apply Hb. reflexivity.
  - apply He; reflexivity.
  - apply (Hs "a" "b/c"); reflexivity.
Defined.

(** The text before the last slash of [a/b/c] is not the namespace of the
    lookup, nor the text after it the name. *)
Lemma splits_at_first_slash :
  nadLookupKey "a/b/c" "default" = ("a", "b/c")
  ∧ nadLookupKey "a/b/c" "default" ≠ ("a/b", "c").
Proof. split; [reflexivity|discriminate]. Qed.

(** C6 as stated fails: in [/net1] the text before the last slash is
    empty, and the lookup uses the fallback namespace, not the empty one. *)
Lemma empty_namespace_falls_back :
  "/net1" = "" +:+ "/" +:+ "net1"
  ∧ contains "/" "net1" = false
  ∧ nadLookupKey "/net1" "default" = ("default", "net1")
  ∧ (nadLookupKey "/net1" "default").1 ≠ "".
Proof. repeat split. discriminate. Qed.

(** C7 as stated fails: for the interface definition without a label map
    the error names neither label key. *)
Lemma nil_labels_error_names_no_key :
  nads cluster0 !! nadLookupKey "net2" "default" = Some nad2
  ∧ NetworkAttachmentDefinition.Labels nad2 = None
  ∧ GetIPPoolFromNetworkName (nads cluster0) (ippools cluster0) "net2" "default"
    = Err (Errorf "network attachment definition default/net2 has no labels")
  ∧ String.index 0 IPPoolNamespaceLabelKey
      "network attachment definition default/net2 has no labels" = None
  ∧ String.index 0 IPPoolNameLabelKey
      "network attachment definition default/net2 has no labels" = None.
Proof. repeat split; vm_compute; reflexivity. Qed.

(** A create request whose second reference has an interface definition
    without labels is rejected; one whose references resolve is accepted. *)
Lemma Validator_Create_spec_witness :
  Validator_Create validator0 requestOk = None
  ∧ Validator_Create validator0 requestNoLabels
    = Some (CreateErr "VirtualMachineNetworkConfig" "default" "vm1"
              (Errorf "network attachment definition default/net2 has no labels")).
Proof.
  split.
  - destruct (Validator_Create_spec validator0 requestOk) as (Hacc & _).
    apply Hacc. constructor; [vm_compute; reflexivity|constructor].
  - destruct (Validator_Create_spec validator0 requestNoLabels) as (_ & _ & Hrej).
    destruct Hrej as (ok & nc & rest & cause & Heq & Hok & Hcause & Hcreate & _).
    + intros Hall. apply Forall_cons in Hall as [_ Hall].
      apply Forall_cons in Hall as [Hnc _]. vm_compute in Hnc. discriminate.
    + rewrite Hcreate. f_equal. f_equal.
      destruct ok as [|x ok]; simpl in Heq.
      { injection Heq as <- _. vm_compute in Hcause. discriminate. }
      destruct ok as [|y ok]; simpl in Heq.
      { injection Heq as _ <- _. vm_compute in Hcause. by injection Hcause as <-. }
      injection Heq as _ _ Heq. by destruct ok.
Defined.

(** The pass for [vmE], whose annotation does not decode. *)
Lemma malformed_annotation_is_ignored_witness :
  json_Unmarshal "nic1=aa:bb:cc:dd:ee:01" = None
  ∧ applyMACAddressAnnotation vmE = (vmE, false, None)
  ∧ (OnChange "default/vm1" (Some vmE) cluster0).2
    = (OnChange "default/vm1" (Some (without_annotation vmE)) cluster0).2.
Proof.
  split; [reflexivity|].
  destruct (malformed_annotation_is_ignored "default/vm1" vmE cluster0
              "nic1=aa:bb:cc:dd:ee:01") as (Happly & _ & _ & Hsame & _).
  - vm_compute; reflexivity.
  - reflexivity.
  - by split.
Defined.

(** [LoadCIDR] on a text that is no CIDR. *)
Lemma LoadCIDR_spec_witness :
  LoadCIDR "10.0.0.0" = Err (ParseError "CIDR address" "10.0.0.0").
Proof.
  destruct (LoadCIDR_spec "10.0.0.0") as (Herr & _).
  apply (Herr (ParseError "CIDR address" "10.0.0.0")). reflexivity.
Defined.

(* --------------------------------------------------------------------- *)
(** *** The further properties at work *)
(* --------------------------------------------------------------------- *)

#[local] Existing Instance goUtilExamples.

(** [node1] carries the service CIDR after the cluster CIDR. *)
Lemma GetServiceCIDRFromNode_value_witness :
  GetServiceCIDRFromNode node1 = Ok "10.53.0.0/16".
Proof.
  apply GetServiceCIDRFromNode_value.
  eexists _, _, ["--cluster-cidr"; "10.52.0.0/16"], [].
  split; [reflexivity|]. split; [vm_compute; reflexivity|].
  split; [vm_compute; reflexivity|].
  intros Hin. apply elem_of_cons in Hin as [Hin|Hin]; [discriminate|].
  apply elem_of_cons in Hin as [Hin|Hin]; [discriminate|].
  by apply elem_of_nil in Hin.
Defined.

(** [poolConfig1] has a CIDR that parses, three fields that parse and one
    that is empty. *)
Lemma LoadPool_outcomes_witness :
  (LoadPool poolConfig1).2 = None
  ∧ PoolInfo.RouterIPAddr (LoadPool poolConfig1).1 = None
  ∧ PoolInfo.StartIPAddr (LoadPool poolConfig1).1 = Some (Addr4 [10; 0; 0; 10]%Z).
Proof.
  destruct (LoadPool_outcomes poolConfig1) as ([_ Hok] & Hinfo & _).
  assert (Hnone : (LoadPool poolConfig1).2 = None).
  { apply Hok. split; [vm_compute; reflexivity|].
    repeat (apply Forall_cons_2;
            [first [left; reflexivity | right; vm_compute; eexists; reflexivity]|]).
    apply Forall_nil_2. }
  split; [exact Hnone|].
  rewrite (Hinfo _ _ _ eq_refl Hnone). split; vm_compute; reflexivity.
Defined.

(** In [allocated1] the key 10.0.0.1 is excluded, and the key that is no
    address is in no list. *)
Lemma LoadAllocated_classifies_witness :
  IsIPAddrInList (Addr4 [10; 0; 0; 1]%Z) (LoadAllocated allocated1).1.2 = true
  ∧ length (LoadAllocated allocated1).1.1 + length (LoadAllocated allocated1).1.2
    + length (LoadAllocated allocated1).2 = 3.
Proof.
  destruct (LoadAllocated_classifies allocated1 (Addr4 [10; 0; 0; 1]%Z))
    as (_ & Hex & _ & Hlen).
  split.
  - apply Hex. exists "10.0.0.1". split; vm_compute; reflexivity.
  - rewrite Hlen. vm_compute. reflexivity.
Defined.

Lemma LoadAllocated_order_irrelevant_witness :
  [("10.0.0.1", "EXCLUDED"); ("10.0.0.2", "EXCLUDED")]
  ≡ₚ [("10.0.0.2", "EXCLUDED"); ("10.0.0.1", "EXCLUDED")]
  ∧ (LoadAllocated_range [("10.0.0.1", "EXCLUDED"); ("10.0.0.2", "EXCLUDED")]).1.2
    ≡ₚ (LoadAllocated_range [("10.0.0.2", "EXCLUDED"); ("10.0.0.1", "EXCLUDED")]).1.2.
Proof.
  split; [apply perm_swap|].
  apply (LoadAllocated_order_irrelevant
           [("10.0.0.1", "EXCLUDED"); ("10.0.0.2", "EXCLUDED")]
           [("10.0.0.2", "EXCLUDED"); ("10.0.0.1", "EXCLUDED")]).
  apply perm_swap.
Defined.

(** Both ends of the range of [poolConfig1] are in it. *)
Lemma IsIPInBetweenOf_bounds_witness :
  IsIPInBetweenOf "10.0.0.10" "10.0.0.10" "10.0.0.20" = true
  ∧ IsIPInBetweenOf "10.0.0.20" "10.0.0.10" "10.0.0.20" = true.
Proof.
  destruct (IsIPInBetweenOf_bounds "10.0.0.10" "10.0.0.10" "10.0.0.20")
    as (_ & _ & Hends).
  apply (Hends (Addr4 [10; 0; 0; 10]%Z) (Addr4 [10; 0; 0; 20]%Z));
    [vm_compute; reflexivity..|].
  vm_compute. discriminate.
Defined.

Lemma IsIPInBetweenOf_IPv4_witness :
  IsIPInBetweenOf "10.0.0.15" "10.0.0.10" "10.0.0.20" = true
  ∧ IsIPInBetweenOf "10.0.1.15" "10.0.0.10" "10.0.0.20" = false.
Proof.
  split.
  - destruct (IsIPInBetweenOf_IPv4 "10.0.0.15" "10.0.0.10" "10.0.0.20")
      as (Hnum & _ & _).
    apply (Hnum [10; 0; 0; 15]%Z [10; 0; 0; 10]%Z [10; 0; 0; 20]%Z);
      [vm_compute; reflexivity..|].
    split; vm_compute; discriminate.
  - destruct (IsIPInBetweenOf_IPv4 "10.0.1.15" "10.0.0.10" "10.0.0.20")
      as (Hnum & _ & _).
    apply not_true_is_false. intros Hin.
    apply (Hnum [10; 0; 1; 15]%Z [10; 0; 0; 10]%Z [10; 0; 0; 20]%Z) in Hin;
      [|vm_compute; reflexivity..].
    destruct Hin as [_ Hhi]. vm_compute in Hhi. by destruct Hhi.
Defined.

(** [vmC] gets the MAC address of its annotation. *)
Lemma applyMACAddressAnnotation_fills_only_witness :
  (applyMACAddressAnnotation vmC).1.2 = true
  ∧ (applyMACAddressAnnotation vmC).1.1 ≠ vmC
  ∧ Interface.Name <$> VirtualMachine.Interfaces (applyMACAddressAnnotation vmC).1.1
    = ["nic1"].
Proof.
  destruct (applyMACAddressAnnotation_fills_only vmC) as (_ & _ & Hnames & _ & Hupd).
  assert (Hu : (applyMACAddressAnnotation vmC).1.2 = true)
    by (vm_compute; reflexivity).
  split; [exact Hu|]. split; [by apply Hupd|exact Hnames].
Defined.

Lemma desiredMapping_entries_witness :
  desiredMapping cluster0 vmA !! "nic1"
  = Some (NetworkConfig.Build "default/net1" "aa:bb:cc:dd:ee:01")
  ∧ resolvesIn cluster0 "default" "default/net1".
Proof.
  assert (Hl : desiredMapping cluster0 vmA !! "nic1"
               = Some (NetworkConfig.Build "default/net1" "aa:bb:cc:dd:ee:01"))
    by (vm_compute; reflexivity).
  split; [exact Hl|].
  destruct (desiredMapping_entries cluster0 vmA "nic1" _ Hl) as (_ & _ & _ & _ & Hres).
  exact Hres.
Defined.

(** The second interface of [vmB] is in the map before the filter, with
    the network name as the VM gives it. *)
Lemma unfilteredMapping_exact_witness :
  NoDup (Interface.Name <$> VirtualMachine.Interfaces vmB)
  ∧ NoDup (Network.Name <$> VirtualMachine.Networks vmB)
  ∧ unfilteredMapping vmB !! "nic2"
    = Some (NetworkConfig.Build "net2" "aa:bb:cc:dd:ee:02").
Proof.
  assert (Hi : NoDup (Interface.Name <$> VirtualMachine.Interfaces vmB)).
  { simpl. apply NoDup_cons. split; [|apply NoDup_singleton].
    intros Hin. apply list_elem_of_singleton in Hin. discriminate. }
  assert (Hn : NoDup (Network.Name <$> VirtualMachine.Networks vmB)).
  { simpl. apply NoDup_cons. split; [|apply NoDup_singleton].
    intros Hin. apply list_elem_of_singleton in Hin. discriminate. }
  split; [exact Hi|]. split; [exact Hn|].
  apply (unfilteredMapping_exact vmB "nic2" _ Hi Hn).
  exists (Interface.Build "nic2" "aa:bb:cc:dd:ee:02"),
    (Network.Build "nic2" (Some (MultusNetwork.Build "net2"))),
    (MultusNetwork.Build "net2").
  split; [apply list_elem_of_further, list_elem_of_here|].
  split; [reflexivity|].
  split; [apply list_elem_of_further, list_elem_of_here|].
  split; [reflexivity|]. split; [reflexivity|].
  split; [discriminate|]. split; [discriminate|reflexivity].
Defined.

(** The pass on the resource believed in sync touches neither the
    interface definitions nor the pools. *)
Lemma OnChange_call_discipline_witness :
  nads (OnChange "default/vm1" (Some vmA) clusterSynced).2 = nads clusterSynced
  ∧ ippools (OnChange "default/vm1" (Some vmA) clusterSynced).2 = ippools clusterSynced.
Proof.
  destruct (OnChange_call_discipline "default/vm1" (Some vmA) clusterSynced)
    as (Hn & Hi & _).
  split; [exact Hn|exact Hi].
Defined.

(** The cache fails: the pass returns its error and the store has no
    resource, as before. *)
Lemma OnChange_error_leaves_resources_witness :
  (OnChange "default/vm1" (Some vmA) clusterGetFails).1.2 = Some (Errorf "timeout")
  ∧ vmnetcfgs (OnChange "default/vm1" (Some vmA) clusterGetFails).2
    = vmnetcfgs clusterGetFails.
Proof.
  assert (He : (OnChange "default/vm1" (Some vmA) clusterGetFails).1.2
               = Some (Errorf "timeout")) by (vm_compute; reflexivity).
  split; [exact He|].
  destruct (OnChange_error_leaves_resources _ _ _ _ He) as [Hsame _].
  exact Hsame.
Defined.

Lemma OnChange_two_phase_safety_witness :
  WellKeyed clusterSynced
  ∧ WellKeyed (OnChange "default/vm1" (Some vmA) clusterSynced).2.
Proof.
  split; [apply clusterSynced_WellKeyed|].
  destruct (OnChange_two_phase_safety "default/vm1" (Some vmA) clusterSynced
              clusterSynced_WellKeyed) as [Hwk _].
  exact Hwk.
Defined.

(** The one network of [vmA] has a pool: the two handlers agree. *)
Lemma OnChange_revisions_agree_witness :
  OnChange_basic "default/vm1" (Some vmA) clusterSynced
  = OnChange "default/vm1" (Some vmA) clusterSynced.
Proof.
  apply OnChange_revisions_agree.
  intros vm k nc [= <-] Hl.
  assert (Hm : unfilteredMapping (vmInHand vmA)
               = {["nic1" := NetworkConfig.Build "default/net1" "aa:bb:cc:dd:ee:01"]})
    by (vm_compute; reflexivity).
  rewrite Hm in Hl. apply lookup_singleton_Some in Hl as [_ <-].
  vm_compute. reflexivity.
Defined.

(** The resource the first pass creates for [vmA] passes the validator. *)
Lemma created_resource_is_admitted_witness :
  calls (OnChange "default/vm1" (Some vmA) cluster0).2
  = calls cluster0 ++ [CallCreate (prepareVmNetCfg vmA (desiredMapping cluster0 vmA))]
  ∧ Validator_Create validator0 (prepareVmNetCfg vmA (desiredMapping cluster0 vmA))
    = None.
Proof.
  assert (Hc : calls (OnChange "default/vm1" (Some vmA) cluster0).2
               = calls cluster0
                 ++ [CallCreate (prepareVmNetCfg vmA (desiredMapping cluster0 vmA))])
    by (vm_compute; reflexivity).
  split; [exact Hc|].
  apply (created_resource_is_admitted "default/vm1" (Some vmA) cluster0 _ _ Hc).
  apply list_elem_of_here.
Defined.

(** A /24 has 256 addresses. *)
Lemma LoadCIDR_subnet_size_witness :
  LoadCIDR "10.0.0.0/24"
  = Ok (mkIPNet [10; 0; 0; 0]%Z [255; 255; 255; 0]%Z,
        Addr4 [10; 0; 0; 0]%Z, Addr4 [10; 0; 0; 255]%Z)
  ∧ (Addr_Compare (Addr4 [10; 0; 0; 0]%Z) (Addr4 [10; 0; 0; 255]%Z) ≤ 0)%Z.
Proof.
  assert (Hl : LoadCIDR "10.0.0.0/24"
               = Ok (mkIPNet [10; 0; 0; 0]%Z [255; 255; 255; 0]%Z,
                     Addr4 [10; 0; 0; 0]%Z, Addr4 [10; 0; 0; 255]%Z))
    by (vm_compute; reflexivity).
  split; [exact Hl|].
  destruct (LoadCIDR_subnet_size _ _ _ _ Hl) as (n & _ & _ & _ & Hle & _).
  exact Hle.
Defined.
